(** * Collision subsystem of InteractiveContentsLearning

    A shallow embedding of the collision code of the repository:

    - [src/collision/OBB.ts]: the oriented bounding box, its projection on
      an axis, the separating-axis test [intersects], [containsPoint] and
      [intersectsRay];
    - [src/collision/AkashicCollisionSystem.ts]: the broad-phase index of
      axis-aligned rectangles;
    - [src/collision/HybridCollisionSystem.ts]: the pipeline that owns one
      OBB and one rectangle per registered object, its [addObject],
      [checkCollisions], [checkCollisionBetween], [raycast], the queries
      by point and by sphere, [getStats] and [resolveCollision];
    - [src/collision/ThreeDAkashicCollision.ts]: the simplified tests on
      boxes without rotation and on spheres.

    JavaScript numbers are binary64 floating-point numbers.  The main
    embedding idealises them as real numbers: every coordinate that the
    program stores is a finite real and every operation is exact.  Where
    the source uses [Infinity] as a sentinel (the running minimum of
    [intersects], the slab bounds of [intersectsRay], the default
    [maxDistance]) the model has explicit extended values.  Overflow and
    NaN are outside the idealisation.

    The properties stated over the reals rest on the control flow of the
    code and on comparisons, minima, maxima and sign changes of the values
    it computes, which a rounded evaluation keeps.  A property that needs
    an arithmetic identity to be exact (that the projection of a rotated
    box on its own axis is its half-extent, that a normalized vector has
    length one) is stated only for inputs on which the arithmetic is
    exact, such as boxes aligned with the world axes: module [Binary64]
    transcribes the separating-axis test a second time, over binary64,
    and shows on concrete boxes what rounding does elsewhere.

    The vector and matrix operations come from the three.js library; they
    are transcribed from the library's definitions (column-major element
    arrays).  Meshes and collision objects are JavaScript objects held by
    reference: the model keeps them in stores indexed by addresses, so
    that two registrations of one mesh share it. *)

From Stdlib Require Import Floats.
From Stdlib Require Import Reals Lra Lia List Bool String Arith.
Import ListNotations.

Local Open Scope R_scope.

(** ** three.js primitives used by the collision code *)

Module Three.

Record Vector3 : Type := mkVector3 { x : R; y : R; z : R }.

(** [Vector3.dot] *)
Definition dot (a b : Vector3) : R :=
  x a * x b + y a * y b + z a * z b.

(** [Vector3.lengthSq] *)
Definition lengthSq (a : Vector3) : R :=
  x a * x a + y a * y a + z a * z a.

(** [Vector3.length] *)
Definition length (a : Vector3) : R := sqrt (lengthSq a).

(** [Vector3.multiplyScalar] *)
Definition multiplyScalar (a : Vector3) (s : R) : Vector3 :=
  mkVector3 (x a * s) (y a * s) (z a * s).

(** [Vector3.divideScalar]: three.js multiplies by the reciprocal. *)
Definition divideScalar (a : Vector3) (s : R) : Vector3 :=
  multiplyScalar a (1 / s).

(** [Vector3.normalize]: [divideScalar (length () || 1)]. *)
Definition normalize (a : Vector3) : Vector3 :=
  divideScalar a (if Req_dec_T (length a) 0 then 1 else length a).

(** [Vector3.add], [Vector3.sub], [Vector3.negate], [Vector3.multiply] *)
Definition add (a b : Vector3) : Vector3 :=
  mkVector3 (x a + x b) (y a + y b) (z a + z b).
Definition sub (a b : Vector3) : Vector3 :=
  mkVector3 (x a - x b) (y a - y b) (z a - z b).
Definition negate (a : Vector3) : Vector3 :=
  mkVector3 (- x a) (- y a) (- z a).
Definition multiply (a b : Vector3) : Vector3 :=
  mkVector3 (x a * x b) (y a * y b) (z a * z b).

(** [Vector3.cross] *)
Definition cross (a b : Vector3) : Vector3 :=
  mkVector3 (y a * z b - z a * y b)
            (z a * x b - x a * z b)
            (x a * y b - y a * x b).

(** [Vector3.getComponent] for the indices 0, 1, 2 (the only ones used). *)
Definition getComponent (a : Vector3) (i : nat) : R :=
  match i with O => x a | S O => y a | _ => z a end.

(** [Matrix3]: the nine entries of the [elements] array, column-major. *)
Record Matrix3 : Type := mkMatrix3 {
  e0 : R; e1 : R; e2 : R;
  e3 : R; e4 : R; e5 : R;
  e6 : R; e7 : R; e8 : R }.

Definition identity3 : Matrix3 := mkMatrix3 1 0 0 0 1 0 0 0 1.

(** [Vector3.applyMatrix3] *)
Definition applyMatrix3 (v : Vector3) (m : Matrix3) : Vector3 :=
  mkVector3 (e0 m * x v + e3 m * y v + e6 m * z v)
            (e1 m * x v + e4 m * y v + e7 m * z v)
            (e2 m * x v + e5 m * y v + e8 m * z v).

(** [Matrix4]: the sixteen entries of the [elements] array, column-major. *)
Record Matrix4 : Type := mkMatrix4 {
  m0 : R; m1 : R; m2 : R; m3 : R;
  m4 : R; m5 : R; m6 : R; m7 : R;
  m8 : R; m9 : R; m10 : R; m11 : R;
  m12 : R; m13 : R; m14 : R; m15 : R }.

Definition identity4 : Matrix4 :=
  mkMatrix4 1 0 0 0  0 1 0 0  0 0 1 0  0 0 0 1.

(** [Vector3.applyMatrix4], with its perspective divide.  For the affine
    matrices of a scene the divisor is 1; for a divisor 0 the program has
    infinite or NaN coordinates, which the reals do not have. *)
Definition applyMatrix4 (v : Vector3) (m : Matrix4) : Vector3 :=
  let w := 1 / (m3 m * x v + m7 m * y v + m11 m * z v + m15 m) in
  mkVector3 ((m0 m * x v + m4 m * y v + m8 m * z v + m12 m) * w)
            ((m1 m * x v + m5 m * y v + m9 m * z v + m13 m) * w)
            ((m2 m * x v + m6 m * y v + m10 m * z v + m14 m) * w).

(** [Matrix3.setFromMatrix4]: the upper-left 3x3 block. *)
Definition setFromMatrix4 (m : Matrix4) : Matrix3 :=
  mkMatrix3 (m0 m) (m1 m) (m2 m) (m4 m) (m5 m) (m6 m) (m8 m) (m9 m) (m10 m).

(** [Vector3.setFromMatrixScale]: the lengths of the three columns. *)
Definition setFromMatrixScale (m : Matrix4) : Vector3 :=
  mkVector3 (length (mkVector3 (m0 m) (m1 m) (m2 m)))
            (length (mkVector3 (m4 m) (m5 m) (m6 m)))
            (length (mkVector3 (m8 m) (m9 m) (m10 m))).

(** [Box3] with [isEmpty], [getCenter] and [getSize]. *)
Record Box3 : Type := mkBox3 { bmin : Vector3; bmax : Vector3 }.

Definition isEmpty (b : Box3) : bool :=
  if Rlt_dec (x (bmax b)) (x (bmin b)) then true
  else if Rlt_dec (y (bmax b)) (y (bmin b)) then true
  else if Rlt_dec (z (bmax b)) (z (bmin b)) then true
  else false.

Definition getCenter (b : Box3) : Vector3 :=
  if isEmpty b then mkVector3 0 0 0
  else multiplyScalar (add (bmin b) (bmax b)) (1 / 2).

Definition getSize (b : Box3) : Vector3 :=
  if isEmpty b then mkVector3 0 0 0 else sub (bmax b) (bmin b).

(** [Ray]: origin and direction. *)
Record Ray : Type := mkRay { origin : Vector3; direction : Vector3 }.

(** The part of a [THREE.Mesh] that the collision code reads or writes:
    [position], the cached [matrixWorld] and the bounding box of the
    geometry (as [computeBoundingBox] leaves it). *)
Record Mesh : Type := mkMesh {
  position : Vector3;
  matrixWorld : Matrix4;
  boundingBox : Box3 }.

(** The library call [new THREE.Box3().setFromObject(mesh)]: it brings the
    world matrix of the mesh up to date and returns the box of the mesh in
    world space.  The collision code takes it as given: a function from
    the mesh to the box and to the mesh as the call leaves it. *)
Definition SetFromObject : Type := Mesh -> Box3 * Mesh.

(** JavaScript numbers that may be infinite: the sentinels [-Infinity] and
    [Infinity] of the slab bounds, of a hit distance and of [maxDistance]. *)
Inductive xreal : Type :=
| NegInfinity
| Finite (r : R)
| Infinity.

(** [u < v] and [u <= v] on such numbers. *)
Definition xlt (u v : xreal) : bool :=
  match u, v with
  | NegInfinity, NegInfinity => false
  | NegInfinity, _ => true
  | Finite _, NegInfinity => false
  | Finite a, Finite b => if Rlt_dec a b then true else false
  | Finite _, Infinity => true
  | Infinity, _ => false
  end.

Definition xle (u v : xreal) : bool :=
  match u, v with
  | NegInfinity, _ => true
  | Finite _, NegInfinity => false
  | Finite a, Finite b => if Rle_dec a b then true else false
  | Finite _, Infinity => true
  | Infinity, Infinity => true
  | Infinity, _ => false
  end.

(** [Math.max] and [Math.min] *)
Definition xmax (u v : xreal) : xreal :=
  match u, v with
  | Infinity, _ | _, Infinity => Infinity
  | NegInfinity, w | w, NegInfinity => w
  | Finite a, Finite b => Finite (Rmax a b)
  end.

Definition xmin (u v : xreal) : xreal :=
  match u, v with
  | NegInfinity, _ | _, NegInfinity => NegInfinity
  | Infinity, w | w, Infinity => w
  | Finite a, Finite b => Finite (Rmin a b)
  end.

(** A coordinate that may be infinite or [NaN]. *)
Inductive number : Type :=
| NaN
| Num (v : xreal).

(** The product of a finite number and a possibly infinite one, and the sum
    of a finite number and such a product. *)
Definition mulNumber (a : R) (t : xreal) : number :=
  match t with
  | Finite r => Num (Finite (a * r))
  | Infinity =>
      if Rlt_dec 0 a then Num Infinity
      else if Rlt_dec a 0 then Num NegInfinity else NaN
  | NegInfinity =>
      if Rlt_dec 0 a then Num NegInfinity
      else if Rlt_dec a 0 then Num Infinity else NaN
  end.

Definition addNumber (a : R) (n : number) : number :=
  match n with
  | Num (Finite r) => Num (Finite (a + r))
  | other => other
  end.

(** A vector whose coordinates may fail to be finite. *)
Record Point3 : Type := mkPoint3 { px : number; py : number; pz : number }.

(** [origin.clone().add(direction.clone().multiplyScalar(t))] *)
Definition pointAt (o d : Vector3) (t : xreal) : Point3 :=
  mkPoint3 (addNumber (x o) (mulNumber (x d) t))
           (addNumber (y o) (mulNumber (y d) t))
           (addNumber (z o) (mulNumber (z d) t)).

(** [Vector3.distanceToSquared] and [Vector3.distanceTo] *)
Definition distanceToSquared (a b : Vector3) : R :=
  let dx := x a - x b in
  let dy := y a - y b in
  let dz := z a - z b in
  dx * dx + dy * dy + dz * dz.

Definition distanceTo (a b : Vector3) : R := sqrt (distanceToSquared a b).

(** [Quaternion]: stored by the simplified system, never read by its
    tests. *)
Record Quaternion : Type := mkQuaternion { qx : R; qy : R; qz : R; qw : R }.

End Three.

Import Three.

(** ** [src/collision/OBB.ts] *)

Module OBB.

Record t : Type := mk {
  center : Vector3;
  halfExtents : Vector3;
  orientation : Matrix3 }.

Record OBBCollisionResult : Type := mkResult {
  isColliding : bool;
  penetrationDepth : R;
  separatingAxis : Vector3;
  contactPoint : Vector3 }.

(** What a call can do: return a value, or raise the [TypeError] of a
    property access on [null]. *)
Inductive completion (A : Type) : Type :=
| Returns (a : A)
| TypeError.
Arguments Returns {A} a.
Arguments TypeError {A}.

(** [OBB.fromMesh] *)
Definition fromMesh (mesh : Mesh) : t :=
  let bb := boundingBox mesh in
  let c := getCenter bb in
  let size := getSize bb in
  let halfExtents0 := multiplyScalar size (1 / 2) in
  let worldCenter := applyMatrix4 c (matrixWorld mesh) in
  let rotationMatrix := setFromMatrix4 (matrixWorld mesh) in
  let scale := setFromMatrixScale (matrixWorld mesh) in
  mk worldCenter (multiply halfExtents0 scale) rotationMatrix.

(** [getAxes] *)
Definition getAxes (b : t) : list Vector3 :=
  [ applyMatrix3 (mkVector3 1 0 0) (orientation b);
    applyMatrix3 (mkVector3 0 1 0) (orientation b);
    applyMatrix3 (mkVector3 0 0 1) (orientation b) ].

Definition axis0 (b : t) : Vector3 := applyMatrix3 (mkVector3 1 0 0) (orientation b).
Definition axis1 (b : t) : Vector3 := applyMatrix3 (mkVector3 0 1 0) (orientation b).
Definition axis2 (b : t) : Vector3 := applyMatrix3 (mkVector3 0 0 1) (orientation b).

(** [projectOnAxis]: the pair (min, max). *)
Definition projectOnAxis (b : t) (axis : Vector3) : R * R :=
  let centerProjection := dot (center b) axis in
  let extent :=
    Rabs (dot (axis0 b) axis * x (halfExtents b)) +
    Rabs (dot (axis1 b) axis * y (halfExtents b)) +
    Rabs (dot (axis2 b) axis * z (halfExtents b)) in
  (centerProjection - extent, centerProjection + extent).

(** The threshold [1e-6]. *)
Definition epsilon : R := 1 / 1000000.

(** [getCrossProductAxes]: the nested loop, keeping the products whose
    squared length exceeds the threshold. *)
Definition getCrossProductAxes (axes1 axes2 : list Vector3) : list Vector3 :=
  flat_map (fun a1 =>
    flat_map (fun a2 =>
      let c := cross a1 a2 in
      if Rgt_dec (lengthSq c) epsilon then [c] else []) axes2) axes1.

(** The overlap of the two projections on an (already normalized) axis. *)
Definition overlapOn (a b : t) (axis : Vector3) : R :=
  let p1 := projectOnAxis a axis in
  let p2 := projectOnAxis b axis in
  Rmin (snd p1) (snd p2) - Rmax (fst p1) (fst p2).

(** The state of the loop of [intersects]: [None] is the initial
    [minPenetration = Infinity] with [separatingAxis = null]. *)
Definition loopState : Type := option (R * Vector3).

(** The loop over [allAxes]: [inl] is the early return with the
    separating axis, [inr] the state after the last axis. *)
Fixpoint satLoop (a b : t) (axes : list Vector3) (st : loopState)
  : Vector3 + loopState :=
  match axes with
  | [] => inr st
  | axis :: rest =>
      if Rlt_dec (lengthSq axis) epsilon then satLoop a b rest st
      else
        let axis' := normalize axis in
        let overlap := overlapOn a b axis' in
        if Rle_dec overlap 0 then inl axis'
        else
          match st with
          | None => satLoop a b rest (Some (overlap, axis'))
          | Some (minPenetration, _) =>
              if Rlt_dec overlap minPenetration
              then satLoop a b rest (Some (overlap, axis'))
              else satLoop a b rest st
          end
  end.

(** [calculateContactPoint] *)
Definition calculateContactPoint (a b : t) (separatingAxis : Vector3) : Vector3 :=
  let thisProjection := projectOnAxis a separatingAxis in
  let otherProjection := projectOnAxis b separatingAxis in
  if Rlt_dec (snd thisProjection) (snd otherProjection)
  then add (center a)
           (multiplyScalar separatingAxis
              (snd thisProjection - dot (center a) separatingAxis))
  else add (center b)
           (multiplyScalar separatingAxis
              (snd otherProjection - dot (center b) separatingAxis)).

Definition allAxes (a b : t) : list Vector3 :=
  getAxes a ++ getAxes b ++ getCrossProductAxes (getAxes a) (getAxes b).

(** [intersects].  When the loop tests no axis, [separatingAxis] is still
    [null] and [calculateContactPoint] raises.  (In the program this also
    happens when every overlap is [Infinity] or NaN, which takes
    coordinates that overflow.) *)
Definition intersects (a b : t) : completion OBBCollisionResult :=
  match satLoop a b (allAxes a b) None with
  | inl axis => Returns (mkResult false 0 axis (mkVector3 0 0 0))
  | inr None => TypeError
  | inr (Some (minPenetration, separatingAxis)) =>
      let contactPoint := calculateContactPoint a b separatingAxis in
      let centerDifference := sub (center b) (center a) in
      let separatingAxis' :=
        if Rlt_dec (dot separatingAxis centerDifference) 0
        then negate separatingAxis else separatingAxis in
      Returns (mkResult true minPenetration separatingAxis' contactPoint)
  end.

(** [containsPoint]: the loop over the three axes. *)
Fixpoint containsLoop (b : t) (localPoint : Vector3) (idx : list nat) : bool :=
  match idx with
  | [] => true
  | i :: rest =>
      let projection := Rabs (dot localPoint (nth i (getAxes b) (mkVector3 0 0 0))) in
      if Rgt_dec projection (getComponent (halfExtents b) i) then false
      else containsLoop b localPoint rest
  end.

Definition containsPoint (b : t) (point : Vector3) : bool :=
  containsLoop b (sub point (center b)) [0%nat; 1%nat; 2%nat].

(** [intersectsRay]: a hit has a distance and a point. *)
Record RayHit : Type := mkRayHit { distance : xreal; point : Point3 }.

(** The loop over the three slabs: [None] is the early [return null],
    otherwise the final [tMin] and [tMax]. *)
Fixpoint rayLoop (b : t) (ray : Ray) (rayToCenter : Vector3) (idx : list nat)
         (tMin tMax : xreal) : option (xreal * xreal) :=
  match idx with
  | [] => Some (tMin, tMax)
  | i :: rest =>
      let axis := nth i (getAxes b) (mkVector3 0 0 0) in
      let rayDotAxis := dot (direction ray) axis in
      let centerDotAxis := dot rayToCenter axis in
      let halfExtent := getComponent (halfExtents b) i in
      if Rlt_dec (Rabs rayDotAxis) epsilon then
        if Rgt_dec (Rabs centerDotAxis) halfExtent then None
        else rayLoop b ray rayToCenter rest tMin tMax
      else
        let t1 := (centerDotAxis - halfExtent) / rayDotAxis in
        let t2 := (centerDotAxis + halfExtent) / rayDotAxis in
        let tNear := Rmin t1 t2 in
        let tFar := Rmax t1 t2 in
        let tMin' := xmax tMin (Finite tNear) in
        let tMax' := xmin tMax (Finite tFar) in
        if xlt tMax' tMin' then None
        else rayLoop b ray rayToCenter rest tMin' tMax'
  end.

Definition intersectsRay (b : t) (ray : Ray) : option RayHit :=
  let rayToCenter := sub (center b) (origin ray) in
  match rayLoop b ray rayToCenter [0%nat; 1%nat; 2%nat] NegInfinity Infinity with
  | None => None
  | Some (tMin, tMax) =>
      let distance := if xlt (Finite 0) tMin then tMin else tMax in
      if xlt distance (Finite 0) then None
      else Some (mkRayHit distance
                          (pointAt (origin ray) (direction ray) distance))
  end.

(** [getVertices]: the vertex for the index [i], whose bits select the
    signs, and the eight of them. *)
Definition vertex (b : t) (i : nat) : Vector3 :=
  let xSign := if Nat.eqb (Nat.land i 1) 0 then -1 else 1 in
  let ySign := if Nat.eqb (Nat.land i 2) 0 then -1 else 1 in
  let zSign := if Nat.eqb (Nat.land i 4) 0 then -1 else 1 in
  add (add (add (center b)
                (multiplyScalar (axis0 b) (xSign * x (halfExtents b))))
           (multiplyScalar (axis1 b) (ySign * y (halfExtents b))))
      (multiplyScalar (axis2 b) (zSign * z (halfExtents b))).

Definition getVertices (b : t) : list Vector3 := map (vertex b) (seq 0 8).

End OBB.

(** ** JavaScript [Map] with string keys: entries in insertion order *)

Module JSMap.

Definition t (V : Type) : Type := list (string * V).

(** [Map.prototype.get] *)
Fixpoint get {V : Type} (m : t V) (k : string) : option V :=
  match m with
  | [] => None
  | (k', v) :: rest => if String.eqb k' k then Some v else get rest k
  end.

(** [Map.prototype.set]: an existing key keeps its place and takes the new
    value, a new key goes to the end. *)
Fixpoint set {V : Type} (m : t V) (k : string) (v : V) : t V :=
  match m with
  | [] => [(k, v)]
  | (k', v') :: rest =>
      if String.eqb k' k then (k', v) :: rest else (k', v') :: set rest k v
  end.

(** [Map.prototype.delete] *)
Fixpoint delete {V : Type} (m : t V) (k : string) : t V :=
  match m with
  | [] => []
  | (k', v') :: rest =>
      if String.eqb k' k then rest else (k', v') :: delete rest k
  end.

(** [Map.prototype.keys] *)
Definition keys {V : Type} (m : t V) : list string := map fst m.

End JSMap.

(** ** [src/collision/AkashicCollisionSystem.ts] *)

Module AkashicCollisionSystem.

Record AABB : Type := mkAABB { x : R; y : R; width : R; height : R }.

(** A [CollisionResult]; [body1] and [body2] are the rectangles as they are
    when the check runs. *)
Record CollisionResult : Type := mkCollisionResult {
  id1 : string;
  id2 : string;
  body1 : AABB;
  body2 : AABB;
  overlap : AABB }.

Record t : Type := mk {
  bodies : JSMap.t AABB;
  collisionResults : list CollisionResult }.

Definition empty : t := mk [] [].

(** [createAABB] *)
Definition createAABB (s : t) (id : string) (x0 y0 w h : R) : t :=
  mk (JSMap.set (bodies s) id (mkAABB x0 y0 w h)) (collisionResults s).

(** [checkAABBCollision] *)
Definition checkAABBCollision (aabb1 aabb2 : AABB) : option AABB :=
  let overlapX :=
    Rmax 0 (Rmin (x aabb1 + width aabb1) (x aabb2 + width aabb2)
            - Rmax (x aabb1) (x aabb2)) in
  let overlapY :=
    Rmax 0 (Rmin (y aabb1 + height aabb1) (y aabb2 + height aabb2)
            - Rmax (y aabb1) (y aabb2)) in
  if Rgt_dec overlapX 0 then
    if Rgt_dec overlapY 0 then
      Some (mkAABB (Rmax (x aabb1) (x aabb2)) (Rmax (y aabb1) (y aabb2))
                   overlapX overlapY)
    else None
  else None.

(** The inner loop of [checkCollisions]: the body at index [i] against the
    bodies at the indices [j > i]. *)
Fixpoint checkAgainst (id1 : string) (body1 : AABB) (rest : JSMap.t AABB)
  : list CollisionResult :=
  match rest with
  | [] => []
  | (id2, body2) :: rest' =>
      match checkAABBCollision body1 body2 with
      | Some o => mkCollisionResult id1 id2 body1 body2 o
                  :: checkAgainst id1 body1 rest'
      | None => checkAgainst id1 body1 rest'
      end
  end.

(** The outer loop of [checkCollisions]. *)
Fixpoint checkAll (entries : JSMap.t AABB) : list CollisionResult :=
  match entries with
  | [] => []
  | (id1, body1) :: rest => checkAgainst id1 body1 rest ++ checkAll rest
  end.

(** [checkCollisions]: the results are stored and returned. *)
Definition checkCollisions (s : t) : t * list CollisionResult :=
  let results := checkAll (bodies s) in
  (mk (bodies s) results, results).

(** [updateBody], [updateBodySize], [getBody], [removeBody].  The source
    assigns the fields of the registered rectangle in place, and the
    results of an earlier [checkCollisions] refer to the same rectangle.
    Here a result carries the rectangles as they were when the check ran;
    of the stored results only the number is read afterwards
    ([getStats]). *)
Definition updateBody (s : t) (id : string) (x0 y0 : R) : t :=
  match JSMap.get (bodies s) id with
  | Some body =>
      mk (JSMap.set (bodies s) id (mkAABB x0 y0 (width body) (height body)))
         (collisionResults s)
  | None => s
  end.

Definition updateBodySize (s : t) (id : string) (w h : R) : t :=
  match JSMap.get (bodies s) id with
  | Some body =>
      mk (JSMap.set (bodies s) id (mkAABB (x body) (y body) w h))
         (collisionResults s)
  | None => s
  end.

Definition getBody (s : t) (id : string) : option AABB :=
  JSMap.get (bodies s) id.

Definition removeBody (s : t) (id : string) : t :=
  mk (JSMap.delete (bodies s) id) (collisionResults s).

(** The states that the methods of the class can produce. *)
Inductive reachable : t -> Prop :=
| reach_empty : reachable empty
| reach_createAABB s id x0 y0 w h :
    reachable s -> reachable (createAABB s id x0 y0 w h)
| reach_updateBody s id x0 y0 :
    reachable s -> reachable (updateBody s id x0 y0)
| reach_updateBodySize s id w h :
    reachable s -> reachable (updateBodySize s id w h)
| reach_removeBody s id :
    reachable s -> reachable (removeBody s id)
| reach_checkCollisions s :
    reachable s -> reachable (fst (checkCollisions s)).

(** [getStats]: [bodyCount] and [collisionCount]. *)
Definition getStats (s : t) : nat * nat :=
  (List.length (bodies s), List.length (collisionResults s)).

(** Two results name the same unordered pair of identifiers. *)
Definition samePair (r r' : CollisionResult) : Prop :=
  (id1 r = id1 r' /\ id2 r = id2 r') \/ (id1 r = id2 r' /\ id2 r = id1 r').

End AkashicCollisionSystem.

(** ** [src/collision/HybridCollisionSystem.ts] *)

Module HybridCollisionSystem.

Inductive ShapeType : Type := box | cylinder | triangular | sphere.

(** References to meshes and to collision objects are addresses in two
    stores.  A [CollisionObject] owns its OBB (created by [OBB.fromMesh] in
    [addObject]); it refers to its mesh. *)
Definition MeshRef : Type := nat.
Definition ObjectRef : Type := nat.

Record CollisionObject : Type := mkCollisionObject {
  id : string;
  mesh : MeshRef;
  obb : OBB.t;
  shapeType : ShapeType }.

Record HybridCollisionResult : Type := mkHybridCollisionResult {
  object1 : ObjectRef;
  object2 : ObjectRef;
  obbResult : OBB.OBBCollisionResult;
  contactPoint : Vector3;
  separatingAxis : Vector3;
  penetrationDepth : R }.

(** The system together with the meshes it refers to.  The debug meshes
    ([debugMeshes], [showDebugOBB]) are presentation state and are left
    out. *)
Record t : Type := mk {
  meshes : MeshRef -> Mesh;
  store : ObjectRef -> option CollisionObject;
  fresh : ObjectRef;
  objects : JSMap.t ObjectRef;
  akashicSystem : AkashicCollisionSystem.t;
  collisionResults : list HybridCollisionResult }.

Definition update {V : Type} (f : nat -> V) (k : nat) (v : V) : nat -> V :=
  fun k' => if Nat.eqb k' k then v else f k'.

(** [new HybridCollisionSystem()] over given meshes. *)
Definition create (ms : MeshRef -> Mesh) : t :=
  mk ms (fun _ => None) 0%nat [] AkashicCollisionSystem.empty [].

(** [addObject] *)
Definition addObject (setFromObject : SetFromObject) (s : t) (id0 : string)
           (m : MeshRef) (shape : ShapeType) : OBB.completion t :=
  let obb0 := OBB.fromMesh (meshes s m) in
  let collisionObject := mkCollisionObject id0 m obb0 shape in
  let ref := fresh s in
  let boundingBox := fst (setFromObject (meshes s m)) in
  let c := getCenter boundingBox in
  let size := getSize boundingBox in
  OBB.Returns
    (mk (update (meshes s) m (snd (setFromObject (meshes s m))))
        (update (store s) ref (Some collisionObject))
        (S ref)
        (JSMap.set (objects s) id0 ref)
        (AkashicCollisionSystem.createAABB (akashicSystem s) id0
           (Three.x c - Three.x size / 2) (Three.z c - Three.z size / 2)
           (Three.x size) (Three.z size))
        (collisionResults s)).

(** The object registered under an identifier. *)
Definition lookup (s : t) (id0 : string) : option CollisionObject :=
  match JSMap.get (objects s) id0 with
  | Some ref => store s ref
  | None => None
  end.

(** [removeObject] *)
Definition removeObject (s : t) (id0 : string) : t :=
  mk (meshes s) (store s) (fresh s) (JSMap.delete (objects s) id0)
     (AkashicCollisionSystem.removeBody (akashicSystem s) id0)
     (collisionResults s).

(** The record that [checkCollisions] and [checkCollisionBetween] build
    from an [obbResult]. *)
Definition record (o1 o2 : ObjectRef) (r : OBB.OBBCollisionResult)
  : HybridCollisionResult :=
  mkHybridCollisionResult o1 o2 r (OBB.contactPoint r) (OBB.separatingAxis r)
                          (OBB.penetrationDepth r).

(** [checkCollisionBetween] *)
Definition checkCollisionBetween (s : t) (ida idb : string)
  : OBB.completion (option HybridCollisionResult) :=
  match JSMap.get (objects s) ida, JSMap.get (objects s) idb with
  | Some r1, Some r2 =>
      match store s r1, store s r2 with
      | Some o1, Some o2 =>
          match AkashicCollisionSystem.getBody (akashicSystem s) ida,
                AkashicCollisionSystem.getBody (akashicSystem s) idb with
          | Some aabb1, Some aabb2 =>
              let overlapX :=
                Rmax 0 (Rmin (AkashicCollisionSystem.x aabb1 + AkashicCollisionSystem.width aabb1)
                             (AkashicCollisionSystem.x aabb2 + AkashicCollisionSystem.width aabb2)
                        - Rmax (AkashicCollisionSystem.x aabb1) (AkashicCollisionSystem.x aabb2)) in
              let overlapZ :=
                Rmax 0 (Rmin (AkashicCollisionSystem.y aabb1 + AkashicCollisionSystem.height aabb1)
                             (AkashicCollisionSystem.y aabb2 + AkashicCollisionSystem.height aabb2)
                        - Rmax (AkashicCollisionSystem.y aabb1) (AkashicCollisionSystem.y aabb2)) in
              if Rle_dec overlapX 0 then OBB.Returns None
              else if Rle_dec overlapZ 0 then OBB.Returns None
              else
                match OBB.intersects (obb o1) (obb o2) with
                | OBB.TypeError => OBB.TypeError
                | OBB.Returns r =>
                    if OBB.isColliding r
                    then OBB.Returns (Some (record r1 r2 r))
                    else OBB.Returns None
                end
          | _, _ => OBB.Returns None
          end
      | _, _ => OBB.Returns None
      end
  | _, _ => OBB.Returns None
  end.

(** [raycast]: the hit that is returned. *)
Record Hit : Type := mkHit {
  object : ObjectRef;
  distance : xreal;
  point : Point3 }.

(** One call of the arrow function passed to [objects.forEach]. *)
Definition raycastStep (s : t) (ray : Ray) (maxDistance : xreal)
           (closestHit : option Hit) (ref : ObjectRef) : option Hit :=
  match store s ref with
  | None => closestHit
  | Some obj =>
      match OBB.intersectsRay (obb obj) ray with
      | Some hit =>
          if xle (OBB.distance hit) maxDistance then
            match closestHit with
            | None => Some (mkHit ref (OBB.distance hit) (OBB.point hit))
            | Some closest =>
                if xlt (OBB.distance hit) (distance closest)
                then Some (mkHit ref (OBB.distance hit) (OBB.point hit))
                else closestHit
            end
          else closestHit
      | None => closestHit
      end
  end.

(** [raycast]; the default of [maxDistance] is [Infinity]. *)
Definition raycast (s : t) (ray : Ray) (maxDistance : xreal) : option Hit :=
  fold_left (raycastStep s ray maxDistance) (map snd (objects s)) None.

(** [mesh.position.sub(v)] and [mesh.position.add(v)] on the mesh store. *)
Definition positionSub (ms : MeshRef -> Mesh) (m : MeshRef) (v : Vector3)
  : MeshRef -> Mesh :=
  update ms m (mkMesh (sub (position (ms m)) v) (matrixWorld (ms m))
                      (boundingBox (ms m))).

Definition positionAdd (ms : MeshRef -> Mesh) (m : MeshRef) (v : Vector3)
  : MeshRef -> Mesh :=
  update ms m (mkMesh (add (position (ms m)) v) (matrixWorld (ms m))
                      (boundingBox (ms m))).

(** [obj.obb.updateFromMesh(obj.mesh)] on the object store. *)
Definition refreshOBB (ms : MeshRef -> Mesh)
           (st : ObjectRef -> option CollisionObject) (ref : ObjectRef)
  : ObjectRef -> option CollisionObject :=
  match st ref with
  | Some obj =>
      update st ref
        (Some (mkCollisionObject (id obj) (mesh obj)
                                 (OBB.fromMesh (ms (mesh obj))) (shapeType obj)))
  | None => st
  end.

(** [resolveCollision]; the default of [strength] is 1.  A record holds
    its two objects themselves, so its references are always in the store;
    for a reference that is not, the model raises. *)
Definition resolveCollision (s : t) (collision : HybridCollisionResult)
           (strength : R) : OBB.completion t :=
  match store s (object1 collision), store s (object2 collision) with
  | Some obj1, Some obj2 =>
      let mass1 := 1 in
      let mass2 := 1 in
      let totalMass := mass1 + mass2 in
      let separationVector :=
        multiplyScalar (OBB.separatingAxis (obbResult collision))
                       (OBB.penetrationDepth (obbResult collision) * strength) in
      let ratio1 := mass2 / totalMass in
      let ratio2 := mass1 / totalMass in
      let ms1 := positionSub (meshes s) (mesh obj1)
                             (multiplyScalar separationVector ratio1) in
      let ms2 := positionAdd ms1 (mesh obj2)
                             (multiplyScalar separationVector ratio2) in
      let st1 := refreshOBB ms2 (store s) (object1 collision) in
      let st2 := refreshOBB ms2 st1 (object2 collision) in
      OBB.Returns (mk ms2 st2 (fresh s) (objects s) (akashicSystem s)
                      (collisionResults s))
  | _, _ => OBB.TypeError
  end.

(** One call of the arrow function of [updateAllObjects]: the OBB is
    recomputed from the mesh, then the world box of the mesh gives the new
    rectangle. *)
Definition updateObject (setFromObject : SetFromObject) (s : t)
           (entry : string * ObjectRef) : t :=
  match store s (snd entry) with
  | None => s
  | Some obj =>
      let st' := refreshOBB (meshes s) (store s) (snd entry) in
      let boundingBox := fst (setFromObject (meshes s (mesh obj))) in
      let c := getCenter boundingBox in
      let size := getSize boundingBox in
      mk (update (meshes s) (mesh obj) (snd (setFromObject (meshes s (mesh obj)))))
         st' (fresh s) (objects s)
         (AkashicCollisionSystem.updateBodySize
            (AkashicCollisionSystem.updateBody (akashicSystem s) (fst entry)
               (Three.x c - Three.x size / 2) (Three.z c - Three.z size / 2))
            (fst entry) (Three.x size) (Three.z size))
         (collisionResults s)
  end.

(** [updateAllObjects] *)
Definition updateAllObjects (setFromObject : SetFromObject) (s : t) : t :=
  fold_left (updateObject setFromObject) (objects s) s.

(** The loop of [checkCollisions] over the pairs of the broad phase; a
    call of [intersects] that raises ends it. *)
Fixpoint preciseLoop (s : t)
         (roughCollisions : list AkashicCollisionSystem.CollisionResult)
         (results : list HybridCollisionResult)
  : OBB.completion (list HybridCollisionResult) :=
  match roughCollisions with
  | [] => OBB.Returns results
  | roughCollision :: rest =>
      match JSMap.get (objects s) (AkashicCollisionSystem.id1 roughCollision),
            JSMap.get (objects s) (AkashicCollisionSystem.id2 roughCollision) with
      | Some r1, Some r2 =>
          match store s r1, store s r2 with
          | Some o1, Some o2 =>
              match OBB.intersects (obb o1) (obb o2) with
              | OBB.TypeError => OBB.TypeError
              | OBB.Returns r =>
                  if OBB.isColliding r
                  then preciseLoop s rest (results ++ [record r1 r2 r])
                  else preciseLoop s rest results
              end
          | _, _ => preciseLoop s rest results
          end
      | _, _ => preciseLoop s rest results
      end
  end.

(** [checkCollisions]: the state afterwards and the list returned. *)
Definition checkCollisions (setFromObject : SetFromObject) (s : t)
  : OBB.completion (t * list HybridCollisionResult) :=
  let s1 := updateAllObjects setFromObject s in
  let rough := AkashicCollisionSystem.checkCollisions (akashicSystem s1) in
  match preciseLoop s1 (snd rough) [] with
  | OBB.TypeError => OBB.TypeError
  | OBB.Returns results =>
      OBB.Returns (mk (meshes s1) (store s1) (fresh s1) (objects s1)
                      (fst rough) results, results)
  end.

(** [findObjectsContainingPoint] *)
Definition findObjectsContainingPoint (s : t) (p : Vector3) : list ObjectRef :=
  fold_left
    (fun results ref =>
       match store s ref with
       | Some obj =>
           if OBB.containsPoint (obb obj) p then results ++ [ref] else results
       | None => results
       end)
    (map snd (objects s)) [].

(** [checkSphereCollisions] *)
Definition checkSphereCollisions (s : t) (c : Vector3) (radius : R)
  : list ObjectRef :=
  fold_left
    (fun results ref =>
       match store s ref with
       | Some obj =>
           let distance := distanceTo (OBB.center (obb obj)) c in
           let obbRadius := length (OBB.halfExtents (obb obj)) in
           if Rlt_dec distance (radius + obbRadius)
           then results ++ [ref] else results
       | None => results
       end)
    (map snd (objects s)) [].

(** [getStats]: it runs the broad phase once more. *)
Record Stats : Type := mkStats {
  objectCount : nat;
  roughCollisionCount : nat;
  preciseCollisionCount : nat;
  performanceRatio : R }.

Definition getStats (s : t) : t * Stats :=
  let rough := AkashicCollisionSystem.checkCollisions (akashicSystem s) in
  let roughCollisions := snd rough in
  let preciseCollisions := collisionResults s in
  (mk (meshes s) (store s) (fresh s) (objects s) (fst rough) (collisionResults s),
   mkStats (List.length (objects s))
           (List.length roughCollisions)
           (List.length preciseCollisions)
           (if Nat.ltb 0 (List.length roughCollisions)
            then INR (List.length preciseCollisions)
                 / INR (List.length roughCollisions)
            else 0)).

(** [reset] *)
Definition reset (s : t) : t :=
  mk (meshes s) (store s) (fresh s) [] AkashicCollisionSystem.empty [].

(** The states that the methods of the class produce from a new system,
    while the meshes move between the calls. *)
Inductive reachable (setFromObject : SetFromObject) : t -> Prop :=
| reach_create ms : reachable setFromObject (create ms)
| reach_addObject s s' id0 m shape :
    reachable setFromObject s ->
    addObject setFromObject s id0 m shape = OBB.Returns s' ->
    reachable setFromObject s'
| reach_removeObject s id0 :
    reachable setFromObject s -> reachable setFromObject (removeObject s id0)
| reach_checkCollisions s s' results :
    reachable setFromObject s ->
    checkCollisions setFromObject s = OBB.Returns (s', results) ->
    reachable setFromObject s'
| reach_resolveCollision s s' collision strength :
    reachable setFromObject s ->
    resolveCollision s collision strength = OBB.Returns s' ->
    reachable setFromObject s'
| reach_getStats s :
    reachable setFromObject s -> reachable setFromObject (fst (getStats s))
| reach_reset s :
    reachable setFromObject s -> reachable setFromObject (reset s)
| reach_meshes s ms :
    reachable setFromObject s ->
    reachable setFromObject
      (mk ms (store s) (fresh s) (objects s) (akashicSystem s)
          (collisionResults s)).

(** What it means for [raycast]: the hit that the OBB of the object behind
    a reference yields within [maxDistance]. *)
Definition candidate (s : t) (ray : Ray) (maxDistance : xreal)
           (ref : ObjectRef) (hit : OBB.RayHit) : Prop :=
  exists obj, store s ref = Some obj /\
              OBB.intersectsRay (obb obj) ray = Some hit /\
              xle (OBB.distance hit) maxDistance = true.

(** Every registered reference has been allocated. *)
Definition wellFormed (s : t) : Prop :=
  forall id0 ref, In (id0, ref) (objects s) -> (ref < fresh s)%nat.

(** The rectangle that [addObject] registers for a mesh: the footprint of
    its world box on the X/Z plane. *)
Definition footprint (worldBox : Box3) : AkashicCollisionSystem.AABB :=
  let c := getCenter worldBox in
  let size := getSize worldBox in
  AkashicCollisionSystem.mkAABB
    (Three.x c - Three.x size / 2) (Three.z c - Three.z size / 2)
    (Three.x size) (Three.z size).

End HybridCollisionSystem.

(** ** [src/collision/ThreeDAkashicCollision.ts]: the simplified tests *)

Module ThreeDAkashicCollision.

Record CollisionBox3D : Type := mkCollisionBox3D {
  id : string;
  center : Vector3;
  size : Vector3;
  rotation : Quaternion;
  mesh : nat }.

Record Collision3DResult : Type := mkCollision3DResult {
  object1 : CollisionBox3D;
  object2 : CollisionBox3D;
  penetration : xreal;
  normal : Vector3;
  contactPoint : Vector3 }.

(** [projectBoxOnAxis]: the pair (min, max). *)
Definition projectBoxOnAxis (b : CollisionBox3D) (axis : Vector3) : R * R :=
  let halfExtents := multiplyScalar (size b) (1 / 2) in
  let centerProjection := dot (center b) axis in
  let extent := Rabs (x halfExtents * x axis) +
                Rabs (y halfExtents * y axis) +
                Rabs (z halfExtents * z axis) in
  (centerProjection - extent, centerProjection + extent).

(** The loop of [checkOBBCollision] over the three world axes: [None] is
    the early [return null]; the state is [minPenetration] (from
    [Infinity]) and [separatingAxis] (from [null]). *)
Fixpoint axisLoop (box1 box2 : CollisionBox3D) (axes : list Vector3)
         (minPenetration : xreal) (separatingAxis : option Vector3)
  : option (xreal * option Vector3) :=
  match axes with
  | [] => Some (minPenetration, separatingAxis)
  | axis :: rest =>
      let projection1 := projectBoxOnAxis box1 axis in
      let projection2 := projectBoxOnAxis box2 axis in
      let overlap := Rmin (snd projection1) (snd projection2)
                     - Rmax (fst projection1) (fst projection2) in
      if Rle_dec overlap 0 then None
      else if xlt (Finite overlap) minPenetration
           then axisLoop box1 box2 rest (Finite overlap) (Some axis)
           else axisLoop box1 box2 rest minPenetration separatingAxis
  end.

(** [checkOBBCollision] *)
Definition checkOBBCollision (box1 box2 : CollisionBox3D)
  : option Collision3DResult :=
  let axes := [mkVector3 1 0 0; mkVector3 0 1 0; mkVector3 0 0 1] in
  match axisLoop box1 box2 axes Infinity None with
  | None => None
  | Some (minPenetration, separatingAxis) =>
      let contactPoint :=
        multiplyScalar (add (center box1) (center box2)) (1 / 2) in
      let centerDifference := sub (center box2) (center box1) in
      let normal :=
        match separatingAxis with
        | Some axis =>
            if Rlt_dec (dot axis centerDifference) 0 then negate axis else axis
        | None => mkVector3 0 1 0
        end in
      Some (mkCollision3DResult box1 box2 minPenetration normal contactPoint)
  end.

(** [checkSphereCollision] *)
Record Sphere : Type := mkSphere { sphereCenter : Vector3; radius : R }.

Record SphereContact : Type := mkSphereContact {
  spherePenetration : R;
  sphereNormal : Vector3;
  sphereContactPoint : Vector3 }.

Definition checkSphereCollision (sphere1 sphere2 : Sphere) : option SphereContact :=
  let distance := distanceTo (sphereCenter sphere1) (sphereCenter sphere2) in
  let radiusSum := radius sphere1 + radius sphere2 in
  if Rlt_dec distance radiusSum then
    let penetration := radiusSum - distance in
    let normal := normalize (sub (sphereCenter sphere2) (sphereCenter sphere1)) in
    let contactPoint :=
      add (sphereCenter sphere1) (multiplyScalar normal (radius sphere1)) in
    Some (mkSphereContact penetration normal contactPoint)
  else None.

(** [isPointInBox] *)
Definition isPointInBox (point : Vector3) (b : CollisionBox3D) : bool :=
  let localPoint := sub point (center b) in
  let halfExtents := multiplyScalar (size b) (1 / 2) in
  if Rle_dec (Rabs (x localPoint)) (x halfExtents) then
    if Rle_dec (Rabs (y localPoint)) (y halfExtents) then
      if Rle_dec (Rabs (z localPoint)) (z halfExtents) then true else false
    else false
  else false.

(** The OBB that stands for a box of the simplified system: the same
    center, half the size, no rotation. *)
Definition toOBB (b : CollisionBox3D) : OBB.t :=
  OBB.mk (center b) (multiplyScalar (size b) (1 / 2)) identity3.

End ThreeDAkashicCollision.

(** ** The separating-axis test, stated declaratively *)

Module SAT.

(** The columns of the orientation are orthonormal. *)
Definition orthonormal (o : OBB.t) : Prop :=
  dot (OBB.axis0 o) (OBB.axis0 o) = 1 /\
  dot (OBB.axis1 o) (OBB.axis1 o) = 1 /\
  dot (OBB.axis2 o) (OBB.axis2 o) = 1 /\
  dot (OBB.axis0 o) (OBB.axis1 o) = 0 /\
  dot (OBB.axis0 o) (OBB.axis2 o) = 0 /\
  dot (OBB.axis1 o) (OBB.axis2 o) = 0.

(** Squared length not below the threshold, and above it. *)
Definition notBelow (v : Vector3) : bool :=
  if Rlt_dec (lengthSq v) OBB.epsilon then false else true.
Definition above (v : Vector3) : bool :=
  if Rgt_dec (lengthSq v) OBB.epsilon then true else false.

(** The nine pairwise cross products (axis of the first box first). *)
Definition crossProducts (a b : OBB.t) : list Vector3 :=
  flat_map (fun a1 => map (cross a1) (OBB.getAxes b)) (OBB.getAxes a).

(** The fifteen candidates. *)
Definition candidateAxes (a b : OBB.t) : list Vector3 :=
  OBB.getAxes a ++ OBB.getAxes b ++ crossProducts a b.

(** The candidates whose squared length is not below the threshold. *)
Definition axesNotBelow (a b : OBB.t) : list Vector3 :=
  filter notBelow (candidateAxes a b).

(** The axes that [intersects] can reach: box axes not below the
    threshold and cross products above it. *)
Definition testedAxes (a b : OBB.t) : list Vector3 :=
  filter notBelow (OBB.getAxes a ++ OBB.getAxes b) ++
  filter above (crossProducts a b).

(** The overlap measured on each axis of a list, after normalizing it. *)
Definition overlaps (a b : OBB.t) (axes : list Vector3) : list R :=
  map (fun v => OBB.overlapOn a b (normalize v)) axes.

Definition isMinimum (m : R) (l : list R) : Prop :=
  In m l /\ forall o, In o l -> m <= o.

(** The plain test on axis-aligned boxes, on the intervals
    [center_i - halfExtent_i, center_i + halfExtent_i]: as in
    [checkAABBCollision], the length of the common part
    [min (max1, max2) - max (min1, min2)] has to be strictly positive, here
    on each of the three world axes. *)
Definition intervalOverlap (c1 h1 c2 h2 : R) : R :=
  Rmin (c1 + h1) (c2 + h2) - Rmax (c1 - h1) (c2 - h2).

Definition aabbOverlap (a b : OBB.t) : Prop :=
  0 < intervalOverlap (x (OBB.center a)) (x (OBB.halfExtents a))
                      (x (OBB.center b)) (x (OBB.halfExtents b)) /\
  0 < intervalOverlap (y (OBB.center a)) (y (OBB.halfExtents a))
                      (y (OBB.center b)) (y (OBB.halfExtents b)) /\
  0 < intervalOverlap (z (OBB.center a)) (z (OBB.halfExtents a))
                      (z (OBB.center b)) (z (OBB.halfExtents b)).

(** The same test in its four-condition form, per axis
    [min1 < max2 && min2 < max1]. *)
Definition aabbOverlapFourConditions (a b : OBB.t) : Prop :=
  (x (OBB.center a) - x (OBB.halfExtents a) < x (OBB.center b) + x (OBB.halfExtents b) /\
   x (OBB.center b) - x (OBB.halfExtents b) < x (OBB.center a) + x (OBB.halfExtents a)) /\
  (y (OBB.center a) - y (OBB.halfExtents a) < y (OBB.center b) + y (OBB.halfExtents b) /\
   y (OBB.center b) - y (OBB.halfExtents b) < y (OBB.center a) + y (OBB.halfExtents a)) /\
  (z (OBB.center a) - z (OBB.halfExtents a) < z (OBB.center b) + z (OBB.halfExtents b) /\
   z (OBB.center b) - z (OBB.halfExtents b) < z (OBB.center a) + z (OBB.halfExtents a)).

Definition positiveExtents (o : OBB.t) : Prop :=
  0 < x (OBB.halfExtents o) /\ 0 < y (OBB.halfExtents o) /\
  0 < z (OBB.halfExtents o).

Definition nonNegativeExtents (o : OBB.t) : Prop :=
  0 <= x (OBB.halfExtents o) /\ 0 <= y (OBB.halfExtents o) /\
  0 <= z (OBB.halfExtents o).

(** A world matrix that is a rotation followed by a translation. *)
Definition rigid (m : Matrix4) : Prop :=
  m3 m = 0 /\ m7 m = 0 /\ m11 m = 0 /\ m15 m = 1 /\
  m0 m * m0 m + m1 m * m1 m + m2 m * m2 m = 1 /\
  m4 m * m4 m + m5 m * m5 m + m6 m * m6 m = 1 /\
  m8 m * m8 m + m9 m * m9 m + m10 m * m10 m = 1 /\
  m0 m * m4 m + m1 m * m5 m + m2 m * m6 m = 0 /\
  m0 m * m8 m + m1 m * m9 m + m2 m * m10 m = 0 /\
  m4 m * m8 m + m5 m * m9 m + m6 m * m10 m = 0.

(** The factor by which [normalize] scales its argument. *)
Definition normFactor (v : Vector3) : R :=
  1 / (if Req_dec_T (length v) 0 then 1 else length v).

(** How the state of the loop of [intersects] after a list of axes relates
    to the state before it. *)
Definition loopPost (a b : OBB.t) (axes : list Vector3)
           (st st' : OBB.loopState) : Prop :=
  match st' with
  | None => st = None /\ filter notBelow axes = []
  | Some (m, ax) =>
      (forall v, In v (filter notBelow axes) ->
                 m <= OBB.overlapOn a b (normalize v)) /\
      (forall m0 ax0, st = Some (m0, ax0) -> m <= m0) /\
      ((exists v, In v (filter notBelow axes) /\ ax = normalize v /\
                  m = OBB.overlapOn a b (normalize v))
       \/ st = Some (m, ax))
  end.

(** The overlap of two axis-aligned boxes along each world axis, with the
    extents as the projection takes them (in absolute value). *)
Definition alignedOverlapX (a b : OBB.t) : R :=
  intervalOverlap (x (OBB.center a)) (Rabs (x (OBB.halfExtents a)))
                  (x (OBB.center b)) (Rabs (x (OBB.halfExtents b))).
Definition alignedOverlapY (a b : OBB.t) : R :=
  intervalOverlap (y (OBB.center a)) (Rabs (y (OBB.halfExtents a)))
                  (y (OBB.center b)) (Rabs (y (OBB.halfExtents b))).
Definition alignedOverlapZ (a b : OBB.t) : R :=
  intervalOverlap (z (OBB.center a)) (Rabs (z (OBB.halfExtents a)))
                  (z (OBB.center b)) (Rabs (z (OBB.halfExtents b))).

End SAT.

(** ** Boxes and rays used as concrete inputs *)

Module Scenario.

(** An axis-aligned box (identity orientation). *)
Definition alignedBox (c h : Vector3) : OBB.t := OBB.mk c h identity3.

(** The box of the scenarios: half-extents (1,1,1), identity orientation. *)
Definition unitBoxAt (cx cy cz : R) : OBB.t :=
  alignedBox (mkVector3 cx cy cz) (mkVector3 1 1 1).

(** A box of zero volume: no extent along its own X axis. *)
Definition flatBox : OBB.t :=
  alignedBox (mkVector3 0 0 0) (mkVector3 0 1 1).

(** A box built with negative half-extents. *)
Definition negativeBox : OBB.t :=
  alignedBox (mkVector3 0 0 0) (mkVector3 (-1) (-1) (-1)).

(** Two long thin boxes whose long axes enclose a tiny angle: the sine of
    the angle is 1/1000, so the cross product of the two long axes has
    squared length 1e-6 exactly.  The first box lies along the world X
    axis, turned about it; the second, 15 above, lies along
    (cos, sin, 0), turned about its own long axis. *)
Definition sinTiny : R := 1 / 1000.
Definition cosTiny : R := sqrt 999999 / 1000.

Definition needleA : OBB.t :=
  OBB.mk (mkVector3 0 0 0) (mkVector3 100000 5 5)
         (mkMatrix3 1 0 0
                    0 (3 / 5) (4 / 5)
                    0 (- (4 / 5)) (3 / 5)).

Definition needleB : OBB.t :=
  OBB.mk (mkVector3 0 0 15) (mkVector3 100000 5 5)
         (mkMatrix3 cosTiny sinTiny 0
                    (- (sinTiny * (4 / 5))) (cosTiny * (4 / 5)) (3 / 5)
                    (sinTiny * (3 / 5)) (- (cosTiny * (3 / 5))) (4 / 5)).

(** Two overlapping rectangles registered one after the other. *)
Definition twoBodies : AkashicCollisionSystem.t :=
  AkashicCollisionSystem.createAABB
    (AkashicCollisionSystem.createAABB AkashicCollisionSystem.empty
       "a" 0 0 2 2)
    "b" 1 1 2 2.

(** The ray of the scenario: from (-5,0,0) along (1,0,0). *)
Definition rayAlongX : Ray := mkRay (mkVector3 (-5) 0 0) (mkVector3 1 0 0).

(** A mesh whose geometry is the cube [-1,1]^3, with a position and a
    cached world matrix. *)
Definition cubeMesh (pos : Vector3) (world : Matrix4) : Mesh :=
  mkMesh pos world (mkBox3 (mkVector3 (-1) (-1) (-1)) (mkVector3 1 1 1)).

(** The cube at the origin. *)
Definition cubeAtOrigin : Mesh :=
  cubeMesh (mkVector3 0 0 0) identity4.

(** The cube moved to (10, 0, 0). *)
Definition cubeAtTen : Mesh :=
  cubeMesh (mkVector3 10 0 0)
           (mkMatrix4 1 0 0 0  0 1 0 0  0 0 1 0  10 0 0 1).

(** What [setFromObject] does for a mesh that is moved only (no rotation,
    no scale, no parent): the world matrix is the translation by the
    position, the box is the box of the geometry moved by the position. *)
Definition translated : SetFromObject :=
  fun m =>
    let p := position m in
    (mkBox3 (add (bmin (boundingBox m)) p) (add (bmax (boundingBox m)) p),
     mkMesh p
            (mkMatrix4 1 0 0 0  0 1 0 0  0 0 1 0  (Three.x p) (Three.y p) (Three.z p) 1)
            (boundingBox m)).

(** Mesh 0 is the cube at the origin, every other mesh the cube at
    (10, 0, 0). *)
Definition twoCubes (m : nat) : Mesh :=
  match m with
  | O => cubeAtOrigin
  | _ => cubeAtTen
  end.

(** The state of a system after a call of [addObject] on a mesh that is
    moved only; a call that raises leaves the state as it was. *)
Definition afterAddObject (s : HybridCollisionSystem.t) (id0 : string)
           (m : nat) (shape : HybridCollisionSystem.ShapeType)
  : HybridCollisionSystem.t :=
  match HybridCollisionSystem.addObject translated s id0 m shape with
  | OBB.Returns s' => s'
  | OBB.TypeError => s
  end.

(** A system with the cube at the origin registered as "cube". *)
Definition singleCube : HybridCollisionSystem.t :=
  afterAddObject (HybridCollisionSystem.create twoCubes) "cube" 0
                 HybridCollisionSystem.box.

(** The cube at the origin registered twice, as "a" and as "b". *)
Definition sharedCube : HybridCollisionSystem.t :=
  afterAddObject
    (afterAddObject (HybridCollisionSystem.create twoCubes) "a" 0
                    HybridCollisionSystem.box)
    "b" 0 HybridCollisionSystem.box.

(** A collision record for the two objects of [sharedCube]: depth 2 along
    the world X axis. *)
Definition sharedCubeRecord : HybridCollisionSystem.HybridCollisionResult :=
  HybridCollisionSystem.record 0%nat 1%nat
    (OBB.mkResult true 2 (mkVector3 1 0 0) (mkVector3 1 0 0)).

(** The cube moved to (1.5, 0, 0), and a store where mesh 0 is the cube at
    the origin and every other mesh this one. *)
Definition cubeNear : Mesh :=
  cubeMesh (mkVector3 (3 / 2) 0 0)
           (mkMatrix4 1 0 0 0  0 1 0 0  0 0 1 0  (3 / 2) 0 0 1).

Definition nearCubes (m : nat) : Mesh :=
  match m with
  | O => cubeAtOrigin
  | _ => cubeNear
  end.

(** The two overlapping cubes registered as "a" and "b", and a record of
    their collision: depth 0.5 along the world X axis. *)
Definition overlappingCubes : HybridCollisionSystem.t :=
  afterAddObject
    (afterAddObject (HybridCollisionSystem.create nearCubes) "a" 0
                    HybridCollisionSystem.box)
    "b" 1 HybridCollisionSystem.box.

Definition overlappingCubesRecord : HybridCollisionSystem.HybridCollisionResult :=
  HybridCollisionSystem.record 0%nat 1%nat
    (OBB.mkResult true (1 / 2) (mkVector3 1 0 0) (mkVector3 1 0 0)).

End Scenario.

(** ** Axis-aligned boxes and the width of a projection *)

Module Box.

(** An orientation whose entries are 0, 1 or -1.  With orthonormal columns
    it is a signed permutation matrix: the box is aligned with the world
    axes.  These are the orientations whose columns are orthonormal in
    binary64 without any rounding. *)
Definition signedUnitEntries (m : Matrix3) : Prop :=
  Forall (fun e => e = 0 \/ e = 1 \/ e = -1)
         [e0 m; e1 m; e2 m; e3 m; e4 m; e5 m; e6 m; e7 m; e8 m].

Definition axisAligned (o : OBB.t) : Prop :=
  SAT.orthonormal o /\ signedUnitEntries (OBB.orientation o).

(** The width [max - min] of the interval that [projectOnAxis] returns. *)
Definition width (o : OBB.t) (axis : Vector3) : R :=
  snd (OBB.projectOnAxis o axis) - fst (OBB.projectOnAxis o axis).

End Box.

Set Warnings "-inexact-float".

(** ** [src/collision/OBB.ts] on binary64 numbers

    The separating-axis test once more, on the numbers the program has:
    IEEE 754 binary64, every operation rounded to nearest, in the order in
    which three.js and [OBB.ts] write them.  It is used where a claim rests
    on arithmetic being exact. *)

Module Binary64.

Local Open Scope float_scope.

Record Vector3 : Type := mkVector3 { x : float; y : float; z : float }.

Definition isNaN (a : float) : bool := negb (a =? a).

(** [Math.min] and [Math.max] of two numbers: NaN if either is NaN, and
    -0 counts as smaller than +0. *)
Definition min (a b : float) : float :=
  if isNaN a || isNaN b then nan
  else if a <? b then a
  else if b <? a then b
  else if PrimFloat.get_sign a then a else b.

Definition max (a b : float) : float :=
  if isNaN a || isNaN b then nan
  else if a <? b then b
  else if b <? a then a
  else if PrimFloat.get_sign a then b else a.

(** [Vector3] of three.js *)
Definition dot (a b : Vector3) : float := x a * x b + y a * y b + z a * z b.
Definition lengthSq (a : Vector3) : float := x a * x a + y a * y a + z a * z a.
Definition length (a : Vector3) : float := PrimFloat.sqrt (lengthSq a).
Definition multiplyScalar (a : Vector3) (s : float) : Vector3 :=
  mkVector3 (x a * s) (y a * s) (z a * s).
Definition divideScalar (a : Vector3) (s : float) : Vector3 :=
  multiplyScalar a (1 / s).

(** [divideScalar (length () || 1)]: zero and NaN count as false. *)
Definition normalize (a : Vector3) : Vector3 :=
  let l := length a in
  divideScalar a (if (l =? 0) || isNaN l then 1 else l).

Definition add (a b : Vector3) : Vector3 :=
  mkVector3 (x a + x b) (y a + y b) (z a + z b).
Definition sub (a b : Vector3) : Vector3 :=
  mkVector3 (x a - x b) (y a - y b) (z a - z b).
Definition negate (a : Vector3) : Vector3 :=
  mkVector3 (- x a) (- y a) (- z a).
Definition cross (a b : Vector3) : Vector3 :=
  mkVector3 (y a * z b - z a * y b)
            (z a * x b - x a * z b)
            (x a * y b - y a * x b).

Record Matrix3 : Type := mkMatrix3 {
  e0 : float; e1 : float; e2 : float;
  e3 : float; e4 : float; e5 : float;
  e6 : float; e7 : float; e8 : float }.

Definition applyMatrix3 (v : Vector3) (m : Matrix3) : Vector3 :=
  mkVector3 (e0 m * x v + e3 m * y v + e6 m * z v)
            (e1 m * x v + e4 m * y v + e7 m * z v)
            (e2 m * x v + e5 m * y v + e8 m * z v).

Record t : Type := mk {
  center : Vector3;
  halfExtents : Vector3;
  orientation : Matrix3 }.

Record OBBCollisionResult : Type := mkResult {
  isColliding : bool;
  penetrationDepth : float;
  separatingAxis : Vector3;
  contactPoint : Vector3 }.

(** [getAxes] *)
Definition getAxes (b : t) : list Vector3 :=
  [ applyMatrix3 (mkVector3 1 0 0) (orientation b);
    applyMatrix3 (mkVector3 0 1 0) (orientation b);
    applyMatrix3 (mkVector3 0 0 1) (orientation b) ].

Definition axis0 (b : t) : Vector3 := applyMatrix3 (mkVector3 1 0 0) (orientation b).
Definition axis1 (b : t) : Vector3 := applyMatrix3 (mkVector3 0 1 0) (orientation b).
Definition axis2 (b : t) : Vector3 := applyMatrix3 (mkVector3 0 0 1) (orientation b).

(** [projectOnAxis]: the pair (min, max). *)
Definition projectOnAxis (b : t) (axis : Vector3) : float * float :=
  let centerProjection := dot (center b) axis in
  let extent :=
    PrimFloat.abs (dot (axis0 b) axis * x (halfExtents b)) +
    PrimFloat.abs (dot (axis1 b) axis * y (halfExtents b)) +
    PrimFloat.abs (dot (axis2 b) axis * z (halfExtents b)) in
  (centerProjection - extent, centerProjection + extent).

(** The literal [1e-6]. *)
Definition epsilon : float := 1e-6.

(** [getCrossProductAxes] *)
Definition getCrossProductAxes (axes1 axes2 : list Vector3) : list Vector3 :=
  flat_map (fun a1 =>
    flat_map (fun a2 =>
      let c := cross a1 a2 in
      if epsilon <? lengthSq c then [c] else []) axes2) axes1.

(** The loop of [intersects]: [inl] is the early return; otherwise the
    final [minPenetration] (from [Infinity]) and [separatingAxis] (from
    [null]). *)
Fixpoint satLoop (a b : t) (axes : list Vector3)
         (minPenetration : float) (separatingAxis : option Vector3)
  : Vector3 + (float * option Vector3) :=
  match axes with
  | [] => inr (minPenetration, separatingAxis)
  | axis :: rest =>
      if lengthSq axis <? epsilon
      then satLoop a b rest minPenetration separatingAxis
      else
        let axis' := normalize axis in
        let projection1 := projectOnAxis a axis' in
        let projection2 := projectOnAxis b axis' in
        let overlap := min (snd projection1) (snd projection2)
                       - max (fst projection1) (fst projection2) in
        if overlap <=? 0 then inl axis'
        else if overlap <? minPenetration
             then satLoop a b rest overlap (Some axis')
             else satLoop a b rest minPenetration separatingAxis
  end.

(** [calculateContactPoint] *)
Definition calculateContactPoint (a b : t) (separatingAxis : Vector3) : Vector3 :=
  let thisProjection := projectOnAxis a separatingAxis in
  let otherProjection := projectOnAxis b separatingAxis in
  if snd thisProjection <? snd otherProjection
  then add (center a)
           (multiplyScalar separatingAxis
              (snd thisProjection - dot (center a) separatingAxis))
  else add (center b)
           (multiplyScalar separatingAxis
              (snd otherProjection - dot (center b) separatingAxis)).

(** [intersects]; a [separatingAxis] that is still [null] after the loop
    makes [calculateContactPoint] raise. *)
Definition intersects (a b : t) : OBB.completion OBBCollisionResult :=
  let axes1 := getAxes a in
  let axes2 := getAxes b in
  let allAxes := axes1 ++ axes2 ++ getCrossProductAxes axes1 axes2 in
  match satLoop a b allAxes infinity None with
  | inl axis => OBB.Returns (mkResult false 0 axis (mkVector3 0 0 0))
  | inr (_, None) => OBB.TypeError
  | inr (minPenetration, Some separatingAxis) =>
      let contactPoint := calculateContactPoint a b separatingAxis in
      let centerDifference := sub (center b) (center a) in
      let separatingAxis' :=
        if dot separatingAxis centerDifference <? 0
        then negate separatingAxis else separatingAxis in
      OBB.Returns (mkResult true minPenetration separatingAxis' contactPoint)
  end.


Definition identity3 : Matrix3 := mkMatrix3 1 0 0 0 1 0 0 0 1.

(** A box of zero thickness along its own Y axis, turned by the rotation
    whose entries are sevenths (as binary64 has them), and the
    axis-aligned box of half-extent 5 around it. *)
Definition flatTilted : t :=
  mk (mkVector3 0 0 0) (mkVector3 1 0 1)
     (mkMatrix3 (2 / 7) (3 / 7) (6 / 7)
                (3 / 7) (- (6 / 7)) (2 / 7)
                (6 / 7) (2 / 7) (- (3 / 7))).

Definition box5 : t :=
  mk (mkVector3 0 0 0) (mkVector3 5 5 5) identity3.



End Binary64.

(** ** The slabs of [intersectsRay], stated declaratively *)

Module Slab.

(** The ray counts as parallel to the axis [i] of the box. *)
Definition parallelTo (b : OBB.t) (ray : Ray) (i : nat) : Prop :=
  Rabs (dot (direction ray) (nth i (OBB.getAxes b) (mkVector3 0 0 0)))
  < OBB.epsilon.

(** The parameters at which the ray enters and leaves the slab of the
    axis [i]. *)
Definition tNear (b : OBB.t) (ray : Ray) (i : nat) : R :=
  let axis := nth i (OBB.getAxes b) (mkVector3 0 0 0) in
  let rayDotAxis := dot (direction ray) axis in
  let centerDotAxis := dot (sub (OBB.center b) (origin ray)) axis in
  let halfExtent := getComponent (OBB.halfExtents b) i in
  Rmin ((centerDotAxis - halfExtent) / rayDotAxis)
       ((centerDotAxis + halfExtent) / rayDotAxis).

Definition tFar (b : OBB.t) (ray : Ray) (i : nat) : R :=
  let axis := nth i (OBB.getAxes b) (mkVector3 0 0 0) in
  let rayDotAxis := dot (direction ray) axis in
  let centerDotAxis := dot (sub (OBB.center b) (origin ray)) axis in
  let halfExtent := getComponent (OBB.halfExtents b) i in
  Rmax ((centerDotAxis - halfExtent) / rayDotAxis)
       ((centerDotAxis + halfExtent) / rayDotAxis).

(** The point of the ray at the parameter [t]. *)
Definition at_ (ray : Ray) (t : R) : Vector3 :=
  add (origin ray) (multiplyScalar (direction ray) t).

End Slab.

(** ** More concrete inputs *)

Module Inputs.

(** A box whose orientation has collapsed to the zero matrix. *)
Definition collapsedBox : OBB.t :=
  OBB.mk (mkVector3 0 0 0) (mkVector3 1 1 1) (mkMatrix3 0 0 0 0 0 0 0 0 0).

(** The second needle of the scenario moved down to height 14, where it
    touches the first one along the cross product of the two long axes. *)
Definition needleTouching : OBB.t :=
  OBB.mk (mkVector3 0 0 14) (mkVector3 100000 5 5)
         (mkMatrix3 Scenario.cosTiny Scenario.sinTiny 0
                    (- (Scenario.sinTiny * (4 / 5))) (Scenario.cosTiny * (4 / 5)) (3 / 5)
                    (Scenario.sinTiny * (3 / 5)) (- (Scenario.cosTiny * (3 / 5))) (4 / 5)).

(** The flat box of [Binary64.flatTilted] with its entries as exact
    sevenths. *)
Definition flatTilted : OBB.t :=
  OBB.mk (mkVector3 0 0 0) (mkVector3 1 0 1)
         (mkMatrix3 (2 / 7) (3 / 7) (6 / 7)
                    (3 / 7) (- (6 / 7)) (2 / 7)
                    (6 / 7) (2 / 7) (- (3 / 7))).

End Inputs.

(** ** The pipeline of [HybridCollisionSystem], stated declaratively *)

Module Pipeline.

(** The registry of a system is consistent: the objects and the rectangles
    are registered under the same identifiers in the same order, no
    identifier and no object occurs twice, and every registered reference
    leads to an object that carries the identifier it is registered
    under. *)
Definition consistent (s : HybridCollisionSystem.t) : Prop :=
  JSMap.keys (HybridCollisionSystem.objects s)
  = JSMap.keys (AkashicCollisionSystem.bodies (HybridCollisionSystem.akashicSystem s)) /\
  NoDup (JSMap.keys (HybridCollisionSystem.objects s)) /\
  NoDup (map snd (HybridCollisionSystem.objects s)) /\
  forall id0 ref, In (id0, ref) (HybridCollisionSystem.objects s) ->
    (ref < HybridCollisionSystem.fresh s)%nat /\
    exists obj, HybridCollisionSystem.store s ref = Some obj /\
                HybridCollisionSystem.id obj = id0.

(** A list picked out of another one, in order: each element is linked to
    the element it comes from. *)
Inductive selected {A B : Type} (link : A -> B -> Prop)
  : list A -> list B -> Prop :=
| selected_nil : selected link [] []
| selected_skip a l l' : selected link l l' -> selected link (a :: l) l'
| selected_take a b l l' :
    link a b -> selected link l l' -> selected link (a :: l) (b :: l').

(** A record as the precise phase builds it for the objects registered
    under two identifiers. *)
Definition reportedFor (s : HybridCollisionSystem.t) (ida idb : string)
           (c : HybridCollisionSystem.HybridCollisionResult) : Prop :=
  exists o1 o2,
    JSMap.get (HybridCollisionSystem.objects s) ida
    = Some (HybridCollisionSystem.object1 c) /\
    JSMap.get (HybridCollisionSystem.objects s) idb
    = Some (HybridCollisionSystem.object2 c) /\
    HybridCollisionSystem.store s (HybridCollisionSystem.object1 c) = Some o1 /\
    HybridCollisionSystem.store s (HybridCollisionSystem.object2 c) = Some o2 /\
    OBB.intersects (HybridCollisionSystem.obb o1) (HybridCollisionSystem.obb o2)
    = OBB.Returns (HybridCollisionSystem.obbResult c) /\
    OBB.isColliding (HybridCollisionSystem.obbResult c) = true /\
    c = HybridCollisionSystem.record (HybridCollisionSystem.object1 c)
          (HybridCollisionSystem.object2 c) (HybridCollisionSystem.obbResult c).

(** A record of the precise phase comes from a pair of the broad phase. *)
Definition fromRough (s : HybridCollisionSystem.t)
           (rc : AkashicCollisionSystem.CollisionResult)
           (c : HybridCollisionSystem.HybridCollisionResult) : Prop :=
  reportedFor s (AkashicCollisionSystem.id1 rc) (AkashicCollisionSystem.id2 rc) c.

(** Two records are about the same unordered pair of objects. *)
Definition sameObjects (c c' : HybridCollisionSystem.HybridCollisionResult) : Prop :=
  (HybridCollisionSystem.object1 c = HybridCollisionSystem.object1 c' /\
   HybridCollisionSystem.object2 c = HybridCollisionSystem.object2 c') \/
  (HybridCollisionSystem.object1 c = HybridCollisionSystem.object2 c' /\
   HybridCollisionSystem.object2 c = HybridCollisionSystem.object1 c').

(** Every mesh of the store is placed by a rotation and a translation, and
    [setFromObject] keeps it so. *)
Definition rigidMeshes (setFromObject : SetFromObject)
           (s : HybridCollisionSystem.t) : Prop :=
  (forall m, SAT.rigid (matrixWorld (HybridCollisionSystem.meshes s m))) /\
  (forall mesh, SAT.rigid (matrixWorld mesh) ->
                SAT.rigid (matrixWorld (snd (setFromObject mesh)))).

(** The OBB of the object behind a reference, if there is one, has an
    orthonormal orientation and half-extents that are not negative. *)
Definition soundAt (s : HybridCollisionSystem.t) (ref : nat) : Prop :=
  forall obj, HybridCollisionSystem.store s ref = Some obj ->
              SAT.orthonormal (HybridCollisionSystem.obb obj) /\
              SAT.nonNegativeExtents (HybridCollisionSystem.obb obj).

End Pipeline.

(** * Properties *)

(** ** Vectors *)

Section VectorFacts.

Lemma lengthSq_nonneg (v : Vector3) : 0 <= lengthSq v.
Proof. unfold lengthSq. nra. Qed.

Lemma dot_comm (a b : Vector3) : dot a b = dot b a.
Proof. unfold dot. ring. Qed.

Lemma dot_multiplyScalar_r (a v : Vector3) (k : R) :
  dot a (multiplyScalar v k) = k * dot a v.
Proof. unfold dot, multiplyScalar; simpl. ring. Qed.

Lemma dot_negate_r (a v : Vector3) : dot a (negate v) = - dot a v.
Proof. unfold dot, negate; simpl. ring. Qed.

Lemma lengthSq_negate (v : Vector3) : lengthSq (negate v) = lengthSq v.
Proof. unfold lengthSq, negate; simpl. ring. Qed.

Lemma cross_antisym (a b : Vector3) : cross b a = negate (cross a b).
Proof. unfold cross, negate; simpl. f_equal; ring. Qed.

Lemma negate_multiplyScalar (v : Vector3) (k : R) :
  negate (multiplyScalar v k) = multiplyScalar (negate v) k.
Proof. unfold negate, multiplyScalar; simpl. f_equal; ring. Qed.

Lemma multiplyScalar_one (v : Vector3) : multiplyScalar v 1 = v.
Proof. destruct v; unfold multiplyScalar; simpl. f_equal; ring. Qed.

Lemma normalize_factor (v : Vector3) :
  normalize v = multiplyScalar v (SAT.normFactor v).
Proof. reflexivity. Qed.

Lemma normFactor_pos (v : Vector3) : 0 < SAT.normFactor v.
Proof.
  unfold SAT.normFactor.
  destruct (Req_dec_T (length v) 0) as [E | N].
  - lra.
  - assert (0 <= length v) by (unfold length; apply sqrt_pos).
    apply Rdiv_lt_0_compat; lra.
Qed.

Lemma normFactor_negate (v : Vector3) : SAT.normFactor (negate v) = SAT.normFactor v.
Proof. unfold SAT.normFactor, length. now rewrite lengthSq_negate. Qed.

Lemma normalize_negate (v : Vector3) :
  normalize (negate v) = negate (normalize v).
Proof.
  rewrite !normalize_factor, normFactor_negate.
  now rewrite negate_multiplyScalar.
Qed.

Lemma normalize_unit (v : Vector3) : lengthSq v = 1 -> normalize v = v.
Proof.
  intros H. rewrite normalize_factor. unfold SAT.normFactor, length.
  rewrite H, sqrt_1.
  destruct (Req_dec_T 1 0) as [E | _]; [lra |].
  replace (1 / 1) with 1 by field. apply multiplyScalar_one.
Qed.

End VectorFacts.

(** ** Projections and overlaps *)

Lemma Rmin_scale (k u v : R) : 0 <= k -> Rmin (k * u) (k * v) = k * Rmin u v.
Proof.
  intros Hk. unfold Rmin.
  destruct (Rle_dec (k * u) (k * v)), (Rle_dec u v); nra.
Qed.

Lemma Rmax_scale (k u v : R) : 0 <= k -> Rmax (k * u) (k * v) = k * Rmax u v.
Proof.
  intros Hk. unfold Rmax.
  destruct (Rle_dec (k * u) (k * v)), (Rle_dec u v); nra.
Qed.

Lemma Rmin_opp (u v : R) : Rmin (- u) (- v) = - Rmax u v.
Proof.
  unfold Rmin, Rmax. destruct (Rle_dec (- u) (- v)), (Rle_dec u v); lra.
Qed.

Lemma Rmax_opp (u v : R) : Rmax (- u) (- v) = - Rmin u v.
Proof.
  unfold Rmin, Rmax. destruct (Rle_dec (- u) (- v)), (Rle_dec u v); lra.
Qed.

Section ProjectionFacts.

Variables a b : OBB.t.

Lemma projectOnAxis_scale (o : OBB.t) (v : Vector3) (k : R) :
  0 <= k ->
  OBB.projectOnAxis o (multiplyScalar v k) =
  (k * fst (OBB.projectOnAxis o v), k * snd (OBB.projectOnAxis o v)).
Proof.
  intros Hk. unfold OBB.projectOnAxis; simpl.
  rewrite !dot_multiplyScalar_r.
  replace (k * dot (OBB.axis0 o) v * x (OBB.halfExtents o))
    with (k * (dot (OBB.axis0 o) v * x (OBB.halfExtents o))) by ring.
  replace (k * dot (OBB.axis1 o) v * y (OBB.halfExtents o))
    with (k * (dot (OBB.axis1 o) v * y (OBB.halfExtents o))) by ring.
  replace (k * dot (OBB.axis2 o) v * z (OBB.halfExtents o))
    with (k * (dot (OBB.axis2 o) v * z (OBB.halfExtents o))) by ring.
  rewrite !Rabs_mult, (Rabs_pos_eq k Hk).
  f_equal; ring.
Qed.

Lemma projectOnAxis_negate (o : OBB.t) (v : Vector3) :
  OBB.projectOnAxis o (negate v) =
  (- snd (OBB.projectOnAxis o v), - fst (OBB.projectOnAxis o v)).
Proof.
  unfold OBB.projectOnAxis; simpl.
  rewrite !dot_negate_r.
  replace (- dot (OBB.axis0 o) v * x (OBB.halfExtents o))
    with (- (dot (OBB.axis0 o) v * x (OBB.halfExtents o))) by ring.
  replace (- dot (OBB.axis1 o) v * y (OBB.halfExtents o))
    with (- (dot (OBB.axis1 o) v * y (OBB.halfExtents o))) by ring.
  replace (- dot (OBB.axis2 o) v * z (OBB.halfExtents o))
    with (- (dot (OBB.axis2 o) v * z (OBB.halfExtents o))) by ring.
  rewrite !Rabs_Ropp. f_equal; ring.
Qed.

Lemma overlapOn_scale (v : Vector3) (k : R) :
  0 <= k -> OBB.overlapOn a b (multiplyScalar v k) = k * OBB.overlapOn a b v.
Proof.
  intros Hk. unfold OBB.overlapOn.
  rewrite !projectOnAxis_scale by assumption. simpl.
  rewrite Rmax_scale, Rmin_scale by assumption. ring.
Qed.

Lemma overlapOn_negate (v : Vector3) :
  OBB.overlapOn a b (negate v) = OBB.overlapOn a b v.
Proof.
  unfold OBB.overlapOn. rewrite !projectOnAxis_negate. simpl.
  rewrite Rmin_opp, Rmax_opp. ring.
Qed.

Lemma overlapOn_normalize_sign (v : Vector3) :
  OBB.overlapOn a b (normalize v) = SAT.normFactor v * OBB.overlapOn a b v.
Proof.
  rewrite normalize_factor. apply overlapOn_scale.
  left. apply normFactor_pos.
Qed.

End ProjectionFacts.

Lemma overlapOn_swap (a b : OBB.t) (v : Vector3) :
  OBB.overlapOn b a v = OBB.overlapOn a b v.
Proof.
  unfold OBB.overlapOn. now rewrite Rmin_comm, Rmax_comm.
Qed.

(** ** The loop of [intersects] *)

Lemma filter_notBelow_skip (v : Vector3) (rest : list Vector3) :
  lengthSq v < OBB.epsilon ->
  filter SAT.notBelow (v :: rest) = filter SAT.notBelow rest.
Proof.
  intros H. simpl. unfold SAT.notBelow at 1.
  destruct (Rlt_dec (lengthSq v) OBB.epsilon); [reflexivity | contradiction].
Qed.

Lemma filter_notBelow_keep (v : Vector3) (rest : list Vector3) :
  ~ lengthSq v < OBB.epsilon ->
  filter SAT.notBelow (v :: rest) = v :: filter SAT.notBelow rest.
Proof.
  intros H. simpl. unfold SAT.notBelow at 1.
  destruct (Rlt_dec (lengthSq v) OBB.epsilon); [contradiction | reflexivity].
Qed.

Section LoopFacts.

Variables a b : OBB.t.

Let ov (v : Vector3) : R := OBB.overlapOn a b (normalize v).

Lemma satLoop_separated (axes : list Vector3) (st : OBB.loopState) (ax : Vector3) :
  OBB.satLoop a b axes st = inl ax ->
  exists v, In v (filter SAT.notBelow axes) /\ ax = normalize v /\ ov v <= 0.
Proof.
  revert st. induction axes as [| v rest IH]; intros st H; simpl in H.
  - discriminate.
  - destruct (Rlt_dec (lengthSq v) OBB.epsilon) as [Hs | Hs].
    + rewrite filter_notBelow_skip by assumption. eapply IH; eassumption.
    + rewrite filter_notBelow_keep by assumption.
      destruct (Rle_dec (OBB.overlapOn a b (normalize v)) 0) as [Ho | Ho].
      * inversion H; subst. exists v. split; [left; reflexivity | split; auto].
      * assert (exists st1, OBB.satLoop a b rest st1 = inl ax) as [st1 H1].
        { destruct st as [[m0 ax0] |].
          - destruct (Rlt_dec (OBB.overlapOn a b (normalize v)) m0); eauto.
          - eauto. }
        apply IH in H1. destruct H1 as (w & Hin & Hw).
        exists w. split; [right; exact Hin | exact Hw].
Qed.

(** One more tested axis in front of a loop that has run to its end. *)
Lemma loopPost_step (v : Vector3) (rest : list Vector3)
      (st st1 st' : OBB.loopState) :
  ~ lengthSq v < OBB.epsilon ->
  (st1 = Some (ov v, normalize v) /\
     (forall m0 ax0, st = Some (m0, ax0) -> ov v < m0)
   \/ st1 = st /\ exists m0 ax0, st = Some (m0, ax0) /\ m0 <= ov v) ->
  SAT.loopPost a b rest st1 st' ->
  SAT.loopPost a b (v :: rest) st st'.
Proof.
  intros Hs Hst1 Hq. unfold SAT.loopPost, ov in *.
  rewrite filter_notBelow_keep by assumption.
  destruct st' as [[m ax] |].
  - destruct Hq as (Hlow & Hst & Hwit).
    destruct Hst1 as [[E Hlt] | [E (m0 & ax0 & E0 & Hle)]]; subst st1.
    + assert (Hm : m <= OBB.overlapOn a b (normalize v)) by (apply (Hst _ _ eq_refl)).
      split; [intros w [E | Hin]; [subst; exact Hm | auto] |].
      split; [intros m1 ax1 E; specialize (Hlt _ _ E); lra |].
      left. destruct Hwit as [(w & Hin & Hw) | E].
      * exists w. split; [right; exact Hin | exact Hw].
      * inversion E; subst. exists v.
        split; [left; reflexivity | split; reflexivity].
    + subst st. assert (Hm : m <= m0) by (apply (Hst _ _ eq_refl)).
      split; [intros w [E | Hin]; [subst; lra | auto] |].
      split; [intros m1 ax1 E; inversion E; subst; lra |].
      destruct Hwit as [(w & Hin & Hw) | E].
      * left. exists w. split; [right; exact Hin | exact Hw].
      * right. exact E.
  - destruct Hq as [E _].
    destruct Hst1 as [[E1 _] | [E1 (m0 & ax0 & E0 & _)]]; congruence.
Qed.

Lemma satLoop_finished (axes : list Vector3) (st st' : OBB.loopState) :
  OBB.satLoop a b axes st = inr st' ->
  (forall v, In v (filter SAT.notBelow axes) -> 0 < ov v) /\
  SAT.loopPost a b axes st st'.
Proof.
  revert st. induction axes as [| v rest IH]; intros st H; simpl in H.
  - inversion H; subst. split; [intros ? [] |].
    unfold SAT.loopPost. destruct st' as [[m ax] |]; simpl.
    + split; [intros ? [] |]. split; [| right; reflexivity].
      intros m0 ax0 E. inversion E. lra.
    + split; reflexivity.
  - destruct (Rlt_dec (lengthSq v) OBB.epsilon) as [Hs | Hs].
    + apply IH in H. destruct H as [Hp Hq].
      unfold SAT.loopPost. rewrite filter_notBelow_skip by assumption.
      split; assumption.
    + destruct (Rle_dec (OBB.overlapOn a b (normalize v)) 0) as [Ho | Ho];
        [discriminate |].
      assert (Hpos : 0 < ov v) by (unfold ov; lra).
      assert (Hall : forall st1, OBB.satLoop a b rest st1 = inr st' ->
                forall w, In w (filter SAT.notBelow (v :: rest)) -> 0 < ov w).
      { intros st1 H1 w. rewrite filter_notBelow_keep by assumption.
        intros [E | Hin]; [subst; exact Hpos |].
        apply IH in H1. destruct H1 as [Hp _]. auto. }
      destruct st as [[m0 ax0] |].
      * destruct (Rlt_dec (OBB.overlapOn a b (normalize v)) m0) as [Hlt | Hge].
        -- split; [eapply Hall; eassumption |].
           apply IH in H. destruct H as [_ Hq].
           eapply loopPost_step; [assumption | | exact Hq].
           left. split; [reflexivity |].
           intros m1 ax1 E. inversion E; subst. exact Hlt.
        -- split; [eapply Hall; eassumption |].
           apply IH in H. destruct H as [_ Hq].
           eapply loopPost_step; [assumption | | exact Hq].
           right. split; [reflexivity |].
           exists m0, ax0. split; [reflexivity | unfold ov; lra].
      * split; [eapply Hall; eassumption |].
        apply IH in H. destruct H as [_ Hq].
        eapply loopPost_step; [assumption | | exact Hq].
        left. split; [reflexivity |]. intros m1 ax1 E. discriminate.
Qed.

End LoopFacts.

(** ** The axes that [intersects] tests *)

Lemma above_notBelow (v : Vector3) : SAT.above v = true -> SAT.notBelow v = true.
Proof.
  unfold SAT.above, SAT.notBelow.
  destruct (Rgt_dec (lengthSq v) OBB.epsilon), (Rlt_dec (lengthSq v) OBB.epsilon);
    intros; try reflexivity; try discriminate; lra.
Qed.

Lemma filter_notBelow_above (l : list Vector3) :
  filter SAT.notBelow (filter SAT.above l) = filter SAT.above l.
Proof.
  induction l as [| v l IH]; simpl; [reflexivity |].
  destruct (SAT.above v) eqn:E; simpl; [| exact IH].
  rewrite (above_notBelow v E). now rewrite IH.
Qed.

Lemma getCrossProductAxes_filter (l1 l2 : list Vector3) :
  OBB.getCrossProductAxes l1 l2 =
  filter SAT.above (flat_map (fun a1 => map (cross a1) l2) l1).
Proof.
  unfold OBB.getCrossProductAxes.
  induction l1 as [| a1 l1 IH]; simpl; [reflexivity |].
  rewrite filter_app, IH. f_equal.
  clear IH. induction l2 as [| a2 l2 IH2]; simpl; [reflexivity |].
  unfold SAT.above at 1.
  destruct (Rgt_dec (lengthSq (cross a1 a2)) OBB.epsilon); simpl; now rewrite IH2.
Qed.

Lemma tested_allAxes (a b : OBB.t) :
  filter SAT.notBelow (OBB.allAxes a b) = SAT.testedAxes a b.
Proof.
  unfold OBB.allAxes, SAT.testedAxes, SAT.crossProducts.
  rewrite getCrossProductAxes_filter.
  rewrite app_assoc, filter_app, filter_notBelow_above. reflexivity.
Qed.

Lemma In_overlaps (a b : OBB.t) (l : list Vector3) (o : R) :
  In o (SAT.overlaps a b l) <->
  exists v, In v l /\ o = OBB.overlapOn a b (normalize v).
Proof.
  unfold SAT.overlaps. rewrite in_map_iff.
  split; intros (v & H1 & H2); exists v; auto.
Qed.

(** What [intersects] returns, in terms of the tested axes. *)
Lemma intersects_cases (a b : OBB.t) :
  match OBB.intersects a b with
  | OBB.Returns r =>
      if OBB.isColliding r
      then (forall v, In v (SAT.testedAxes a b) ->
                      0 < OBB.overlapOn a b (normalize v)) /\
           SAT.isMinimum (OBB.penetrationDepth r)
                         (SAT.overlaps a b (SAT.testedAxes a b))
      else (exists v, In v (SAT.testedAxes a b) /\
                      OBB.overlapOn a b (normalize v) <= 0) /\
           OBB.penetrationDepth r = 0
  | OBB.TypeError => SAT.testedAxes a b = []
  end.
Proof.
  unfold OBB.intersects.
  destruct (OBB.satLoop a b (OBB.allAxes a b) None) as [ax | st] eqn:E.
  - apply satLoop_separated in E. rewrite tested_allAxes in E.
    destruct E as (v & Hin & _ & Hle). simpl. split; [eauto | reflexivity].
  - apply satLoop_finished in E. rewrite tested_allAxes in E.
    destruct E as [Hpos Hpost]. unfold SAT.loopPost in Hpost.
    rewrite tested_allAxes in Hpost.
    destruct st as [[m ax] |]; simpl.
    + split; [exact Hpos |].
      destruct Hpost as (Hlow & _ & Hwit). split.
      * destruct Hwit as [(v & Hin & _ & Hm) | Habs]; [| discriminate].
        apply In_overlaps. eauto.
      * intros o Ho. apply In_overlaps in Ho. destruct Ho as (v & Hin & ->).
        auto.
    + tauto.
Qed.

(** ** Orthonormal orientations *)

Section Orthonormal.

Variable o : OBB.t.
Hypothesis Ho : SAT.orthonormal o.

Lemma lengthSq_dot (v : Vector3) : lengthSq v = dot v v.
Proof. reflexivity. Qed.

Lemma epsilon_lt_1 : OBB.epsilon < 1.
Proof. unfold OBB.epsilon. lra. Qed.

Lemma orthonormal_axis0 : lengthSq (OBB.axis0 o) = 1.
Proof. rewrite lengthSq_dot. apply Ho. Qed.

Lemma orthonormal_axis1 : lengthSq (OBB.axis1 o) = 1.
Proof. rewrite lengthSq_dot. apply Ho. Qed.

Lemma orthonormal_axis2 : lengthSq (OBB.axis2 o) = 1.
Proof. rewrite lengthSq_dot. apply Ho. Qed.

Lemma unit_notBelow (v : Vector3) : lengthSq v = 1 -> SAT.notBelow v = true.
Proof.
  intros H. unfold SAT.notBelow.
  destruct (Rlt_dec (lengthSq v) OBB.epsilon) as [Hlt | _]; [| reflexivity].
  pose proof epsilon_lt_1. lra.
Qed.

Lemma orthonormal_axes_tested : filter SAT.notBelow (OBB.getAxes o) = OBB.getAxes o.
Proof.
  unfold OBB.getAxes. simpl.
  fold (OBB.axis0 o) (OBB.axis1 o) (OBB.axis2 o).
  rewrite (unit_notBelow _ orthonormal_axis0),
          (unit_notBelow _ orthonormal_axis1),
          (unit_notBelow _ orthonormal_axis2).
  reflexivity.
Qed.

(** The projection of a box on one of its own axes. *)
Lemma project_own_axis0 :
  OBB.projectOnAxis o (OBB.axis0 o) =
  (dot (OBB.center o) (OBB.axis0 o) - Rabs (x (OBB.halfExtents o)),
   dot (OBB.center o) (OBB.axis0 o) + Rabs (x (OBB.halfExtents o))).
Proof.
  destruct Ho as (H00 & H11 & H22 & H01 & H02 & H12).
  unfold OBB.projectOnAxis.
  rewrite H00, (dot_comm (OBB.axis1 o)), H01, (dot_comm (OBB.axis2 o)), H02.
  rewrite !Rmult_0_l, Rabs_R0, Rmult_1_l. f_equal; ring.
Qed.

Lemma project_own_axis1 :
  OBB.projectOnAxis o (OBB.axis1 o) =
  (dot (OBB.center o) (OBB.axis1 o) - Rabs (y (OBB.halfExtents o)),
   dot (OBB.center o) (OBB.axis1 o) + Rabs (y (OBB.halfExtents o))).
Proof.
  destruct Ho as (H00 & H11 & H22 & H01 & H02 & H12).
  unfold OBB.projectOnAxis.
  rewrite H11, H01, (dot_comm (OBB.axis2 o)), H12.
  rewrite !Rmult_0_l, Rabs_R0, Rmult_1_l. f_equal; ring.
Qed.

Lemma project_own_axis2 :
  OBB.projectOnAxis o (OBB.axis2 o) =
  (dot (OBB.center o) (OBB.axis2 o) - Rabs (z (OBB.halfExtents o)),
   dot (OBB.center o) (OBB.axis2 o) + Rabs (z (OBB.halfExtents o))).
Proof.
  destruct Ho as (H00 & H11 & H22 & H01 & H02 & H12).
  unfold OBB.projectOnAxis.
  rewrite H22, H02, H12.
  rewrite !Rmult_0_l, Rabs_R0, Rmult_1_l. f_equal; ring.
Qed.

End Orthonormal.

Lemma axis0_tested_l (a b : OBB.t) :
  SAT.orthonormal a -> In (OBB.axis0 a) (SAT.testedAxes a b).
Proof.
  intros Ha. unfold SAT.testedAxes.
  rewrite filter_app, (orthonormal_axes_tested a Ha).
  apply in_or_app. left. apply in_or_app. left. left. reflexivity.
Qed.

Lemma axes_tested_l (a b : OBB.t) (v : Vector3) :
  SAT.orthonormal a -> In v (OBB.getAxes a) -> In v (SAT.testedAxes a b).
Proof.
  intros Ha Hin. unfold SAT.testedAxes.
  rewrite filter_app, (orthonormal_axes_tested a Ha).
  apply in_or_app. left. apply in_or_app. left. exact Hin.
Qed.

Lemma axes_tested_r (a b : OBB.t) (v : Vector3) :
  SAT.orthonormal b -> In v (OBB.getAxes b) -> In v (SAT.testedAxes a b).
Proof.
  intros Hb Hin. unfold SAT.testedAxes.
  rewrite filter_app, (orthonormal_axes_tested b Hb).
  apply in_or_app. left. apply in_or_app. right. exact Hin.
Qed.

(** With an orthonormal first box the loop tests at least one axis, so the
    call returns. *)
Lemma intersects_returns (a b : OBB.t) :
  SAT.orthonormal a -> exists r, OBB.intersects a b = OBB.Returns r.
Proof.
  intros Ha. pose proof (intersects_cases a b) as H.
  destruct (OBB.intersects a b) as [r |]; [eauto |].
  pose proof (axis0_tested_l a b Ha) as Hin. rewrite H in Hin. destruct Hin.
Qed.

(** ** Degenerate boxes *)

(** On an axis where the first box projects to a single point the overlap
    is never positive. *)
Lemma overlap_point_interval (p lo hi : R) : Rmin p hi - Rmax p lo <= 0.
Proof.
  pose proof (Rmin_l p hi). pose proof (Rmax_l p lo). lra.
Qed.

Lemma overlap_le_width_l (lo1 hi1 lo2 hi2 : R) :
  Rmin hi1 hi2 - Rmax lo1 lo2 <= hi1 - lo1.
Proof.
  pose proof (Rmin_l hi1 hi2). pose proof (Rmax_l lo1 lo2). lra.
Qed.


(** The overlap on an own axis of either box is at most the width of that
    box along the axis. *)
Lemma overlap_axis0_l (a b : OBB.t) :
  SAT.orthonormal a ->
  OBB.overlapOn a b (OBB.axis0 a) <= 2 * Rabs (x (OBB.halfExtents a)).
Proof.
  intros Ha. unfold OBB.overlapOn. rewrite (project_own_axis0 a Ha). simpl.
  eapply Rle_trans; [apply overlap_le_width_l | lra].
Qed.

Lemma overlap_axis1_l (a b : OBB.t) :
  SAT.orthonormal a ->
  OBB.overlapOn a b (OBB.axis1 a) <= 2 * Rabs (y (OBB.halfExtents a)).
Proof.
  intros Ha. unfold OBB.overlapOn. rewrite (project_own_axis1 a Ha). simpl.
  eapply Rle_trans; [apply overlap_le_width_l | lra].
Qed.

Lemma overlap_axis2_l (a b : OBB.t) :
  SAT.orthonormal a ->
  OBB.overlapOn a b (OBB.axis2 a) <= 2 * Rabs (z (OBB.halfExtents a)).
Proof.
  intros Ha. unfold OBB.overlapOn. rewrite (project_own_axis2 a Ha). simpl.
  eapply Rle_trans; [apply overlap_le_width_l | lra].
Qed.

Lemma In_axis0 (o : OBB.t) : In (OBB.axis0 o) (OBB.getAxes o).
Proof. left. reflexivity. Qed.
Lemma In_axis1 (o : OBB.t) : In (OBB.axis1 o) (OBB.getAxes o).
Proof. right. left. reflexivity. Qed.
Lemma In_axis2 (o : OBB.t) : In (OBB.axis2 o) (OBB.getAxes o).
Proof. right. right. left. reflexivity. Qed.



Lemma identity_orthonormal (o : OBB.t) :
  OBB.orientation o = identity3 -> SAT.orthonormal o.
Proof.
  intros H. unfold SAT.orthonormal, OBB.axis0, OBB.axis1, OBB.axis2.
  rewrite H. unfold dot, applyMatrix3, identity3; simpl.
  repeat split; ring.
Qed.

Lemma touching_axis_separates (a b : OBB.t) (v : Vector3) :
  In v (SAT.testedAxes a b) ->
  OBB.overlapOn a b (normalize v) <= 0 ->
  exists r, OBB.intersects a b = OBB.Returns r /\ OBB.isColliding r = false.
Proof.
  intros Hv Hle. pose proof (intersects_cases a b) as C.
  destruct (OBB.intersects a b) as [r |].
  - exists r. split; [reflexivity |].
    destruct (OBB.isColliding r); [| reflexivity].
    destruct C as [Hpos _]. specialize (Hpos _ Hv). lra.
  - rewrite C in Hv. destruct Hv.
Qed.

Lemma identity_axisAligned (o : OBB.t) :
  OBB.orientation o = identity3 -> Box.axisAligned o.
Proof.
  intros H. split; [now apply identity_orthonormal |].
  unfold Box.signedUnitEntries. rewrite H. unfold identity3; simpl.
  repeat constructor; lra.
Qed.

(** C4 (as amended).  A box whose projection on an axis tested by
    [intersects] is a single point never reports a collision, whatever the
    other box is.  In particular a box with a half-extent equal to zero
    and an orientation aligned with the world axes (orthonormal columns
    with entries 0, 1 and -1) never does: its projection on its own axis
    of zero extent is a single point, and that axis is tested. *)
Theorem zero_extent_box_never_collides (a b : OBB.t) :
  (forall v, In v (SAT.testedAxes a b) ->
     fst (OBB.projectOnAxis a (normalize v)) =
       snd (OBB.projectOnAxis a (normalize v)) ->
     exists r, OBB.intersects a b = OBB.Returns r /\ OBB.isColliding r = false) /\
  (Box.axisAligned a ->
   x (OBB.halfExtents a) = 0 \/ y (OBB.halfExtents a) = 0 \/
   z (OBB.halfExtents a) = 0 ->
   exists r, OBB.intersects a b = OBB.Returns r /\ OBB.isColliding r = false).
Proof.
  split.
  - intros v Hv Hpt. apply (touching_axis_separates a b v Hv).
    unfold OBB.overlapOn. rewrite <- Hpt. apply overlap_point_interval.
  - intros [Ha _] Hz.
    destruct Hz as [Hz | [Hz | Hz]].
    + apply (touching_axis_separates a b (OBB.axis0 a)
               (axes_tested_l a b _ Ha (In_axis0 a))).
      rewrite (normalize_unit _ (orthonormal_axis0 a Ha)).
      pose proof (overlap_axis0_l a b Ha) as Hle.
      rewrite Hz, Rabs_R0 in Hle. lra.
    + apply (touching_axis_separates a b (OBB.axis1 a)
               (axes_tested_l a b _ Ha (In_axis1 a))).
      rewrite (normalize_unit _ (orthonormal_axis1 a Ha)).
      pose proof (overlap_axis1_l a b Ha) as Hle.
      rewrite Hz, Rabs_R0 in Hle. lra.
    + apply (touching_axis_separates a b (OBB.axis2 a)
               (axes_tested_l a b _ Ha (In_axis2 a))).
      rewrite (normalize_unit _ (orthonormal_axis2 a Ha)).
      pose proof (overlap_axis2_l a b Ha) as Hle.
      rewrite Hz, Rabs_R0 in Hle. lra.
Qed.

(** The flat box against the unit box that surrounds it. *)
Lemma zero_extent_box_never_collides_witness :
  exists r, OBB.intersects Scenario.flatBox (Scenario.unitBoxAt 0 0 0) = OBB.Returns r /\
            OBB.isColliding r = false.
Proof.
  apply (proj2 (zero_extent_box_never_collides Scenario.flatBox
                  (Scenario.unitBoxAt 0 0 0))).
  - apply identity_axisAligned. reflexivity.
  - left. reflexivity.
Defined.

Lemma flatTilted_orthonormal : SAT.orthonormal Inputs.flatTilted.
Proof.
  unfold SAT.orthonormal, OBB.axis0, OBB.axis1, OBB.axis2, dot, applyMatrix3;
    simpl.
  repeat split; field.
Qed.

(** C4, the claim as stated fails for a rotated box.  The flat box has
    half-extent 0 along its own Y axis and its orientation is a rotation
    whose entries are sevenths.  In binary64 the three columns are no longer exactly
    perpendicular: the extent of the box along its own Y axis comes out as
    a rounding residue above zero, every other axis overlaps as well, and
    [intersects] reports a collision with the box of half-extent 5 around
    it, with a depth of about 8e-17. *)
Lemma zero_extent_claim_fails_in_binary64 :
  SAT.orthonormal Inputs.flatTilted /\
  y (OBB.halfExtents Inputs.flatTilted) = 0 /\
  Binary64.y (Binary64.halfExtents Binary64.flatTilted) = 0%float /\
  exists r, Binary64.intersects Binary64.flatTilted Binary64.box5 = OBB.Returns r /\
            Binary64.isColliding r = true /\
            (0 <? Binary64.penetrationDepth r)%float = true /\
            (Binary64.penetrationDepth r <? 1e-16)%float = true.
Proof.
  split; [exact flatTilted_orthonormal |].
  split; [reflexivity |]. split; [reflexivity |].
  eexists. split; [vm_compute; reflexivity |].
  repeat split; vm_compute; reflexivity.
Qed.




(** ** Axis-aligned boxes *)

Lemma vector_ext (u v : Vector3) :
  x u = x v -> y u = y v -> z u = z v -> u = v.
Proof. destruct u, v; simpl; intros; subst; reflexivity. Qed.

Section Aligned.

Variables a b : OBB.t.
Hypothesis Ia : OBB.orientation a = identity3.
Hypothesis Ib : OBB.orientation b = identity3.

Lemma aligned_axes_eq :
  OBB.axis0 b = OBB.axis0 a /\ OBB.axis1 b = OBB.axis1 a /\
  OBB.axis2 b = OBB.axis2 a.
Proof. unfold OBB.axis0, OBB.axis1, OBB.axis2. rewrite Ia, Ib. auto. Qed.

Lemma aligned_axes_coords :
  OBB.axis0 a = mkVector3 1 0 0 /\ OBB.axis1 a = mkVector3 0 1 0 /\
  OBB.axis2 a = mkVector3 0 0 1.
Proof.
  unfold OBB.axis0, OBB.axis1, OBB.axis2. rewrite Ia.
  repeat split; apply vector_ext; simpl; ring.
Qed.

Lemma aligned_overlap_axis0 : OBB.overlapOn a b (OBB.axis0 a) = (SAT.alignedOverlapX a b).
Proof.
  pose proof (identity_orthonormal a Ia) as Ha.
  pose proof (identity_orthonormal b Ib) as Hb.
  destruct aligned_axes_eq as (E0 & _ & _).
  pose proof (project_own_axis0 b Hb) as Pb. rewrite E0 in Pb.
  unfold OBB.overlapOn. rewrite (project_own_axis0 a Ha), Pb. simpl.
  destruct aligned_axes_coords as (-> & _ & _).
  unfold SAT.alignedOverlapX, SAT.intervalOverlap, dot; simpl.
  f_equal; [f_equal | f_equal]; ring.
Qed.

Lemma aligned_overlap_axis1 : OBB.overlapOn a b (OBB.axis1 a) = (SAT.alignedOverlapY a b).
Proof.
  pose proof (identity_orthonormal a Ia) as Ha.
  pose proof (identity_orthonormal b Ib) as Hb.
  destruct aligned_axes_eq as (_ & E1 & _).
  pose proof (project_own_axis1 b Hb) as Pb. rewrite E1 in Pb.
  unfold OBB.overlapOn. rewrite (project_own_axis1 a Ha), Pb. simpl.
  destruct aligned_axes_coords as (_ & -> & _).
  unfold SAT.alignedOverlapY, SAT.intervalOverlap, dot; simpl.
  f_equal; [f_equal | f_equal]; ring.
Qed.

Lemma aligned_overlap_axis2 : OBB.overlapOn a b (OBB.axis2 a) = (SAT.alignedOverlapZ a b).
Proof.
  pose proof (identity_orthonormal a Ia) as Ha.
  pose proof (identity_orthonormal b Ib) as Hb.
  destruct aligned_axes_eq as (_ & _ & E2).
  pose proof (project_own_axis2 b Hb) as Pb. rewrite E2 in Pb.
  unfold OBB.overlapOn. rewrite (project_own_axis2 a Ha), Pb. simpl.
  destruct aligned_axes_coords as (_ & _ & ->).
  unfold SAT.alignedOverlapZ, SAT.intervalOverlap, dot; simpl.
  f_equal; [f_equal | f_equal]; ring.
Qed.

(** Every cross product of two world axes is zero or a world axis, up to
    sign. *)
Lemma aligned_cross (v : Vector3) :
  In v (SAT.crossProducts a b) ->
  lengthSq v = 0 \/
  exists k, In k (OBB.getAxes a) /\ (v = k \/ v = negate k).
Proof.
  unfold SAT.crossProducts, OBB.getAxes.
  fold (OBB.axis0 a) (OBB.axis1 a) (OBB.axis2 a).
  fold (OBB.axis0 b) (OBB.axis1 b) (OBB.axis2 b).
  destruct aligned_axes_eq as (-> & -> & ->).
  destruct aligned_axes_coords as (E0 & E1 & E2).
  simpl.
  intros [H | [H | [H | [H | [H | [H | [H | [H | [H | []]]]]]]]]]; subst v.
  - left. rewrite E0. unfold lengthSq, cross; simpl. ring.
  - right. exists (OBB.axis2 a). split; [auto |]. left.
    rewrite E0, E1, E2. apply vector_ext; simpl; ring.
  - right. exists (OBB.axis1 a). split; [auto |]. right.
    rewrite E0, E1, E2. apply vector_ext; simpl; ring.
  - right. exists (OBB.axis2 a). split; [auto |]. right.
    rewrite E0, E1, E2. apply vector_ext; simpl; ring.
  - left. rewrite E1. unfold lengthSq, cross; simpl. ring.
  - right. exists (OBB.axis0 a). split; [auto |]. left.
    rewrite E0, E1, E2. apply vector_ext; simpl; ring.
  - right. exists (OBB.axis1 a). split; [auto |]. left.
    rewrite E0, E1, E2. apply vector_ext; simpl; ring.
  - right. exists (OBB.axis0 a). split; [auto |]. right.
    rewrite E0, E1, E2. apply vector_ext; simpl; ring.
  - left. rewrite E2. unfold lengthSq, cross; simpl. ring.
Qed.

Lemma aligned_axis_overlap (k : Vector3) :
  In k (OBB.getAxes a) ->
  OBB.overlapOn a b (normalize k) = (SAT.alignedOverlapX a b) \/
  OBB.overlapOn a b (normalize k) = (SAT.alignedOverlapY a b) \/
  OBB.overlapOn a b (normalize k) = (SAT.alignedOverlapZ a b).
Proof.
  pose proof (identity_orthonormal a Ia) as Ha.
  intros [E | [E | [E | []]]]; subst k.
  - left. fold (OBB.axis0 a).
    rewrite (normalize_unit _ (orthonormal_axis0 a Ha)). apply aligned_overlap_axis0.
  - right. left. fold (OBB.axis1 a).
    rewrite (normalize_unit _ (orthonormal_axis1 a Ha)). apply aligned_overlap_axis1.
  - right. right. fold (OBB.axis2 a).
    rewrite (normalize_unit _ (orthonormal_axis2 a Ha)). apply aligned_overlap_axis2.
Qed.

Lemma aligned_getAxes_eq : OBB.getAxes b = OBB.getAxes a.
Proof. unfold OBB.getAxes. now rewrite Ia, Ib. Qed.

(** On every tested axis the overlap is one of the three world-axis
    overlaps. *)
Lemma aligned_tested_overlap (v : Vector3) :
  In v (SAT.testedAxes a b) ->
  OBB.overlapOn a b (normalize v) = (SAT.alignedOverlapX a b) \/
  OBB.overlapOn a b (normalize v) = (SAT.alignedOverlapY a b) \/
  OBB.overlapOn a b (normalize v) = (SAT.alignedOverlapZ a b).
Proof.
  unfold SAT.testedAxes. intros H. apply in_app_or in H. destruct H as [H | H].
  - apply filter_In in H. destruct H as [H _].
    apply in_app_or in H. rewrite aligned_getAxes_eq in H.
    apply aligned_axis_overlap. tauto.
  - apply filter_In in H. destruct H as [H Habove].
    apply aligned_cross in H. destruct H as [H0 | (k & Hk & [E | E])].
    + unfold SAT.above in Habove. rewrite H0 in Habove.
      destruct (Rgt_dec 0 OBB.epsilon) as [Hgt | _]; [| discriminate].
      unfold OBB.epsilon in Hgt. lra.
    + subst v. now apply aligned_axis_overlap.
    + subst v. rewrite normalize_negate, overlapOn_negate.
      now apply aligned_axis_overlap.
Qed.

(** What [intersects] returns for two axis-aligned boxes. *)
Lemma aligned_intersects :
  exists r, OBB.intersects a b = OBB.Returns r /\
    (OBB.isColliding r = true <->
       0 < (SAT.alignedOverlapX a b) /\ 0 < (SAT.alignedOverlapY a b) /\ 0 < (SAT.alignedOverlapZ a b)) /\
    (OBB.isColliding r = true ->
       OBB.penetrationDepth r =
       Rmin (SAT.alignedOverlapX a b) (Rmin (SAT.alignedOverlapY a b) (SAT.alignedOverlapZ a b))) /\
    (OBB.isColliding r = false -> OBB.penetrationDepth r = 0).
Proof.
  pose proof (identity_orthonormal a Ia) as Ha.
  destruct (intersects_returns a b Ha) as [r Hr].
  exists r. split; [exact Hr |].
  pose proof (intersects_cases a b) as H. rewrite Hr in H.
  pose proof (axes_tested_l a b _ Ha (In_axis0 a)) as T0.
  pose proof (axes_tested_l a b _ Ha (In_axis1 a)) as T1.
  pose proof (axes_tested_l a b _ Ha (In_axis2 a)) as T2.
  pose proof (normalize_unit _ (orthonormal_axis0 a Ha)) as N0.
  pose proof (normalize_unit _ (orthonormal_axis1 a Ha)) as N1.
  pose proof (normalize_unit _ (orthonormal_axis2 a Ha)) as N2.
  destruct (OBB.isColliding r) eqn:Hc.
  - destruct H as [Hpos [Hin Hmin]].
    assert (P0 := Hpos _ T0). assert (P1 := Hpos _ T1). assert (P2 := Hpos _ T2).
    rewrite N0, aligned_overlap_axis0 in P0.
    rewrite N1, aligned_overlap_axis1 in P1.
    rewrite N2, aligned_overlap_axis2 in P2.
    split; [tauto |]. split; [| discriminate]. intros _.
    assert (L0 : OBB.penetrationDepth r <= (SAT.alignedOverlapX a b)).
    { rewrite <- aligned_overlap_axis0, <- N0. apply Hmin, In_overlaps. eauto. }
    assert (L1 : OBB.penetrationDepth r <= (SAT.alignedOverlapY a b)).
    { rewrite <- aligned_overlap_axis1, <- N1. apply Hmin, In_overlaps. eauto. }
    assert (L2 : OBB.penetrationDepth r <= (SAT.alignedOverlapZ a b)).
    { rewrite <- aligned_overlap_axis2, <- N2. apply Hmin, In_overlaps. eauto. }
    apply In_overlaps in Hin. destruct Hin as (v & Hv & Ev).
    apply aligned_tested_overlap in Hv. rewrite <- Ev in Hv.
    unfold Rmin.
    destruct (Rle_dec (SAT.alignedOverlapY a b) (SAT.alignedOverlapZ a b));
      destruct (Rle_dec (SAT.alignedOverlapX a b) (SAT.alignedOverlapY a b));
      destruct (Rle_dec (SAT.alignedOverlapX a b) (SAT.alignedOverlapZ a b)); lra.
  - destruct H as [(v & Hv & Hle) H0].
    split; [| split; [discriminate | auto]].
    split; [discriminate |]. intros (P0 & P1 & P2).
    apply aligned_tested_overlap in Hv. lra.
Qed.

End Aligned.

(** Case analysis on every [Rmin], [Rmax] and [Rabs] of the goal. *)
Ltac minmax_cases :=
  unfold Rabs;
  repeat match goal with
         | |- context [Rcase_abs ?u] => destruct (Rcase_abs u)
         end;
  unfold Rmin, Rmax;
  repeat match goal with
         | |- context [Rle_dec ?u ?v] =>
             lazymatch u with
             | context [Rle_dec _ _] => fail
             | _ => lazymatch v with
                    | context [Rle_dec _ _] => fail
                    | _ => destruct (Rle_dec u v)
                    end
             end
         end.

(** For boxes of positive extents the four-condition form of the plain
    test is the same test. *)
Lemma aabbOverlap_four_conditions (a b : OBB.t) :
  SAT.positiveExtents a -> SAT.positiveExtents b ->
  (SAT.aabbOverlap a b <-> SAT.aabbOverlapFourConditions a b).
Proof.
  intros (Ax & Ay & Az) (Bx & By & Bz).
  unfold SAT.aabbOverlap, SAT.aabbOverlapFourConditions, SAT.intervalOverlap.
  split.
  - intros (Hx & Hy & Hz). revert Hx Hy Hz. minmax_cases; lra.
  - intros ((Hx1 & Hx2) & (Hy1 & Hy2) & (Hz1 & Hz2)).
    repeat split; minmax_cases; lra.
Qed.

(** C6 (as amended).  For two boxes with identity orientation and
    non-negative half-extents, [intersects] reports a collision exactly
    when the plain axis-aligned test on the intervals
    [center_i - halfExtent_i, center_i + halfExtent_i] finds a common part
    of strictly positive length on all three world axes; when the
    half-extents are strictly positive this is the four-condition test as
    well. *)
Theorem aligned_intersects_agrees_with_aabb (a b : OBB.t) :
  OBB.orientation a = identity3 -> OBB.orientation b = identity3 ->
  SAT.nonNegativeExtents a -> SAT.nonNegativeExtents b ->
  exists r, OBB.intersects a b = OBB.Returns r /\
            (OBB.isColliding r = true <-> SAT.aabbOverlap a b) /\
            (SAT.positiveExtents a -> SAT.positiveExtents b ->
             (OBB.isColliding r = true <-> SAT.aabbOverlapFourConditions a b)).
Proof.
  intros Ia Ib (Ax & Ay & Az) (Bx & By & Bz).
  destruct (aligned_intersects a b Ia Ib) as (r & Hr & Hiff & _).
  exists r. split; [exact Hr |].
  assert (H : OBB.isColliding r = true <-> SAT.aabbOverlap a b).
  { rewrite Hiff.
    unfold SAT.aabbOverlap, SAT.alignedOverlapX, SAT.alignedOverlapY,
      SAT.alignedOverlapZ.
    rewrite !Rabs_pos_eq by assumption. reflexivity. }
  split; [exact H |]. intros Pa Pb.
  rewrite H. now apply aabbOverlap_four_conditions.
Qed.

Lemma aligned_intersects_agrees_with_aabb_witness :
  exists r, OBB.intersects (Scenario.unitBoxAt 0 0 0) (Scenario.unitBoxAt (3/2) 0 0)
            = OBB.Returns r /\
            (OBB.isColliding r = true <->
             SAT.aabbOverlap (Scenario.unitBoxAt 0 0 0) (Scenario.unitBoxAt (3/2) 0 0)) /\
            (SAT.positiveExtents (Scenario.unitBoxAt 0 0 0) ->
             SAT.positiveExtents (Scenario.unitBoxAt (3/2) 0 0) ->
             (OBB.isColliding r = true <->
              SAT.aabbOverlapFourConditions (Scenario.unitBoxAt 0 0 0)
                                            (Scenario.unitBoxAt (3/2) 0 0))).
Proof.
  apply (aligned_intersects_agrees_with_aabb
           (Scenario.unitBoxAt 0 0 0) (Scenario.unitBoxAt (3/2) 0 0)).
  - reflexivity.
  - reflexivity.
  - unfold SAT.nonNegativeExtents; simpl. lra.
  - unfold SAT.nonNegativeExtents; simpl. lra.
Defined.

Lemma Rmin_eq_l (u v : R) : u <= v -> Rmin u v = u.
Proof. intros H. unfold Rmin. destruct (Rle_dec u v); lra. Qed.

Lemma Rmin_eq_r (u v : R) : v <= u -> Rmin u v = v.
Proof. intros H. unfold Rmin. destruct (Rle_dec u v); lra. Qed.

Lemma Rmax_eq_l (u v : R) : v <= u -> Rmax u v = u.
Proof. intros H. unfold Rmax. destruct (Rle_dec u v); lra. Qed.

Lemma Rmax_eq_r (u v : R) : u <= v -> Rmax u v = v.
Proof. intros H. unfold Rmax. destruct (Rle_dec u v); lra. Qed.

(** C6, the claim as stated fails.  A box built with half-extents
    (-1,-1,-1) and the unit box, both at the origin with identity
    orientation: the projection takes the extents in absolute value, so
    [intersects] reports a collision, while the intervals
    [center - halfExtent, center + halfExtent] of the first box run from 1
    down to -1 and the plain test finds no overlap, in either of its
    forms.  And for the flat box (half-extents (0,1,1)) inside the unit
    box [intersects] reports no collision, while the four-condition form
    of the plain test finds an overlap. *)
Lemma aligned_claim_fails_for_degenerate_extents :
  (OBB.orientation Scenario.negativeBox = identity3 /\
   OBB.orientation (Scenario.unitBoxAt 0 0 0) = identity3 /\
   (exists r, OBB.intersects Scenario.negativeBox (Scenario.unitBoxAt 0 0 0)
              = OBB.Returns r /\ OBB.isColliding r = true) /\
   ~ SAT.aabbOverlap Scenario.negativeBox (Scenario.unitBoxAt 0 0 0) /\
   ~ SAT.aabbOverlapFourConditions Scenario.negativeBox (Scenario.unitBoxAt 0 0 0))
  /\
  (OBB.orientation Scenario.flatBox = identity3 /\
   (exists r, OBB.intersects Scenario.flatBox (Scenario.unitBoxAt 0 0 0)
              = OBB.Returns r /\ OBB.isColliding r = false) /\
   SAT.aabbOverlapFourConditions Scenario.flatBox (Scenario.unitBoxAt 0 0 0)).
Proof.
  split.
  - split; [reflexivity |]. split; [reflexivity |]. split.
    + destruct (aligned_intersects Scenario.negativeBox (Scenario.unitBoxAt 0 0 0)
                  eq_refl eq_refl) as (r & Hr & Hiff & _).
      exists r. split; [exact Hr |]. apply Hiff.
      unfold SAT.alignedOverlapX, SAT.alignedOverlapY, SAT.alignedOverlapZ,
        SAT.intervalOverlap; simpl.
      repeat split; minmax_cases; lra.
    + split.
      * unfold SAT.aabbOverlap, SAT.intervalOverlap; simpl.
        intros [H _]. revert H. minmax_cases; lra.
      * unfold SAT.aabbOverlapFourConditions; simpl. lra.
  - split; [reflexivity |]. split.
    + destruct (aligned_intersects Scenario.flatBox (Scenario.unitBoxAt 0 0 0)
                  eq_refl eq_refl) as (r & Hr & Hiff & _).
      exists r. split; [exact Hr |].
      destruct (OBB.isColliding r); [exfalso | reflexivity].
      destruct Hiff as [Hiff _]. destruct (Hiff eq_refl) as [Hx _].
      revert Hx. unfold SAT.alignedOverlapX, SAT.intervalOverlap; simpl.
      minmax_cases; lra.
    + unfold SAT.aabbOverlapFourConditions; simpl. lra.
Qed.

(** With an extent equal to zero the two forms differ: the flat box inside
    the unit box passes the four conditions, while the length of the
    common part along X is zero. *)
Example flat_box_four_conditions :
  SAT.aabbOverlapFourConditions Scenario.flatBox (Scenario.unitBoxAt 0 0 0) /\
  ~ SAT.aabbOverlap Scenario.flatBox (Scenario.unitBoxAt 0 0 0).
Proof.
  split.
  - unfold SAT.aabbOverlapFourConditions; simpl. lra.
  - unfold SAT.aabbOverlap, SAT.intervalOverlap; simpl.
    intros [H _]. revert H. minmax_cases; lra.
Qed.

(** The scenarios of the specification for axis-aligned unit boxes: the
    second box at (1.5, 0, 0) collides with depth 0.5, at (3, 0, 0) it does
    not. *)
Example scenario_overlapping_boxes :
  exists r, OBB.intersects (Scenario.unitBoxAt 0 0 0) (Scenario.unitBoxAt (3/2) 0 0)
            = OBB.Returns r /\
            OBB.isColliding r = true /\ OBB.penetrationDepth r = 1 / 2.
Proof.
  destruct (aligned_intersects (Scenario.unitBoxAt 0 0 0) (Scenario.unitBoxAt (3/2) 0 0)
              eq_refl eq_refl) as (r & Hr & Hiff & Hdepth & _).
  assert (Ex : SAT.alignedOverlapX (Scenario.unitBoxAt 0 0 0)
                 (Scenario.unitBoxAt (3/2) 0 0) = 1 / 2).
  { unfold SAT.alignedOverlapX, SAT.intervalOverlap; simpl. rewrite Rabs_R1.
    rewrite (Rmin_eq_l (0 + 1) (3 / 2 + 1)), (Rmax_eq_r (0 - 1) (3 / 2 - 1)) by lra.
    lra. }
  assert (Ey : SAT.alignedOverlapY (Scenario.unitBoxAt 0 0 0)
                 (Scenario.unitBoxAt (3/2) 0 0) = 2).
  { unfold SAT.alignedOverlapY, SAT.intervalOverlap; simpl. rewrite Rabs_R1.
    rewrite (Rmin_eq_l (0 + 1) (0 + 1)), (Rmax_eq_l (0 - 1) (0 - 1)) by lra.
    lra. }
  assert (Ez : SAT.alignedOverlapZ (Scenario.unitBoxAt 0 0 0)
                 (Scenario.unitBoxAt (3/2) 0 0) = 2).
  { unfold SAT.alignedOverlapZ, SAT.intervalOverlap; simpl. rewrite Rabs_R1.
    rewrite (Rmin_eq_l (0 + 1) (0 + 1)), (Rmax_eq_l (0 - 1) (0 - 1)) by lra.
    lra. }
  rewrite Ex, Ey, Ez in *.
  assert (Hc : OBB.isColliding r = true) by (apply Hiff; lra).
  exists r. split; [exact Hr |]. split; [exact Hc |].
  rewrite (Hdepth Hc), (Rmin_eq_l 2 2), (Rmin_eq_l (1 / 2) 2) by lra.
  reflexivity.
Qed.

Example scenario_separated_boxes :
  exists r, OBB.intersects (Scenario.unitBoxAt 0 0 0) (Scenario.unitBoxAt 3 0 0)
            = OBB.Returns r /\
            OBB.isColliding r = false /\ OBB.penetrationDepth r = 0.
Proof.
  destruct (aligned_intersects (Scenario.unitBoxAt 0 0 0) (Scenario.unitBoxAt 3 0 0)
              eq_refl eq_refl) as (r & Hr & Hiff & _ & Hzero).
  assert (Ex : SAT.alignedOverlapX (Scenario.unitBoxAt 0 0 0)
                 (Scenario.unitBoxAt 3 0 0) = - 1).
  { unfold SAT.alignedOverlapX, SAT.intervalOverlap; simpl. rewrite Rabs_R1.
    rewrite (Rmin_eq_l (0 + 1) (3 + 1)), (Rmax_eq_r (0 - 1) (3 - 1)) by lra.
    lra. }
  rewrite Ex in Hiff.
  assert (Hc : OBB.isColliding r = false).
  { destruct (OBB.isColliding r); [| reflexivity].
    destruct Hiff as [Hiff _]. specialize (Hiff eq_refl). lra. }
  exists r. split; [exact Hr |]. split; [exact Hc | auto].
Qed.

(** ** Exchanging the two boxes *)

Lemma negate_involutive (v : Vector3) : negate (negate v) = v.
Proof. apply vector_ext; simpl; ring. Qed.

Lemma above_negate (v : Vector3) : SAT.above (negate v) = SAT.above v.
Proof. unfold SAT.above. now rewrite lengthSq_negate. Qed.

Lemma In_crossProducts (a b : OBB.t) (v : Vector3) :
  In v (SAT.crossProducts a b) <->
  exists a1 b1, In a1 (OBB.getAxes a) /\ In b1 (OBB.getAxes b) /\ v = cross a1 b1.
Proof.
  unfold SAT.crossProducts. rewrite in_flat_map. split.
  - intros (a1 & Ha1 & Hv). apply in_map_iff in Hv.
    destruct Hv as (b1 & E & Hb1). exists a1, b1. auto.
  - intros (a1 & b1 & Ha1 & Hb1 & E). exists a1. split; [exact Ha1 |].
    apply in_map_iff. exists b1. auto.
Qed.

(** An axis tested for (b, a) is tested for (a, b), up to sign. *)
Lemma tested_swap (a b : OBB.t) (v : Vector3) :
  In v (SAT.testedAxes b a) ->
  In v (SAT.testedAxes a b) \/ In (negate v) (SAT.testedAxes a b).
Proof.
  unfold SAT.testedAxes. intros H. apply in_app_or in H. destruct H as [H | H].
  - left. apply in_or_app. left.
    apply filter_In in H. destruct H as [H Hk]. apply filter_In.
    split; [| exact Hk]. apply in_app_or in H. apply in_or_app. tauto.
  - right. apply in_or_app. right.
    apply filter_In in H. destruct H as [H Hk]. apply filter_In.
    split; [| now rewrite above_negate].
    apply In_crossProducts in H. destruct H as (b1 & a1 & Hb1 & Ha1 & E).
    apply In_crossProducts. exists a1, b1. split; [exact Ha1 |].
    split; [exact Hb1 |]. subst v. rewrite (cross_antisym a1 b1).
    apply negate_involutive.
Qed.

Lemma tested_swap_overlap (a b : OBB.t) (v : Vector3) :
  In v (SAT.testedAxes b a) ->
  exists w, In w (SAT.testedAxes a b) /\
            OBB.overlapOn a b (normalize w) = OBB.overlapOn b a (normalize v).
Proof.
  intros H. apply tested_swap in H. destruct H as [H | H].
  - exists v. split; [exact H | apply overlapOn_swap].
  - exists (negate v). split; [exact H |].
    rewrite normalize_negate, overlapOn_negate. apply overlapOn_swap.
Qed.

Lemma isMinimum_unique (m1 m2 : R) (l1 l2 : list R) :
  (forall o, In o l1 -> In o l2) -> (forall o, In o l2 -> In o l1) ->
  SAT.isMinimum m1 l1 -> SAT.isMinimum m2 l2 -> m1 = m2.
Proof.
  intros H12 H21 [I1 L1] [I2 L2].
  pose proof (L1 _ (H21 _ I2)). pose proof (L2 _ (H12 _ I1)). lra.
Qed.

Lemma overlaps_swap_incl (a b : OBB.t) (o : R) :
  In o (SAT.overlaps b a (SAT.testedAxes b a)) ->
  In o (SAT.overlaps a b (SAT.testedAxes a b)).
Proof.
  intros H. apply In_overlaps in H. destruct H as (v & Hv & ->).
  apply tested_swap_overlap in Hv. destruct Hv as (w & Hw & E).
  apply In_overlaps. exists w. auto.
Qed.

(** C3.  For boxes with orthonormal orientations, [a.intersects(b)] and
    [b.intersects(a)] both return, agree on [isColliding], and report the
    same penetration depth (in particular when both report a collision). *)
Theorem intersects_symmetric (a b : OBB.t) :
  SAT.orthonormal a -> SAT.orthonormal b ->
  exists r1 r2,
    OBB.intersects a b = OBB.Returns r1 /\
    OBB.intersects b a = OBB.Returns r2 /\
    OBB.isColliding r1 = OBB.isColliding r2 /\
    OBB.penetrationDepth r1 = OBB.penetrationDepth r2.
Proof.
  intros Ha Hb.
  destruct (intersects_returns a b Ha) as [r1 H1].
  destruct (intersects_returns b a Hb) as [r2 H2].
  exists r1, r2. split; [exact H1 |]. split; [exact H2 |].
  pose proof (intersects_cases a b) as C1. rewrite H1 in C1.
  pose proof (intersects_cases b a) as C2. rewrite H2 in C2.
  destruct (OBB.isColliding r1) eqn:E1, (OBB.isColliding r2) eqn:E2.
  - split; [reflexivity |].
    destruct C1 as [_ M1]. destruct C2 as [_ M2].
    apply (isMinimum_unique _ _ _ _ (overlaps_swap_incl b a)
                            (overlaps_swap_incl a b) M1 M2).
  - exfalso. destruct C1 as [P1 _]. destruct C2 as [(v & Hv & Hle) _].
    apply tested_swap_overlap in Hv. destruct Hv as (w & Hw & E).
    specialize (P1 _ Hw). lra.
  - exfalso. destruct C2 as [P2 _]. destruct C1 as [(v & Hv & Hle) _].
    apply tested_swap_overlap in Hv. destruct Hv as (w & Hw & E).
    specialize (P2 _ Hw). lra.
  - split; [reflexivity |]. destruct C1 as [_ ->]. destruct C2 as [_ ->].
    reflexivity.
Qed.

Lemma intersects_symmetric_witness :
  exists r1 r2,
    OBB.intersects (Scenario.unitBoxAt 0 0 0) (Scenario.unitBoxAt (3/2) 0 0)
      = OBB.Returns r1 /\
    OBB.intersects (Scenario.unitBoxAt (3/2) 0 0) (Scenario.unitBoxAt 0 0 0)
      = OBB.Returns r2 /\
    OBB.isColliding r1 = OBB.isColliding r2 /\
    OBB.penetrationDepth r1 = OBB.penetrationDepth r2.
Proof.
  apply (intersects_symmetric (Scenario.unitBoxAt 0 0 0)
                              (Scenario.unitBoxAt (3/2) 0 0)).
  - apply identity_orthonormal. reflexivity.
  - apply identity_orthonormal. reflexivity.
Defined.

(** ** The separating-axis characterisation *)

(** C1 (as amended).  With an orthonormal first box the call returns, and
    it reports no collision exactly when some tested axis -- a box axis
    whose squared length is not below 1e-6, or a cross product whose squared
    length is above 1e-6, normalized before projecting -- yields an overlap
    that is not positive; when it reports a collision every tested overlap
    is positive and the reported depth is their minimum. *)
Theorem intersects_separating_axis (a b : OBB.t) :
  SAT.orthonormal a -> SAT.orthonormal b ->
  exists r, OBB.intersects a b = OBB.Returns r /\
    (OBB.isColliding r = false <->
       exists v, In v (SAT.testedAxes a b) /\
                 OBB.overlapOn a b (normalize v) <= 0) /\
    (OBB.isColliding r = true ->
       (forall o, In o (SAT.overlaps a b (SAT.testedAxes a b)) -> 0 < o) /\
       SAT.isMinimum (OBB.penetrationDepth r)
                     (SAT.overlaps a b (SAT.testedAxes a b))).
Proof.
  intros Ha _.
  destruct (intersects_returns a b Ha) as [r Hr].
  exists r. split; [exact Hr |].
  pose proof (intersects_cases a b) as C. rewrite Hr in C.
  destruct (OBB.isColliding r) eqn:E.
  - destruct C as [Hpos Hmin]. split.
    + split; [discriminate |]. intros (v & Hv & Hle).
      specialize (Hpos _ Hv). lra.
    + intros _. split; [| exact Hmin].
      intros o Ho. apply In_overlaps in Ho. destruct Ho as (v & Hv & ->). auto.
  - destruct C as [Hsep _]. split; [tauto | discriminate].
Qed.

Lemma intersects_separating_axis_witness :
  exists r, OBB.intersects (Scenario.unitBoxAt 0 0 0) (Scenario.unitBoxAt 3 0 0)
            = OBB.Returns r /\
    (OBB.isColliding r = false <->
       exists v, In v (SAT.testedAxes (Scenario.unitBoxAt 0 0 0) (Scenario.unitBoxAt 3 0 0)) /\
                 OBB.overlapOn (Scenario.unitBoxAt 0 0 0) (Scenario.unitBoxAt 3 0 0)
                               (normalize v) <= 0) /\
    (OBB.isColliding r = true ->
       (forall o, In o (SAT.overlaps (Scenario.unitBoxAt 0 0 0) (Scenario.unitBoxAt 3 0 0)
                          (SAT.testedAxes (Scenario.unitBoxAt 0 0 0)
                                          (Scenario.unitBoxAt 3 0 0))) -> 0 < o) /\
       SAT.isMinimum (OBB.penetrationDepth r)
                     (SAT.overlaps (Scenario.unitBoxAt 0 0 0) (Scenario.unitBoxAt 3 0 0)
                        (SAT.testedAxes (Scenario.unitBoxAt 0 0 0)
                                        (Scenario.unitBoxAt 3 0 0)))).
Proof.
  apply (intersects_separating_axis (Scenario.unitBoxAt 0 0 0)
                                    (Scenario.unitBoxAt 3 0 0)).
  - apply identity_orthonormal. reflexivity.
  - apply identity_orthonormal. reflexivity.
Defined.

(** ** Two nearly parallel needles *)

Lemma cosTiny_sqr : Scenario.cosTiny * Scenario.cosTiny = 999999 / 1000000.
Proof.
  unfold Scenario.cosTiny.
  replace (sqrt 999999 / 1000 * (sqrt 999999 / 1000))
    with (sqrt 999999 * sqrt 999999 / 1000000) by field.
  rewrite sqrt_sqrt by lra. reflexivity.
Qed.

Lemma cosTiny_bounds : 9999 / 10000 < Scenario.cosTiny < 1.
Proof.
  assert (0 <= Scenario.cosTiny).
  { unfold Scenario.cosTiny. pose proof (sqrt_pos 999999). lra. }
  pose proof cosTiny_sqr. split; nra.
Qed.

Lemma needleA_orthonormal : SAT.orthonormal Scenario.needleA.
Proof.
  unfold SAT.orthonormal, OBB.axis0, OBB.axis1, OBB.axis2, dot, applyMatrix3;
    simpl.
  repeat split; field.
Qed.

Lemma needleB_orthonormal : SAT.orthonormal Scenario.needleB.
Proof.
  pose proof cosTiny_sqr as C.
  unfold SAT.orthonormal, OBB.axis0, OBB.axis1, OBB.axis2, dot, applyMatrix3;
    simpl.
  unfold Scenario.sinTiny. repeat split; nra.
Qed.

Lemma overlap_pos_intro (pA eA pB eB : R) :
  0 < eA -> 0 < eB -> pB - pA < eA + eB -> pA - pB < eA + eB ->
  0 < Rmin (pA + eA) (pB + eB) - Rmax (pA - eA) (pB - eB).
Proof. intros. minmax_cases; lra. Qed.

Lemma Rabs_ge_opp (t : R) : - t <= Rabs t.
Proof. unfold Rabs. destruct (Rcase_abs t); lra. Qed.

(** Replace every absolute value by a variable bounded below by zero, by
    its argument and by the opposite of its argument. *)
Ltac abstract_abs :=
  repeat match goal with
         | |- context [Rabs ?t] =>
             let k := fresh "k" in
             pose proof (Rabs_pos t); pose proof (Rle_abs t);
             pose proof (Rabs_ge_opp t);
             set (k := Rabs t) in *; clearbody k
         end.

Lemma needleA_axes :
  OBB.axis0 Scenario.needleA = mkVector3 1 0 0 /\
  OBB.axis1 Scenario.needleA = mkVector3 0 (3 / 5) (4 / 5) /\
  OBB.axis2 Scenario.needleA = mkVector3 0 (- (4 / 5)) (3 / 5).
Proof.
  unfold OBB.axis0, OBB.axis1, OBB.axis2, applyMatrix3; simpl.
  repeat split; apply vector_ext; simpl; ring.
Qed.

Lemma needleB_axes :
  OBB.axis0 Scenario.needleB = mkVector3 Scenario.cosTiny (1 / 1000) 0 /\
  OBB.axis1 Scenario.needleB =
    mkVector3 (- (1 / 1250)) (Scenario.cosTiny * (4 / 5)) (3 / 5) /\
  OBB.axis2 Scenario.needleB =
    mkVector3 (3 / 5000) (- (Scenario.cosTiny * (3 / 5))) (4 / 5).
Proof.
  unfold OBB.axis0, OBB.axis1, OBB.axis2, applyMatrix3; simpl.
  unfold Scenario.sinTiny.
  repeat split; apply vector_ext; simpl; field.
Qed.

Ltac needle_unfold :=
  unfold OBB.overlapOn, OBB.projectOnAxis;
  destruct needleA_axes as (-> & -> & ->);
  destruct needleB_axes as (-> & -> & ->);
  unfold dot, cross; simpl.

Ltac needle_overlap :=
  pose proof cosTiny_sqr; pose proof cosTiny_bounds;
  needle_unfold; apply overlap_pos_intro; abstract_abs; nra.

(** The cross product of the two long axes has squared length 1e-6: the
    nested loop of [getCrossProductAxes] does not keep it. *)
Lemma needle_long_axes_cross :
  cross (OBB.axis0 Scenario.needleA) (OBB.axis0 Scenario.needleB)
  = mkVector3 0 0 (1 / 1000).
Proof.
  destruct needleA_axes as (-> & _ & _). destruct needleB_axes as (-> & _ & _).
  apply vector_ext; simpl; ring.
Qed.

Lemma needle_long_axes_cross_lengthSq :
  lengthSq (cross (OBB.axis0 Scenario.needleA) (OBB.axis0 Scenario.needleB))
  = OBB.epsilon.
Proof.
  rewrite needle_long_axes_cross. unfold lengthSq, OBB.epsilon; simpl. field.
Qed.

(** Every axis that the loop tests for the two needles shows a positive
    overlap. *)
Lemma needle_tested_positive (v : Vector3) :
  In v (SAT.testedAxes Scenario.needleA Scenario.needleB) ->
  0 < OBB.overlapOn Scenario.needleA Scenario.needleB v.
Proof.
  unfold SAT.testedAxes. intros H. apply in_app_or in H. destruct H as [H | H].
  - apply filter_In in H. destruct H as [H _].
    unfold OBB.getAxes in H.
    fold (OBB.axis0 Scenario.needleA) (OBB.axis1 Scenario.needleA)
         (OBB.axis2 Scenario.needleA) in H.
    fold (OBB.axis0 Scenario.needleB) (OBB.axis1 Scenario.needleB)
         (OBB.axis2 Scenario.needleB) in H.
    simpl in H.
    destruct H as [<- | [<- | [<- | [<- | [<- | [<- | []]]]]]]; 
    needle_overlap.
  - apply filter_In in H. destruct H as [H Habove].
    apply In_crossProducts in H.
    destruct H as (a1 & b1 & Ha1 & Hb1 & ->).
    unfold OBB.getAxes in Ha1, Hb1.
    fold (OBB.axis0 Scenario.needleA) (OBB.axis1 Scenario.needleA)
         (OBB.axis2 Scenario.needleA) in Ha1.
    fold (OBB.axis0 Scenario.needleB) (OBB.axis1 Scenario.needleB)
         (OBB.axis2 Scenario.needleB) in Hb1.
    destruct Ha1 as [<- | [<- | [<- | []]]];
      destruct Hb1 as [<- | [<- | [<- | []]]];
      [ exfalso | | | | | | | | ]; try (needle_overlap).
    unfold SAT.above in Habove.
    rewrite needle_long_axes_cross_lengthSq in Habove.
    destruct (Rgt_dec OBB.epsilon OBB.epsilon) as [Hgt | _]; [lra | discriminate].
Qed.

Lemma needles_reported_colliding :
  exists r, OBB.intersects Scenario.needleA Scenario.needleB = OBB.Returns r /\
            OBB.isColliding r = true.
Proof.
  destruct (intersects_returns _ Scenario.needleB needleA_orthonormal) as [r Hr].
  exists r. split; [exact Hr |].
  pose proof (intersects_cases Scenario.needleA Scenario.needleB) as C.
  rewrite Hr in C. destruct (OBB.isColliding r); [reflexivity | exfalso].
  destruct C as [(v & Hv & Hle) _].
  rewrite overlapOn_normalize_sign in Hle.
  pose proof (needle_tested_positive v Hv).
  pose proof (normFactor_pos v). nra.
Qed.

(** C1, the claim as stated fails at the threshold.  The two needles have
    orthonormal orientations; the cross product of their long axes has
    squared length 1e-6, which is not below 1e-6, and the projections on it
    are disjoint; yet [intersects] reports a collision, because that
    product is dropped ([> 1e-6] in [getCrossProductAxes]) and every axis
    that is tested shows a positive overlap. *)
Lemma separating_axis_claim_fails_at_threshold :
  SAT.orthonormal Scenario.needleA /\ SAT.orthonormal Scenario.needleB /\
  (exists r, OBB.intersects Scenario.needleA Scenario.needleB = OBB.Returns r /\
             OBB.isColliding r = true) /\
  (exists v, In v (SAT.axesNotBelow Scenario.needleA Scenario.needleB) /\
             OBB.overlapOn Scenario.needleA Scenario.needleB (normalize v) <= 0).
Proof.
  split; [exact needleA_orthonormal |]. split; [exact needleB_orthonormal |].
  split; [exact needles_reported_colliding |].
  exists (cross (OBB.axis0 Scenario.needleA) (OBB.axis0 Scenario.needleB)).
  split.
  - unfold SAT.axesNotBelow. apply filter_In. split.
    + unfold SAT.candidateAxes. apply in_or_app. right. apply in_or_app. right.
      apply In_crossProducts.
      exists (OBB.axis0 Scenario.needleA), (OBB.axis0 Scenario.needleB).
      split; [apply In_axis0 |]. split; [apply In_axis0 | reflexivity].
    + unfold SAT.notBelow. rewrite needle_long_axes_cross_lengthSq.
      destruct (Rlt_dec OBB.epsilon OBB.epsilon) as [Hlt | _]; [lra | reflexivity].
  - rewrite overlapOn_normalize_sign.
    pose proof (normFactor_pos
                  (cross (OBB.axis0 Scenario.needleA) (OBB.axis0 Scenario.needleB))).
    assert (OBB.overlapOn Scenario.needleA Scenario.needleB
              (cross (OBB.axis0 Scenario.needleA) (OBB.axis0 Scenario.needleB)) < 0);
      [| nra].
    rewrite needle_long_axes_cross.
    pose proof cosTiny_bounds.
    needle_unfold. minmax_cases; lra.
Qed.

(** ** Boundaries: points and touching boxes *)

Lemma containsPoint_within (o : OBB.t) (p : Vector3) :
  Rabs (dot (sub p (OBB.center o)) (OBB.axis0 o)) <= x (OBB.halfExtents o) ->
  Rabs (dot (sub p (OBB.center o)) (OBB.axis1 o)) <= y (OBB.halfExtents o) ->
  Rabs (dot (sub p (OBB.center o)) (OBB.axis2 o)) <= z (OBB.halfExtents o) ->
  OBB.containsPoint o p = true.
Proof.
  intros H0 H1 H2. unfold OBB.containsPoint, OBB.containsLoop, OBB.getAxes.
  cbn [nth getComponent].
  fold (OBB.axis0 o) (OBB.axis1 o) (OBB.axis2 o).
  destruct (Rgt_dec _ _) as [G | _]; [lra |].
  destruct (Rgt_dec _ _) as [G | _]; [lra |].
  destruct (Rgt_dec _ _) as [G | _]; [lra | reflexivity].
Qed.

Lemma containsPoint_outside (o : OBB.t) (p : Vector3) :
  Rabs (dot (sub p (OBB.center o)) (OBB.axis0 o)) > x (OBB.halfExtents o) \/
  Rabs (dot (sub p (OBB.center o)) (OBB.axis1 o)) > y (OBB.halfExtents o) \/
  Rabs (dot (sub p (OBB.center o)) (OBB.axis2 o)) > z (OBB.halfExtents o) ->
  OBB.containsPoint o p = false.
Proof.
  intros H. unfold OBB.containsPoint, OBB.containsLoop, OBB.getAxes.
  cbn [nth getComponent].
  fold (OBB.axis0 o) (OBB.axis1 o) (OBB.axis2 o).
  destruct (Rgt_dec _ _) as [G0 | G0]; [reflexivity |].
  destruct (Rgt_dec _ _) as [G1 | G1]; [reflexivity |].
  destruct (Rgt_dec _ _) as [G2 | G2]; [reflexivity |].
  destruct H as [H | [H | H]]; contradiction.
Qed.

(** A point on a face of the unit box is inside, a point beyond it is
    not. *)
Example containsPoint_face_and_beyond :
  OBB.containsPoint (Scenario.unitBoxAt 0 0 0) (mkVector3 1 0 0) = true /\
  OBB.containsPoint (Scenario.unitBoxAt 0 0 0) (mkVector3 (3 / 2) 0 0) = false.
Proof.
  split.
  - apply containsPoint_within; unfold dot, OBB.axis0, OBB.axis1, OBB.axis2,
      applyMatrix3; simpl; minmax_cases; lra.
  - apply containsPoint_outside. left.
    unfold dot, OBB.axis0, applyMatrix3; simpl. minmax_cases; lra.
Qed.

(** C9 (as amended).  [containsPoint] includes the boundary and
    [intersects] excludes it: a point whose offset from the center, projected on the axes of the
    box, equals the half-extent on one axis and stays within the
    half-extents on the others is contained; two boxes whose projections
    on an axis tested by [intersects] merely touch (overlap exactly 0) are
    reported as not colliding. *)
Theorem boundary_point_contained_touching_boxes_apart
        (o : OBB.t) (p : Vector3) (a b : OBB.t) (v : Vector3) :
  Rabs (dot (sub p (OBB.center o)) (OBB.axis0 o)) = x (OBB.halfExtents o) \/
  Rabs (dot (sub p (OBB.center o)) (OBB.axis1 o)) = y (OBB.halfExtents o) \/
  Rabs (dot (sub p (OBB.center o)) (OBB.axis2 o)) = z (OBB.halfExtents o) ->
  Rabs (dot (sub p (OBB.center o)) (OBB.axis0 o)) <= x (OBB.halfExtents o) ->
  Rabs (dot (sub p (OBB.center o)) (OBB.axis1 o)) <= y (OBB.halfExtents o) ->
  Rabs (dot (sub p (OBB.center o)) (OBB.axis2 o)) <= z (OBB.halfExtents o) ->
  In v (SAT.testedAxes a b) ->
  OBB.overlapOn a b (normalize v) = 0 ->
  OBB.containsPoint o p = true /\
  exists r, OBB.intersects a b = OBB.Returns r /\ OBB.isColliding r = false.
Proof.
  intros _ H0 H1 H2 Hv Hzero. split.
  - now apply containsPoint_within.
  - apply (touching_axis_separates a b v Hv). lra.
Qed.

(** The vertex (1,1,1) of the unit box, and the unit boxes at the origin
    and at (2,0,0), which share a face. *)
Lemma boundary_point_contained_touching_boxes_apart_witness :
  OBB.containsPoint (Scenario.unitBoxAt 0 0 0) (mkVector3 1 1 1) = true /\
  exists r, OBB.intersects (Scenario.unitBoxAt 0 0 0) (Scenario.unitBoxAt 2 0 0)
            = OBB.Returns r /\ OBB.isColliding r = false.
Proof.
  assert (A : forall t, In t (OBB.getAxes (Scenario.unitBoxAt 0 0 0)) ->
                        Rabs (dot (sub (mkVector3 1 1 1)
                                       (OBB.center (Scenario.unitBoxAt 0 0 0))) t) = 1).
  { intros t [<- | [<- | [<- | []]]]; unfold dot, applyMatrix3; simpl;
      match goal with
      | |- Rabs ?e = 1 => replace e with 1 by ring
      end; apply Rabs_R1. }
  apply (boundary_point_contained_touching_boxes_apart
           (Scenario.unitBoxAt 0 0 0) (mkVector3 1 1 1)
           (Scenario.unitBoxAt 0 0 0) (Scenario.unitBoxAt 2 0 0)
           (OBB.axis0 (Scenario.unitBoxAt 0 0 0))).
  - left. apply A, In_axis0.
  - right. apply A, In_axis0.
  - right. apply A, In_axis1.
  - right. apply A, In_axis2.
  - apply axes_tested_l; [apply identity_orthonormal; reflexivity | apply In_axis0].
  - rewrite normalize_unit
      by (apply orthonormal_axis0, identity_orthonormal; reflexivity).
    rewrite (aligned_overlap_axis0 (Scenario.unitBoxAt 0 0 0)
               (Scenario.unitBoxAt 2 0 0) eq_refl eq_refl).
    unfold SAT.alignedOverlapX, SAT.intervalOverlap; simpl.
    minmax_cases; lra.
Defined.

(** The needle at height 14 has the orientation of the second needle of
    the scenario. *)
Lemma needleTouching_orthonormal : SAT.orthonormal Inputs.needleTouching.
Proof.
  pose proof cosTiny_sqr as C.
  unfold SAT.orthonormal, OBB.axis0, OBB.axis1, OBB.axis2, dot, applyMatrix3;
    simpl.
  unfold Scenario.sinTiny. repeat split; nra.
Qed.

Lemma needleTouching_axes :
  OBB.axis0 Inputs.needleTouching = mkVector3 Scenario.cosTiny (1 / 1000) 0 /\
  OBB.axis1 Inputs.needleTouching =
    mkVector3 (- (1 / 1250)) (Scenario.cosTiny * (4 / 5)) (3 / 5) /\
  OBB.axis2 Inputs.needleTouching =
    mkVector3 (3 / 5000) (- (Scenario.cosTiny * (3 / 5))) (4 / 5).
Proof.
  unfold OBB.axis0, OBB.axis1, OBB.axis2, applyMatrix3; simpl.
  unfold Scenario.sinTiny.
  repeat split; apply vector_ext; simpl; field.
Qed.

Ltac touching_unfold :=
  unfold OBB.overlapOn, OBB.projectOnAxis;
  destruct needleA_axes as (-> & -> & ->);
  destruct needleTouching_axes as (-> & -> & ->);
  unfold dot, cross; simpl.

Ltac touching_overlap :=
  pose proof cosTiny_sqr; pose proof cosTiny_bounds;
  touching_unfold; apply overlap_pos_intro; abstract_abs; nra.

Lemma touching_long_axes_cross :
  cross (OBB.axis0 Scenario.needleA) (OBB.axis0 Inputs.needleTouching)
  = mkVector3 0 0 (1 / 1000).
Proof.
  destruct needleA_axes as (-> & _ & _).
  destruct needleTouching_axes as (-> & _ & _).
  apply vector_ext; simpl; ring.
Qed.

Lemma touching_long_axes_cross_lengthSq :
  lengthSq (cross (OBB.axis0 Scenario.needleA) (OBB.axis0 Inputs.needleTouching))
  = OBB.epsilon.
Proof.
  rewrite touching_long_axes_cross. unfold lengthSq, OBB.epsilon; simpl. field.
Qed.

(** Every axis that the loop tests for the needle at the origin and the
    needle at height 14 shows a positive overlap. *)
Lemma touching_tested_positive (v : Vector3) :
  In v (SAT.testedAxes Scenario.needleA Inputs.needleTouching) ->
  0 < OBB.overlapOn Scenario.needleA Inputs.needleTouching v.
Proof.
  unfold SAT.testedAxes. intros H. apply in_app_or in H. destruct H as [H | H].
  - apply filter_In in H. destruct H as [H _].
    unfold OBB.getAxes in H.
    fold (OBB.axis0 Scenario.needleA) (OBB.axis1 Scenario.needleA)
         (OBB.axis2 Scenario.needleA) in H.
    fold (OBB.axis0 Inputs.needleTouching) (OBB.axis1 Inputs.needleTouching)
         (OBB.axis2 Inputs.needleTouching) in H.
    simpl in H.
    destruct H as [<- | [<- | [<- | [<- | [<- | [<- | []]]]]]];
    touching_overlap.
  - apply filter_In in H. destruct H as [H Habove].
    apply In_crossProducts in H.
    destruct H as (a1 & b1 & Ha1 & Hb1 & ->).
    unfold OBB.getAxes in Ha1, Hb1.
    fold (OBB.axis0 Scenario.needleA) (OBB.axis1 Scenario.needleA)
         (OBB.axis2 Scenario.needleA) in Ha1.
    fold (OBB.axis0 Inputs.needleTouching) (OBB.axis1 Inputs.needleTouching)
         (OBB.axis2 Inputs.needleTouching) in Hb1.
    destruct Ha1 as [<- | [<- | [<- | []]]];
      destruct Hb1 as [<- | [<- | [<- | []]]];
      [ exfalso | | | | | | | | ]; try (touching_overlap).
    unfold SAT.above in Habove.
    rewrite touching_long_axes_cross_lengthSq in Habove.
    destruct (Rgt_dec OBB.epsilon OBB.epsilon) as [Hgt | _]; [lra | discriminate].
Qed.

(** C9, the claim as stated fails at the threshold.  The needle at the
    origin and the needle at height 14 have orthonormal orientations.  The
    cross product of their long axes has squared length 1e-6, which is not
    below 1e-6, and on it the two projections merely touch (overlap
    exactly 0); yet [intersects] reports a collision, because that product
    is dropped ([> 1e-6] in [getCrossProductAxes]) and every axis that is
    tested shows a positive overlap. *)
Lemma touching_claim_fails_at_threshold :
  SAT.orthonormal Scenario.needleA /\ SAT.orthonormal Inputs.needleTouching /\
  (exists v, In v (SAT.axesNotBelow Scenario.needleA Inputs.needleTouching) /\
             OBB.overlapOn Scenario.needleA Inputs.needleTouching (normalize v) = 0) /\
  (exists r, OBB.intersects Scenario.needleA Inputs.needleTouching = OBB.Returns r /\
             OBB.isColliding r = true).
Proof.
  split; [exact needleA_orthonormal |].
  split; [exact needleTouching_orthonormal |]. split.
  - exists (cross (OBB.axis0 Scenario.needleA) (OBB.axis0 Inputs.needleTouching)).
    split.
    + unfold SAT.axesNotBelow. apply filter_In. split.
      * unfold SAT.candidateAxes. apply in_or_app. right. apply in_or_app. right.
        apply In_crossProducts.
        exists (OBB.axis0 Scenario.needleA), (OBB.axis0 Inputs.needleTouching).
        split; [apply In_axis0 |]. split; [apply In_axis0 | reflexivity].
      * unfold SAT.notBelow. rewrite touching_long_axes_cross_lengthSq.
        destruct (Rlt_dec OBB.epsilon OBB.epsilon) as [Hlt | _];
          [lra | reflexivity].
    + rewrite overlapOn_normalize_sign.
      assert (E : OBB.overlapOn Scenario.needleA Inputs.needleTouching
                    (cross (OBB.axis0 Scenario.needleA)
                           (OBB.axis0 Inputs.needleTouching)) = 0);
        [| rewrite E; ring].
      rewrite touching_long_axes_cross.
      pose proof cosTiny_bounds.
      touching_unfold. minmax_cases; lra.
  - destruct (intersects_returns _ Inputs.needleTouching needleA_orthonormal)
      as [r Hr].
    exists r. split; [exact Hr |].
    pose proof (intersects_cases Scenario.needleA Inputs.needleTouching) as C.
    rewrite Hr in C. destruct (OBB.isColliding r); [reflexivity | exfalso].
    destruct C as [(v & Hv & Hle) _].
    rewrite overlapOn_normalize_sign in Hle.
    pose proof (touching_tested_positive v Hv).
    pose proof (normFactor_pos v). nra.
Qed.

(** ** The map of bodies *)

Section MapFacts.

Context {V : Type}.

Lemma keys_set_in (m : JSMap.t V) (k : string) (v : V) :
  In k (JSMap.keys m) -> JSMap.keys (JSMap.set m k v) = JSMap.keys m.
Proof.
  unfold JSMap.keys. induction m as [| [k' v'] rest IH]; simpl; intros H.
  - destruct H.
  - destruct (String.eqb k' k) eqn:E; simpl; [reflexivity |].
    f_equal. apply IH. destruct H as [H | H]; [| exact H].
    apply String.eqb_neq in E. congruence.
Qed.

Lemma keys_set_notin (m : JSMap.t V) (k : string) (v : V) :
  ~ In k (JSMap.keys m) -> JSMap.keys (JSMap.set m k v) = JSMap.keys m ++ [k].
Proof.
  unfold JSMap.keys. induction m as [| [k' v'] rest IH]; simpl; intros H.
  - reflexivity.
  - destruct (String.eqb k' k) eqn:E; simpl.
    + apply String.eqb_eq in E. tauto.
    + f_equal. apply IH. tauto.
Qed.

Lemma keys_set_NoDup (m : JSMap.t V) (k : string) (v : V) :
  NoDup (JSMap.keys m) -> NoDup (JSMap.keys (JSMap.set m k v)).
Proof.
  intros H. destruct (in_dec string_dec k (JSMap.keys m)) as [Hin | Hnin].
  - now rewrite keys_set_in.
  - rewrite keys_set_notin by assumption.
    apply NoDup_app; [exact H | constructor; [intros [] | constructor] |].
    intros k' Hk' [<- | []]. contradiction.
Qed.

Lemma keys_delete_incl (m : JSMap.t V) (k k' : string) :
  In k' (JSMap.keys (JSMap.delete m k)) -> In k' (JSMap.keys m).
Proof.
  unfold JSMap.keys. induction m as [| [k0 v0] rest IH]; simpl; [tauto |].
  destruct (String.eqb k0 k); simpl; tauto.
Qed.

Lemma keys_delete_NoDup (m : JSMap.t V) (k : string) :
  NoDup (JSMap.keys m) -> NoDup (JSMap.keys (JSMap.delete m k)).
Proof.
  unfold JSMap.keys. induction m as [| [k0 v0] rest IH]; simpl; intros H.
  - constructor.
  - inversion H as [| ? ? Hnin Hrest]; subst.
    destruct (String.eqb k0 k); simpl; [exact Hrest |].
    constructor; [| now apply IH].
    intros Hin. apply Hnin. now apply keys_delete_incl in Hin.
Qed.

Lemma get_set_same (m : JSMap.t V) (k : string) (v : V) :
  JSMap.get (JSMap.set m k v) k = Some v.
Proof.
  induction m as [| [k' v'] rest IH]; simpl.
  - now rewrite String.eqb_refl.
  - destruct (String.eqb k' k) eqn:E; simpl; rewrite E; [reflexivity | exact IH].
Qed.

Lemma get_set_other (m : JSMap.t V) (k k' : string) (v : V) :
  k' <> k -> JSMap.get (JSMap.set m k v) k' = JSMap.get m k'.
Proof.
  intros N. induction m as [| [k0 v0] rest IH]; simpl.
  - destruct (String.eqb k k') eqn:E; [| reflexivity].
    apply String.eqb_eq in E. congruence.
  - destruct (String.eqb k0 k) eqn:E; simpl.
    + apply String.eqb_eq in E. subst k0.
      destruct (String.eqb k k') eqn:E'; [| reflexivity].
      apply String.eqb_eq in E'. congruence.
    + destruct (String.eqb k0 k'); [reflexivity | exact IH].
Qed.

Lemma get_In (m : JSMap.t V) (k : string) (v : V) :
  JSMap.get m k = Some v -> In (k, v) m.
Proof.
  induction m as [| [k' v'] rest IH]; simpl; [discriminate |].
  destruct (String.eqb k' k) eqn:E; intros H.
  - left. apply String.eqb_eq in E. congruence.
  - right. now apply IH.
Qed.

Lemma In_set (m : JSMap.t V) (k k' : string) (v v' : V) :
  In (k', v') (JSMap.set m k v) -> (k', v') = (k, v) \/ In (k', v') m.
Proof.
  induction m as [| [k0 v0] rest IH]; simpl.
  - intros [H | []]. left. congruence.
  - destruct (String.eqb k0 k) eqn:E; simpl.
    + apply String.eqb_eq in E. subst k0.
      intros [H | H]; [left; congruence | right; right; exact H].
    + intros [H | H]; [right; left; exact H |].
      destruct (IH H) as [H' | H']; [left; exact H' | right; right; exact H'].
Qed.

Lemma In_delete (m : JSMap.t V) (k k' : string) (v' : V) :
  In (k', v') (JSMap.delete m k) -> In (k', v') m.
Proof.
  induction m as [| [k0 v0] rest IH]; simpl; [tauto |].
  destruct (String.eqb k0 k); simpl; tauto.
Qed.

Lemma get_in_keys (m : JSMap.t V) (k : string) (v : V) :
  JSMap.get m k = Some v -> In k (JSMap.keys m).
Proof.
  unfold JSMap.keys. induction m as [| [k' v'] rest IH]; simpl; [discriminate |].
  destruct (String.eqb k' k) eqn:E; intros H.
  - left. now apply String.eqb_eq.
  - right. now apply IH.
Qed.

End MapFacts.

(** ** The broad phase *)

Section BroadPhase.

Import AkashicCollisionSystem.

Lemma reachable_NoDup (s : AkashicCollisionSystem.t) :
  reachable s -> NoDup (JSMap.keys (bodies s)).
Proof.
  induction 1; simpl.
  - constructor.
  - now apply keys_set_NoDup.
  - unfold updateBody. destruct (JSMap.get (bodies s) id); simpl;
      [now apply keys_set_NoDup | assumption].
  - unfold updateBodySize. destruct (JSMap.get (bodies s) id); simpl;
      [now apply keys_set_NoDup | assumption].
  - now apply keys_delete_NoDup.
  - assumption.
Qed.

Lemma checkAABBCollision_positive (b1 b2 o : AABB) :
  checkAABBCollision b1 b2 = Some o -> 0 < width o /\ 0 < height o.
Proof.
  unfold checkAABBCollision.
  destruct (Rgt_dec _ 0) as [Gx | _]; [| discriminate].
  destruct (Rgt_dec _ 0) as [Gy | _]; [| discriminate].
  intros E. inversion E; subst; simpl. split; lra.
Qed.

Lemma In_checkAgainst (k : string) (b : AABB) (rest : JSMap.t AABB)
      (r : CollisionResult) :
  In r (checkAgainst k b rest) ->
  id1 r = k /\ In (id2 r) (JSMap.keys rest) /\
  0 < width (overlap r) /\ 0 < height (overlap r).
Proof.
  unfold JSMap.keys.
  induction rest as [| [k2 b2] rest IH]; simpl; [intros [] |].
  destruct (checkAABBCollision b b2) as [o |] eqn:E.
  - intros [<- | H]; simpl.
    + split; [reflexivity |]. split; [left; reflexivity |].
      now apply (checkAABBCollision_positive b b2).
    + destruct (IH H) as (H1 & H2 & H3). tauto.
  - intros H. destruct (IH H) as (H1 & H2 & H3). tauto.
Qed.

Lemma In_checkAll (entries : JSMap.t AABB) (r : CollisionResult) :
  In r (checkAll entries) ->
  In (id1 r) (JSMap.keys entries) /\ In (id2 r) (JSMap.keys entries) /\
  0 < width (overlap r) /\ 0 < height (overlap r).
Proof.
  unfold JSMap.keys.
  induction entries as [| [k b] rest IH]; simpl; [intros [] |].
  intros H. apply in_app_or in H. destruct H as [H | H].
  - apply In_checkAgainst in H. destruct H as (-> & H2 & H3).
    unfold JSMap.keys in H2. tauto.
  - destruct (IH H) as (H1 & H2 & H3). tauto.
Qed.

Lemma checkAgainst_distinct (k : string) (b : AABB) (rest : JSMap.t AABB) :
  NoDup (JSMap.keys rest) ->
  ForallOrdPairs (fun r r' => id2 r <> id2 r') (checkAgainst k b rest).
Proof.
  unfold JSMap.keys.
  induction rest as [| [k2 b2] rest IH]; simpl; intros N; [constructor |].
  inversion N as [| ? ? Hnin Hrest]; subst.
  destruct (checkAABBCollision b b2) as [o |]; [| now apply IH].
  constructor; [| now apply IH].
  apply Forall_forall. intros r Hr. simpl.
  apply In_checkAgainst in Hr. destruct Hr as (_ & Hin & _).
  intros E. apply Hnin. unfold JSMap.keys in Hin. now rewrite E.
Qed.

Lemma ForallOrdPairs_app {A : Type} (P : A -> A -> Prop) (l1 l2 : list A) :
  ForallOrdPairs P l1 -> ForallOrdPairs P l2 ->
  (forall u v, In u l1 -> In v l2 -> P u v) ->
  ForallOrdPairs P (l1 ++ l2).
Proof.
  induction 1 as [| u l1 Hu H1 IH]; simpl; intros H2 H12; [exact H2 |].
  constructor.
  - apply Forall_forall. intros v Hv. apply in_app_or in Hv.
    destruct Hv as [Hv | Hv].
    + rewrite Forall_forall in Hu. auto.
    + apply H12; [left; reflexivity | exact Hv].
  - apply IH; [exact H2 |]. intros u' v Hu' Hv. apply H12; [right |]; assumption.
Qed.

Lemma ForallOrdPairs_impl {A : Type} (P Q : A -> A -> Prop) (l : list A) :
  (forall u v, In u l -> In v l -> P u v -> Q u v) ->
  ForallOrdPairs P l -> ForallOrdPairs Q l.
Proof.
  intros HPQ H. induction H as [| u l Hu H IH]; constructor.
  - rewrite Forall_forall in *. intros v Hv.
    apply HPQ; [left; reflexivity | right; exact Hv | auto].
  - apply IH. intros u' v Hu' Hv. apply HPQ; right; assumption.
Qed.

Lemma checkAll_pairs (entries : JSMap.t AABB) :
  NoDup (JSMap.keys entries) ->
  (forall r, In r (checkAll entries) -> id1 r <> id2 r) /\
  ForallOrdPairs (fun r r' => ~ samePair r r') (checkAll entries).
Proof.
  unfold JSMap.keys.
  induction entries as [| [k b] rest IH]; simpl; intros N.
  - split; [intros r [] | constructor].
  - inversion N as [| ? ? Hnin Hrest]; subst.
    destruct (IH Hrest) as [IH1 IH2]. split.
    + intros r H. apply in_app_or in H. destruct H as [H | H]; [| auto].
      apply In_checkAgainst in H. destruct H as (-> & Hin & _).
      intros E. apply Hnin. unfold JSMap.keys in Hin. now rewrite E.
    + apply ForallOrdPairs_app.
      * apply ForallOrdPairs_impl
          with (P := fun r r' : CollisionResult => id2 r <> id2 r');
          [| now apply checkAgainst_distinct].
        intros u v Hu Hv Hne.
        apply In_checkAgainst in Hu. destruct Hu as (Eu & Hinu & _).
        apply In_checkAgainst in Hv. destruct Hv as (Ev & Hinv & _).
        unfold JSMap.keys in Hinu, Hinv.
        intros [[_ E] | [E _]]; [contradiction |].
        apply Hnin. rewrite <- Eu, E. exact Hinv.
      * exact IH2.
      * intros u v Hu Hv.
        apply In_checkAgainst in Hu. destruct Hu as (Eu & Hinu & _).
        apply In_checkAll in Hv. destruct Hv as (H1 & H2 & _).
        unfold JSMap.keys in H1, H2.
        intros [[E _] | [E _]]; apply Hnin; rewrite <- Eu, E; assumption.
Qed.

(** C10.  In every state that the methods of the broad-phase index can
    produce, [checkCollisions] never returns a pair of an identifier with
    itself, never returns two results for the same unordered pair of
    identifiers, and every result carries an overlap rectangle of strictly
    positive width and height. *)
Theorem checkCollisions_unordered_pairs (s : AkashicCollisionSystem.t) :
  reachable s ->
  (forall r, In r (snd (checkCollisions s)) ->
             id1 r <> id2 r /\ 0 < width (overlap r) /\ 0 < height (overlap r)) /\
  ForallOrdPairs (fun r r' => ~ samePair r r') (snd (checkCollisions s)).
Proof.
  intros H. apply reachable_NoDup in H.
  destruct (checkAll_pairs (bodies s) H) as [H1 H2]. simpl. split.
  - intros r Hr. split; [auto |].
    apply In_checkAll in Hr. tauto.
  - exact H2.
Qed.

Lemma checkCollisions_unordered_pairs_witness :
  (forall r, In r (snd (checkCollisions Scenario.twoBodies)) ->
             id1 r <> id2 r /\ 0 < width (overlap r) /\ 0 < height (overlap r)) /\
  ForallOrdPairs (fun r r' => ~ samePair r r')
                 (snd (checkCollisions Scenario.twoBodies)).
Proof.
  apply (checkCollisions_unordered_pairs Scenario.twoBodies).
  unfold Scenario.twoBodies. repeat constructor.
Defined.

(** The two rectangles of the scenario overlap in the unit square from
    (1,1): one result, for the pair ("a", "b"). *)
Example twoBodies_results :
  exists o, snd (checkCollisions Scenario.twoBodies) =
              [mkCollisionResult "a" "b" (mkAABB 0 0 2 2) (mkAABB 1 1 2 2) o] /\
            x o = 1 /\ y o = 1 /\ width o = 1 /\ height o = 1.
Proof.
  unfold checkCollisions, Scenario.twoBodies, createAABB; simpl.
  unfold checkAABBCollision; simpl.
  assert (E : Rmax 0 (Rmin (0 + 2) (1 + 2) - Rmax 0 1) = 1)
    by (minmax_cases; lra).
  rewrite E. destruct (Rgt_dec 1 0) as [_ | N]; [| lra].
  eexists. split; [reflexivity |]. simpl.
  repeat split; minmax_cases; lra.
Qed.

End BroadPhase.

(** ** Possibly infinite distances *)

Lemma xle_refl (u : xreal) : xle u u = true.
Proof.
  destruct u; simpl; try reflexivity.
  destruct (Rle_dec r r); [reflexivity | lra].
Qed.

Lemma xlt_xle (u v : xreal) : xlt u v = true -> xle u v = true.
Proof.
  destruct u, v; simpl; try reflexivity; try discriminate.
  destruct (Rlt_dec r r0), (Rle_dec r r0); try reflexivity; try discriminate; lra.
Qed.

Lemma xlt_false_xle (u v : xreal) : xlt u v = false -> xle v u = true.
Proof.
  destruct u, v; simpl; try reflexivity; try discriminate.
  destruct (Rlt_dec r r0), (Rle_dec r0 r); try reflexivity; try discriminate; lra.
Qed.

Lemma xle_trans (u v w : xreal) :
  xle u v = true -> xle v w = true -> xle u w = true.
Proof.
  destruct u, v, w; simpl; try reflexivity; try discriminate.
  destruct (Rle_dec r r0), (Rle_dec r0 r1), (Rle_dec r r1);
    try reflexivity; try discriminate; lra.
Qed.

(** ** Ray casting *)

Section Raycast.

Import HybridCollisionSystem.

Variable s : HybridCollisionSystem.t.
Variable ray : Ray.
Variable maxDistance : xreal.

Lemma candidate_unique (ref : ObjectRef) (h h' : OBB.RayHit) :
  candidate s ray maxDistance ref h -> candidate s ray maxDistance ref h' -> h = h'.
Proof.
  intros (o & S1 & I1 & _) (o' & S2 & I2 & _). congruence.
Qed.

(** One step either keeps the closest hit so far, which is then at least
    as close as the hit of this object, or replaces it by the hit of this
    object, which is then strictly closer. *)
Lemma raycastStep_cases (closestHit : option Hit) (ref : ObjectRef) :
  (raycastStep s ray maxDistance closestHit ref = closestHit /\
   forall h, candidate s ray maxDistance ref h ->
             exists c, closestHit = Some c /\
                       xle (distance c) (OBB.distance h) = true)
  \/
  (exists h, candidate s ray maxDistance ref h /\
             raycastStep s ray maxDistance closestHit ref
               = Some (mkHit ref (OBB.distance h) (OBB.point h)) /\
             forall c, closestHit = Some c ->
                       xlt (OBB.distance h) (distance c) = true).
Proof.
  unfold raycastStep.
  destruct (store s ref) as [obj |] eqn:S.
  - destruct (OBB.intersectsRay (obb obj) ray) as [hit |] eqn:I.
    + destruct (xle (OBB.distance hit) maxDistance) eqn:L.
      * assert (C : candidate s ray maxDistance ref hit) by (exists obj; auto).
        destruct closestHit as [c |].
        -- destruct (xlt (OBB.distance hit) (distance c)) eqn:T.
           ++ right. exists hit. split; [exact C |]. split; [reflexivity |].
              intros c' E. inversion E; subst. exact T.
           ++ left. split; [reflexivity |]. intros h Hh.
              rewrite (candidate_unique ref h hit Hh C).
              exists c. split; [reflexivity | now apply xlt_false_xle].
        -- right. exists hit. split; [exact C |]. split; [reflexivity |].
           intros c E. discriminate.
      * left. split; [reflexivity |]. intros h (o & S' & I' & L').
        rewrite S in S'. inversion S'; subst o. rewrite I in I'.
        inversion I'; subst h. congruence.
    + left. split; [reflexivity |]. intros h (o & S' & I' & _).
      rewrite S in S'. inversion S'; subst o. congruence.
  - left. split; [reflexivity |]. intros h (o & S' & _). congruence.
Qed.

(** The loop of [raycast] over a list of references. *)
Lemma raycast_fold (refs : list ObjectRef) (acc : option Hit) :
  match fold_left (raycastStep s ray maxDistance) refs acc with
  | None =>
      acc = None /\
      forall ref h, In ref refs -> ~ candidate s ray maxDistance ref h
  | Some best =>
      (acc = Some best \/
       exists h, In (object best) refs /\
                 candidate s ray maxDistance (object best) h /\
                 distance best = OBB.distance h /\ point best = OBB.point h) /\
      (forall ref h, In ref refs -> candidate s ray maxDistance ref h ->
                     xle (distance best) (OBB.distance h) = true) /\
      (forall c, acc = Some c -> xle (distance best) (distance c) = true)
  end.
Proof.
  revert acc. induction refs as [| ref refs IH]; intros acc; simpl.
  - destruct acc as [c |].
    + split; [left; reflexivity |]. split; [intros ? ? [] |].
      intros c' E. inversion E. apply xle_refl.
    + split; [reflexivity | intros ? ? []].
  - specialize (IH (raycastStep s ray maxDistance acc ref)).
    destruct (raycastStep_cases acc ref) as [[Keep Hle] | (h & C & New & Hlt)].
    + rewrite Keep in *.
      destruct (fold_left (raycastStep s ray maxDistance) refs acc) as [best |].
      * destruct IH as (Hsrc & Hmin & Hacc). split; [| split].
        -- destruct Hsrc as [E | (h & Hin & Hc)]; [left; exact E |].
           right. exists h. split; [right; exact Hin | exact Hc].
        -- intros ref' h' [<- | Hin] Hc; [| eauto].
           destruct (Hle _ Hc) as (c & Ec & Lc).
           eapply xle_trans; [apply (Hacc _ Ec) | exact Lc].
        -- exact Hacc.
      * destruct IH as [E Hnone]. split; [exact E |].
        intros ref' h' [<- | Hin]; [| eauto].
        intros Hc. destruct (Hle _ Hc) as (c & Ec & _). congruence.
    + rewrite New in *.
      destruct (fold_left (raycastStep s ray maxDistance) refs
                  (Some (mkHit ref (OBB.distance h) (OBB.point h)))) as [best |].
      * destruct IH as (Hsrc & Hmin & Hacc).
        specialize (Hacc _ eq_refl). simpl in Hacc. split; [| split].
        -- right. destruct Hsrc as [E | (h' & Hin & Hc)].
           ++ inversion E; subst best. simpl. exists h.
              split; [left; reflexivity | auto].
           ++ exists h'. split; [right; exact Hin | exact Hc].
        -- intros ref' h' [<- | Hin] Hc; [| eauto].
           now rewrite (candidate_unique ref h' h Hc C).
        -- intros c Ec. eapply xle_trans; [exact Hacc |].
           apply xlt_xle. auto.
      * destruct IH as [E _]. discriminate.
Qed.

End Raycast.

(** ** The slab loop of [intersectsRay] *)

Lemma rayLoop_parallel (b : OBB.t) (r : Ray) (rc : Vector3) (i : nat)
      (rest : list nat) (tMin tMax : xreal) :
  Rabs (dot (direction r) (nth i (OBB.getAxes b) (mkVector3 0 0 0))) < OBB.epsilon ->
  Rabs (dot rc (nth i (OBB.getAxes b) (mkVector3 0 0 0)))
    <= getComponent (OBB.halfExtents b) i ->
  OBB.rayLoop b r rc (i :: rest) tMin tMax = OBB.rayLoop b r rc rest tMin tMax.
Proof.
  intros Hp Hin. cbn [OBB.rayLoop]. cbv zeta.
  destruct (Rlt_dec _ OBB.epsilon) as [_ | N]; [| contradiction].
  destruct (Rgt_dec _ _) as [G | _]; [lra | reflexivity].
Qed.

Lemma rayLoop_slab (b : OBB.t) (r : Ray) (rc : Vector3) (i : nat)
      (rest : list nat) (tMin tMax : xreal) (rd cd he : R) :
  dot (direction r) (nth i (OBB.getAxes b) (mkVector3 0 0 0)) = rd ->
  dot rc (nth i (OBB.getAxes b) (mkVector3 0 0 0)) = cd ->
  getComponent (OBB.halfExtents b) i = he ->
  ~ Rabs rd < OBB.epsilon ->
  OBB.rayLoop b r rc (i :: rest) tMin tMax =
  (let tMin' := xmax tMin (Finite (Rmin ((cd - he) / rd) ((cd + he) / rd))) in
   let tMax' := xmin tMax (Finite (Rmax ((cd - he) / rd) ((cd + he) / rd))) in
   if xlt tMax' tMin' then None else OBB.rayLoop b r rc rest tMin' tMax').
Proof.
  intros <- <- <- N. cbn [OBB.rayLoop]. cbv zeta.
  destruct (Rlt_dec _ OBB.epsilon) as [L | _]; [contradiction | reflexivity].
Qed.

(** The ray of the scenario against the unit box at the origin: it enters
    at distance 4, at the point (-1, 0, 0). *)
Lemma intersectsRay_scenario :
  OBB.intersectsRay (Scenario.unitBoxAt 0 0 0) Scenario.rayAlongX =
  Some (OBB.mkRayHit (Finite 4)
          (mkPoint3 (Num (Finite (-1))) (Num (Finite 0)) (Num (Finite 0)))).
Proof.
  unfold OBB.intersectsRay.
  rewrite (rayLoop_slab _ _ _ _ _ _ _ 1 5 1);
    [ | unfold dot; simpl; ring | unfold dot; simpl; ring | reflexivity
      | rewrite Rabs_R1; unfold OBB.epsilon; lra ].
  cbn zeta. cbn [xmax xmin].
  rewrite (Rmin_eq_l ((5 - 1) / 1) ((5 + 1) / 1)) by lra.
  rewrite (Rmax_eq_r ((5 - 1) / 1) ((5 + 1) / 1)) by lra.
  cbn [xlt]. destruct (Rlt_dec ((5 + 1) / 1) ((5 - 1) / 1)) as [L | _]; [lra |].
  rewrite rayLoop_parallel;
    [ | unfold dot; simpl;
        replace (1 * (1 * 0 + 0 * 1 + 0 * 0) + 0 * (0 * 0 + 1 * 1 + 0 * 0)
                 + 0 * (0 * 0 + 0 * 1 + 1 * 0)) with 0 by ring;
        rewrite Rabs_R0; unfold OBB.epsilon; lra
      | unfold dot; simpl;
        match goal with |- Rabs ?e <= 1 => replace e with 0 by ring end;
        rewrite Rabs_R0; lra ].
  rewrite rayLoop_parallel;
    [ | unfold dot; simpl;
        match goal with |- Rabs ?e < _ => replace e with 0 by ring end;
        rewrite Rabs_R0; unfold OBB.epsilon; lra
      | unfold dot; simpl;
        match goal with |- Rabs ?e <= 1 => replace e with 0 by ring end;
        rewrite Rabs_R0; lra ].
  cbn [OBB.rayLoop xlt].
  destruct (Rlt_dec 0 ((5 - 1) / 1)) as [_ | N]; [| lra].
  unfold pointAt, Scenario.rayAlongX; simpl.
  destruct (Rlt_dec ((5 - 1) / 1) 0) as [L | _]; [lra |].
  replace ((5 - 1) / 1) with 4 by lra.
  replace (-5 + 1 * 4) with (-1) by lra.
  replace (0 + 0 * 4) with 0 by lra.
  reflexivity.
Qed.

Lemma length_unit_x : length (mkVector3 1 0 0) = 1.
Proof.
  unfold length, lengthSq; simpl.
  replace (1 * 1 + 0 * 0 + 0 * 0) with 1 by ring. apply sqrt_1.
Qed.

Lemma length_unit_y : length (mkVector3 0 1 0) = 1.
Proof.
  unfold length, lengthSq; simpl.
  replace (0 * 0 + 1 * 1 + 0 * 0) with 1 by ring. apply sqrt_1.
Qed.

Lemma length_unit_z : length (mkVector3 0 0 1) = 1.
Proof.
  unfold length, lengthSq; simpl.
  replace (0 * 0 + 0 * 0 + 1 * 1) with 1 by ring. apply sqrt_1.
Qed.

Lemma cube_not_empty :
  isEmpty (mkBox3 (mkVector3 (-1) (-1) (-1)) (mkVector3 1 1 1)) = false.
Proof.
  unfold isEmpty; simpl.
  destruct (Rlt_dec 1 (-1)) as [L | _]; [lra | reflexivity].
Qed.

(** The OBB that [fromMesh] builds for the cube at the origin. *)
Lemma fromMesh_cubeAtOrigin :
  OBB.fromMesh Scenario.cubeAtOrigin = Scenario.unitBoxAt 0 0 0.
Proof.
  unfold OBB.fromMesh, Scenario.cubeAtOrigin, Scenario.cubeMesh,
    Scenario.unitBoxAt, Scenario.alignedBox.
  cbn [boundingBox matrixWorld].
  unfold getCenter, getSize. rewrite cube_not_empty.
  unfold setFromMatrixScale, identity4. cbn [m0 m1 m2 m4 m5 m6 m8 m9 m10].
  rewrite length_unit_x, length_unit_y, length_unit_z.
  f_equal; apply vector_ext; simpl; field.
Qed.

(** The OBB that [fromMesh] builds for the cube at (10, 0, 0). *)
Lemma fromMesh_cubeAtTen :
  OBB.fromMesh Scenario.cubeAtTen = Scenario.unitBoxAt 10 0 0.
Proof.
  unfold OBB.fromMesh, Scenario.cubeAtTen, Scenario.cubeMesh,
    Scenario.unitBoxAt, Scenario.alignedBox.
  cbn [boundingBox matrixWorld].
  unfold getCenter, getSize. rewrite cube_not_empty.
  unfold setFromMatrixScale. cbn [m0 m1 m2 m4 m5 m6 m8 m9 m10].
  rewrite length_unit_x, length_unit_y, length_unit_z.
  f_equal; apply vector_ext; simpl; field.
Qed.

Section RaycastClaim.

Import HybridCollisionSystem.

(** C7.  [raycast] returns a hit of a registered object, with the distance
    and the point that [intersectsRay] computes for the OBB of that object,
    within [maxDistance] and at most as far as the hit of every registered
    OBB within [maxDistance]; it returns null exactly when no registered
    OBB yields a hit within [maxDistance].  For the ray from (-5,0,0) along
    (1,0,0) and a single registered object whose OBB is the unit box at
    the origin, the hit has distance 4 and point (-1,0,0). *)
Theorem raycast_returns_closest_hit :
  (forall (s : HybridCollisionSystem.t) (ray : Ray) (maxDistance : xreal),
     match raycast s ray maxDistance with
     | Some best =>
         exists h,
           In (object best) (map snd (objects s)) /\
           candidate s ray maxDistance (object best) h /\
           distance best = OBB.distance h /\ point best = OBB.point h /\
           forall ref h', In ref (map snd (objects s)) ->
                          candidate s ray maxDistance ref h' ->
                          xle (distance best) (OBB.distance h') = true
     | None =>
         forall ref h', In ref (map snd (objects s)) ->
                        ~ candidate s ray maxDistance ref h'
     end) /\
  (forall (s : HybridCollisionSystem.t) (id0 : string) (ref : ObjectRef)
          (obj : CollisionObject) (maxDistance : xreal),
     objects s = [(id0, ref)] ->
     store s ref = Some obj ->
     obb obj = Scenario.unitBoxAt 0 0 0 ->
     xle (Finite 4) maxDistance = true ->
     raycast s Scenario.rayAlongX maxDistance =
     Some (mkHit ref (Finite 4)
                 (mkPoint3 (Num (Finite (-1))) (Num (Finite 0)) (Num (Finite 0))))).
Proof.
  split.
  - intros s ray maxDistance. unfold raycast.
    pose proof (raycast_fold s ray maxDistance (map snd (objects s)) None) as H.
    destruct (fold_left _ _ None) as [best |].
    + destruct H as (Hsrc & Hmin & _).
      destruct Hsrc as [E | (h & Hin & Hc & Hd & Hp)]; [discriminate |].
      exists h. auto.
    + destruct H as [_ H]. exact H.
  - intros s id0 ref obj maxDistance Hobjs Hstore Hobb Hmax.
    unfold raycast. rewrite Hobjs. cbn [map snd fold_left]. unfold raycastStep.
    rewrite Hstore, Hobb, intersectsRay_scenario.
    cbn [OBB.distance OBB.point]. rewrite Hmax. reflexivity.
Qed.

(** The scenario on the system that registers the cube at the origin. *)
Lemma raycast_returns_closest_hit_witness :
  raycast Scenario.singleCube Scenario.rayAlongX Infinity =
  Some (mkHit 0%nat (Finite 4)
              (mkPoint3 (Num (Finite (-1))) (Num (Finite 0)) (Num (Finite 0)))).
Proof.
  apply (proj2 raycast_returns_closest_hit Scenario.singleCube "cube"%string 0%nat
               (mkCollisionObject "cube"%string 0%nat
                                  (OBB.fromMesh Scenario.cubeAtOrigin) box)
               Infinity).
  - reflexivity.
  - reflexivity.
  - apply fromMesh_cubeAtOrigin.
  - reflexivity.
Defined.

End RaycastClaim.

(** ** Registration *)

Section Registration.

Import HybridCollisionSystem.

Lemma update_same {V : Type} (f : nat -> V) (k : nat) (v : V) :
  update f k v k = v.
Proof. unfold update. now rewrite Nat.eqb_refl. Qed.

Lemma update_other {V : Type} (f : nat -> V) (k k' : nat) (v : V) :
  k' <> k -> update f k v k' = f k'.
Proof.
  intros N. unfold update. destruct (Nat.eqb k' k) eqn:E; [| reflexivity].
  apply Nat.eqb_eq in E. contradiction.
Qed.

Lemma create_wellFormed (ms : MeshRef -> Mesh) : wellFormed (create ms).
Proof. intros id0 ref []. Qed.

Lemma addObject_wellFormed (setFromObject : SetFromObject)
      (s s' : HybridCollisionSystem.t) (id0 : string)
      (m : MeshRef) (shape : ShapeType) :
  wellFormed s -> addObject setFromObject s id0 m shape = OBB.Returns s' ->
  wellFormed s'.
Proof.
  intros W E. unfold addObject in E. inversion E; subst s'; clear E.
  intros id1 ref. simpl. intros H. apply In_set in H.
  destruct H as [H | H]; [inversion H; lia |].
  apply W in H. lia.
Qed.

Lemma removeObject_wellFormed (s : HybridCollisionSystem.t) (id0 : string) :
  wellFormed s -> wellFormed (removeObject s id0).
Proof.
  intros W id1 ref. simpl. intros H. apply In_delete in H. now apply (W id1).
Qed.

Lemma resolveCollision_wellFormed (s s' : HybridCollisionSystem.t)
      (collision : HybridCollisionResult) (strength : R) :
  wellFormed s -> resolveCollision s collision strength = OBB.Returns s' ->
  wellFormed s'.
Proof.
  intros W E. unfold resolveCollision in E.
  destruct (store s (object1 collision)); [| discriminate].
  destruct (store s (object2 collision)); [| discriminate].
  inversion E; subst s'. exact W.
Qed.

(** C2 (as amended).  [addObject] returns without an error, whether or not
    the identifier is registered already.  Afterwards the identifier is
    registered with the OBB that [OBB.fromMesh] computes for the given mesh
    and with the footprint of the world box of that mesh; an earlier
    registration of the identifier is replaced.  Every other identifier
    keeps its object and its rectangle. *)
Theorem addObject_replaces_registration
        (setFromObject : SetFromObject)
        (s : HybridCollisionSystem.t) (id0 : string) (m : MeshRef)
        (shape : ShapeType) :
  wellFormed s ->
  exists s',
    addObject setFromObject s id0 m shape = OBB.Returns s' /\
    lookup s' id0 =
      Some (mkCollisionObject id0 m (OBB.fromMesh (meshes s m)) shape) /\
    AkashicCollisionSystem.getBody (akashicSystem s') id0 =
      Some (footprint (fst (setFromObject (meshes s m)))) /\
    forall id1, id1 <> id0 ->
      lookup s' id1 = lookup s id1 /\
      AkashicCollisionSystem.getBody (akashicSystem s') id1 =
      AkashicCollisionSystem.getBody (akashicSystem s) id1.
Proof.
  intros W. eexists. split; [reflexivity |]. split; [| split].
  - unfold lookup. simpl. rewrite get_set_same. apply update_same.
  - unfold AkashicCollisionSystem.getBody. simpl. apply get_set_same.
  - intros id1 N. split.
    + unfold lookup. simpl. rewrite get_set_other by assumption.
      destruct (JSMap.get (objects s) id1) as [ref |] eqn:G; [| reflexivity].
      apply update_other. apply get_In in G. apply W in G. lia.
    + unfold AkashicCollisionSystem.getBody. simpl.
      now apply get_set_other.
Qed.

Lemma singleCube_wellFormed : wellFormed Scenario.singleCube.
Proof.
  unfold Scenario.singleCube, Scenario.afterAddObject.
  eapply addObject_wellFormed; [apply create_wellFormed | reflexivity].
Qed.

(** Registering "cube" a second time, now with the cube at (10, 0, 0). *)
Lemma addObject_replaces_registration_witness :
  exists s',
    addObject Scenario.translated Scenario.singleCube "cube" 1%nat cylinder
      = OBB.Returns s' /\
    lookup s' "cube" =
      Some (mkCollisionObject "cube" 1%nat
              (OBB.fromMesh (meshes Scenario.singleCube 1%nat)) cylinder) /\
    AkashicCollisionSystem.getBody (akashicSystem s') "cube" =
      Some (footprint (fst (Scenario.translated
                              (meshes Scenario.singleCube 1%nat)))) /\
    forall id1, id1 <> "cube"%string ->
      lookup s' id1 = lookup Scenario.singleCube id1 /\
      AkashicCollisionSystem.getBody (akashicSystem s') id1 =
      AkashicCollisionSystem.getBody (akashicSystem Scenario.singleCube) id1.
Proof.
  apply (addObject_replaces_registration Scenario.translated
           Scenario.singleCube "cube" 1%nat cylinder).
  exact singleCube_wellFormed.
Defined.

(** C2, the claim as stated fails.  "cube" is registered with the unit box
    at the origin and the rectangle from (-1,-1).  Adding "cube" again with
    the mesh at (10, 0, 0) returns normally, and "cube" is now registered
    with the unit box at (10, 0, 0) and the rectangle from (9,-1). *)
Lemma addObject_overwrites_duplicate :
  (exists o r, lookup Scenario.singleCube "cube" = Some o /\
               obb o = Scenario.unitBoxAt 0 0 0 /\
               AkashicCollisionSystem.getBody (akashicSystem Scenario.singleCube)
                 "cube" = Some r /\
               AkashicCollisionSystem.x r = -1) /\
  (exists s' o' r',
     addObject Scenario.translated Scenario.singleCube "cube" 1%nat cylinder
       = OBB.Returns s' /\
     lookup s' "cube" = Some o' /\
     obb o' = Scenario.unitBoxAt 10 0 0 /\
     obb o' <> Scenario.unitBoxAt 0 0 0 /\
     AkashicCollisionSystem.getBody (akashicSystem s') "cube" = Some r' /\
     AkashicCollisionSystem.x r' = 9).
Proof.
  assert (E0 : isEmpty (fst (Scenario.translated Scenario.cubeAtOrigin)) = false).
  { unfold isEmpty; simpl.
    destruct (Rlt_dec (1 + 0) (-1 + 0)) as [L | _]; [lra | reflexivity]. }
  assert (E1 : isEmpty (fst (Scenario.translated Scenario.cubeAtTen)) = false).
  { unfold isEmpty; simpl.
    destruct (Rlt_dec (1 + 10) (-1 + 10)) as [L | _]; [lra |].
    destruct (Rlt_dec (1 + 0) (-1 + 0)) as [L | _]; [lra | reflexivity]. }
  split.
  - eexists. eexists. split; [reflexivity |].
    split; [apply fromMesh_cubeAtOrigin |]. split; [reflexivity |].
    cbn [AkashicCollisionSystem.x]. unfold getCenter, getSize.
    change (meshes (create Scenario.twoCubes) 0%nat) with Scenario.cubeAtOrigin.
    rewrite E0. simpl. field.
  - eexists. eexists. eexists. split; [reflexivity |].
    split; [reflexivity |]. cbn [obb].
    change (meshes Scenario.singleCube 1%nat) with Scenario.cubeAtTen.
    rewrite fromMesh_cubeAtTen.
    split; [reflexivity |]. split.
    + intros E. apply (f_equal (fun b => Three.x (OBB.center b))) in E.
      simpl in E. lra.
    + split; [reflexivity |].
      cbn [AkashicCollisionSystem.x]. unfold getCenter, getSize.
      rewrite E1. simpl. field.
Qed.

End Registration.

(** ** Collision resolution *)

Section Resolution.

Import HybridCollisionSystem.

Lemma positionSub_same (ms : MeshRef -> Mesh) (m : MeshRef) (v : Vector3) :
  position (positionSub ms m v m) = sub (position (ms m)) v.
Proof. unfold positionSub. now rewrite update_same. Qed.

Lemma positionAdd_same (ms : MeshRef -> Mesh) (m : MeshRef) (v : Vector3) :
  position (positionAdd ms m v m) = add (position (ms m)) v.
Proof. unfold positionAdd. now rewrite update_same. Qed.

Lemma positionSub_other (ms : MeshRef -> Mesh) (m m' : MeshRef) (v : Vector3) :
  m' <> m -> positionSub ms m v m' = ms m'.
Proof. intros N. unfold positionSub. now apply update_other. Qed.

Lemma positionAdd_other (ms : MeshRef -> Mesh) (m m' : MeshRef) (v : Vector3) :
  m' <> m -> positionAdd ms m v m' = ms m'.
Proof. intros N. unfold positionAdd. now apply update_other. Qed.

Lemma refreshOBB_same (ms : MeshRef -> Mesh)
      (st : ObjectRef -> option CollisionObject) (ref : ObjectRef)
      (obj : CollisionObject) :
  st ref = Some obj ->
  refreshOBB ms st ref ref =
  Some (mkCollisionObject (id obj) (mesh obj) (OBB.fromMesh (ms (mesh obj)))
                          (shapeType obj)).
Proof. intros H. unfold refreshOBB. rewrite H. apply update_same. Qed.

Lemma refreshOBB_other (ms : MeshRef -> Mesh)
      (st : ObjectRef -> option CollisionObject) (ref ref' : ObjectRef) :
  ref' <> ref -> refreshOBB ms st ref ref' = st ref'.
Proof.
  intros N. unfold refreshOBB. destruct (st ref); [| reflexivity].
  now apply update_other.
Qed.

(** The object behind a reference after the two refreshes of
    [resolveCollision]. *)
Lemma refresh_both (ms : MeshRef -> Mesh)
      (st : ObjectRef -> option CollisionObject) (r1 r2 : ObjectRef)
      (obj1 obj2 : CollisionObject) :
  st r1 = Some obj1 -> st r2 = Some obj2 ->
  refreshOBB ms (refreshOBB ms st r1) r2 r1 =
    Some (mkCollisionObject (id obj1) (mesh obj1)
            (OBB.fromMesh (ms (mesh obj1))) (shapeType obj1)) /\
  refreshOBB ms (refreshOBB ms st r1) r2 r2 =
    Some (mkCollisionObject (id obj2) (mesh obj2)
            (OBB.fromMesh (ms (mesh obj2))) (shapeType obj2)).
Proof.
  intros H1 H2. destruct (Nat.eq_dec r2 r1) as [-> | N].
  - assert (obj2 = obj1) by congruence. subst obj2.
    pose proof (refreshOBB_same ms st r1 obj1 H1) as E.
    rewrite (refreshOBB_same ms _ r1 _ E). cbn [id mesh shapeType]. auto.
  - split.
    + rewrite refreshOBB_other by auto. now apply refreshOBB_same.
    + apply refreshOBB_same. now rewrite refreshOBB_other.
Qed.

(** The records that the pipeline builds repeat the depth, the axis and
    the contact point of their [obbResult]. *)
Lemma checkCollisionBetween_record (s : HybridCollisionSystem.t)
      (ida idb : string) (c : HybridCollisionResult) :
  checkCollisionBetween s ida idb = OBB.Returns (Some c) ->
  penetrationDepth c = OBB.penetrationDepth (obbResult c) /\
  separatingAxis c = OBB.separatingAxis (obbResult c) /\
  contactPoint c = OBB.contactPoint (obbResult c) /\
  OBB.isColliding (obbResult c) = true.
Proof.
  unfold checkCollisionBetween.
  destruct (JSMap.get (objects s) ida) as [r1 |]; [| discriminate].
  destruct (JSMap.get (objects s) idb) as [r2 |]; [| discriminate].
  destruct (store s r1) as [o1 |]; [| discriminate].
  destruct (store s r2) as [o2 |]; [| discriminate].
  destruct (AkashicCollisionSystem.getBody (akashicSystem s) ida) as [b1 |];
    [| discriminate].
  destruct (AkashicCollisionSystem.getBody (akashicSystem s) idb) as [b2 |];
    [| discriminate].
  cbv zeta.
  destruct (Rle_dec _ 0); [discriminate |].
  destruct (Rle_dec _ 0); [discriminate |].
  destruct (OBB.intersects (obb o1) (obb o2)) as [r |]; [| discriminate].
  destruct (OBB.isColliding r) eqn:E; [| discriminate].
  intros H. inversion H; subst c. simpl. auto.
Qed.

(** C8 (as amended).  For a record whose two objects have distinct meshes,
    with depth d and axis n in its [obbResult], [resolveCollision] moves
    the mesh of object1 by -0.5 d s n and the mesh of object2 by
    +0.5 d s n.  The two objects keep their id, their mesh and their shape
    type; no other mesh and no other object changes, nor do the
    registrations.  Nothing is said here about the OBBs of the two objects
    after the call. *)
Theorem resolveCollision_moves_both
        (s : HybridCollisionSystem.t) (collision : HybridCollisionResult)
        (strength : R) (obj1 obj2 : CollisionObject) :
  store s (object1 collision) = Some obj1 ->
  store s (object2 collision) = Some obj2 ->
  mesh obj1 <> mesh obj2 ->
  let d := OBB.penetrationDepth (obbResult collision) in
  let n := OBB.separatingAxis (obbResult collision) in
  exists s',
    resolveCollision s collision strength = OBB.Returns s' /\
    position (meshes s' (mesh obj1)) =
      sub (position (meshes s (mesh obj1)))
          (multiplyScalar n (1 / 2 * d * strength)) /\
    position (meshes s' (mesh obj2)) =
      add (position (meshes s (mesh obj2)))
          (multiplyScalar n (1 / 2 * d * strength)) /\
    (forall m, m <> mesh obj1 -> m <> mesh obj2 -> meshes s' m = meshes s m) /\
    (exists obj1', store s' (object1 collision) = Some obj1' /\
       id obj1' = id obj1 /\ mesh obj1' = mesh obj1 /\
       shapeType obj1' = shapeType obj1) /\
    (exists obj2', store s' (object2 collision) = Some obj2' /\
       id obj2' = id obj2 /\ mesh obj2' = mesh obj2 /\
       shapeType obj2' = shapeType obj2) /\
    (forall ref, ref <> object1 collision -> ref <> object2 collision ->
                 store s' ref = store s ref) /\
    objects s' = objects s /\ akashicSystem s' = akashicSystem s.
Proof.
  intros H1 H2 Hm d n. unfold resolveCollision. rewrite H1, H2.
  eexists. split; [reflexivity |]. cbn [meshes store objects akashicSystem].
  split; [| split; [| split; [| split; [| split; [| split]]]]].
  - rewrite positionAdd_other by assumption. rewrite positionSub_same.
    f_equal. apply vector_ext; simpl; unfold d, n; field.
  - rewrite positionAdd_same. rewrite positionSub_other by auto.
    f_equal. apply vector_ext; simpl; unfold d, n; field.
  - intros m N1 N2. rewrite positionAdd_other by assumption.
    now apply positionSub_other.
  - eexists. split; [now apply (refresh_both _ (store s) _ _ obj1 obj2) |].
    cbn [id mesh shapeType]. auto.
  - eexists. split; [now apply (refresh_both _ (store s) _ _ obj1 obj2) |].
    cbn [id mesh shapeType]. auto.
  - intros ref N1 N2. rewrite !refreshOBB_other by assumption. reflexivity.
  - split; reflexivity.
Qed.

(** The two overlapping cubes pushed apart with strength 1/2. *)
Lemma resolveCollision_moves_both_witness :
  exists s',
    resolveCollision Scenario.overlappingCubes Scenario.overlappingCubesRecord
                     (1 / 2) = OBB.Returns s' /\
    position (meshes s' 0%nat) =
      sub (position (meshes Scenario.overlappingCubes 0%nat))
          (multiplyScalar (mkVector3 1 0 0) (1 / 2 * (1 / 2) * (1 / 2))) /\
    position (meshes s' 1%nat) =
      add (position (meshes Scenario.overlappingCubes 1%nat))
          (multiplyScalar (mkVector3 1 0 0) (1 / 2 * (1 / 2) * (1 / 2))) /\
    (forall m, m <> 0%nat -> m <> 1%nat ->
               meshes s' m = meshes Scenario.overlappingCubes m) /\
    (exists obj1', store s' 0%nat = Some obj1' /\
       id obj1' = "a"%string /\ mesh obj1' = 0%nat /\ shapeType obj1' = box) /\
    (exists obj2', store s' 1%nat = Some obj2' /\
       id obj2' = "b"%string /\ mesh obj2' = 1%nat /\ shapeType obj2' = box) /\
    (forall ref, ref <> 0%nat -> ref <> 1%nat ->
                 store s' ref = store Scenario.overlappingCubes ref) /\
    objects s' = objects Scenario.overlappingCubes /\
    akashicSystem s' = akashicSystem Scenario.overlappingCubes.
Proof.
  apply (resolveCollision_moves_both
           Scenario.overlappingCubes Scenario.overlappingCubesRecord (1 / 2)
           (mkCollisionObject "a" 0%nat (OBB.fromMesh Scenario.cubeAtOrigin) box)
           (mkCollisionObject "b" 1%nat (OBB.fromMesh Scenario.cubeNear) box)).
  - reflexivity.
  - reflexivity.
  - simpl. discriminate.
Defined.

(** [fromMesh] reads the cached world matrix and the box of the geometry,
    not the position: the OBBs that [resolveCollision] recomputes are those
    of the meshes before the move, until the library brings the world
    matrices up to date. *)
Lemma fromMesh_positionSub (ms : MeshRef -> Mesh) (m m' : MeshRef) (v : Vector3) :
  OBB.fromMesh (positionSub ms m v m') = OBB.fromMesh (ms m').
Proof.
  unfold positionSub, update. destruct (Nat.eqb m' m) eqn:E; [| reflexivity].
  apply Nat.eqb_eq in E. subst m'. reflexivity.
Qed.

Lemma fromMesh_positionAdd (ms : MeshRef -> Mesh) (m m' : MeshRef) (v : Vector3) :
  OBB.fromMesh (positionAdd ms m v m') = OBB.fromMesh (ms m').
Proof.
  unfold positionAdd, update. destruct (Nat.eqb m' m) eqn:E; [| reflexivity].
  apply Nat.eqb_eq in E. subst m'. reflexivity.
Qed.

Lemma resolveCollision_obb_of_cached_matrix
      (s s' : HybridCollisionSystem.t) (collision : HybridCollisionResult)
      (strength : R) (m : MeshRef) :
  resolveCollision s collision strength = OBB.Returns s' ->
  OBB.fromMesh (meshes s' m) = OBB.fromMesh (meshes s m).
Proof.
  unfold resolveCollision.
  destruct (store s (object1 collision)); [| discriminate].
  destruct (store s (object2 collision)); [| discriminate].
  intros E. inversion E; subst s'. cbn [meshes].
  now rewrite fromMesh_positionAdd, fromMesh_positionSub.
Qed.

(** The pipeline itself reports the two registrations of the one cube as
    colliding, with depth 2. *)
Lemma sharedCube_collides :
  exists r,
    checkCollisionBetween Scenario.sharedCube "a" "b"
      = OBB.Returns (Some (record 0%nat 1%nat r)) /\
    OBB.isColliding r = true /\ OBB.penetrationDepth r = 2.
Proof.
  destruct (aligned_intersects (Scenario.unitBoxAt 0 0 0) (Scenario.unitBoxAt 0 0 0)
              eq_refl eq_refl) as (r & Hr & Hiff & Hdepth & _).
  assert (Ex : SAT.alignedOverlapX (Scenario.unitBoxAt 0 0 0)
                 (Scenario.unitBoxAt 0 0 0) = 2)
    by (unfold SAT.alignedOverlapX, SAT.intervalOverlap; simpl; minmax_cases; lra).
  assert (Ey : SAT.alignedOverlapY (Scenario.unitBoxAt 0 0 0)
                 (Scenario.unitBoxAt 0 0 0) = 2)
    by (unfold SAT.alignedOverlapY, SAT.intervalOverlap; simpl; minmax_cases; lra).
  assert (Ez : SAT.alignedOverlapZ (Scenario.unitBoxAt 0 0 0)
                 (Scenario.unitBoxAt 0 0 0) = 2)
    by (unfold SAT.alignedOverlapZ, SAT.intervalOverlap; simpl; minmax_cases; lra).
  rewrite Ex, Ey, Ez in *.
  assert (Hc : OBB.isColliding r = true) by (apply Hiff; lra).
  exists r. split; [| split; [exact Hc |]].
  - unfold checkCollisionBetween.
    change (JSMap.get (objects Scenario.sharedCube) "a") with (Some 0%nat).
    change (JSMap.get (objects Scenario.sharedCube) "b") with (Some 1%nat).
    cbv beta iota.
    change (store Scenario.sharedCube 0%nat)
      with (Some (mkCollisionObject "a" 0%nat
                    (OBB.fromMesh Scenario.cubeAtOrigin) box)).
    change (store Scenario.sharedCube 1%nat)
      with (Some (mkCollisionObject "b" 0%nat
                    (OBB.fromMesh Scenario.cubeAtOrigin) box)).
    cbv beta iota.
    change (AkashicCollisionSystem.getBody (akashicSystem Scenario.sharedCube) "a")
      with (Some (footprint (fst (Scenario.translated Scenario.cubeAtOrigin)))).
    change (AkashicCollisionSystem.getBody (akashicSystem Scenario.sharedCube) "b")
      with (Some (footprint (fst (Scenario.translated Scenario.cubeAtOrigin)))).
    cbv beta iota zeta. cbn [obb]. rewrite fromMesh_cubeAtOrigin, Hr, Hc.
    assert (E : isEmpty (fst (Scenario.translated Scenario.cubeAtOrigin)) = false).
    { unfold isEmpty; simpl.
      destruct (Rlt_dec (1 + 0) (-1 + 0)) as [L | _]; [lra | reflexivity]. }
    unfold footprint, getCenter, getSize. rewrite E.
    cbn [AkashicCollisionSystem.x AkashicCollisionSystem.y
         AkashicCollisionSystem.width AkashicCollisionSystem.height].
    match goal with
    | |- context [Rle_dec ?u 0] => destruct (Rle_dec u 0) as [L | _]
    end.
    { exfalso. revert L. simpl. minmax_cases; lra. }
    match goal with
    | |- context [Rle_dec ?u 0] => destruct (Rle_dec u 0) as [L | _]
    end.
    { exfalso. revert L. simpl. minmax_cases; lra. }
    reflexivity.
  - rewrite (Hdepth Hc). minmax_cases; lra.
Qed.

(** C8, the claim as stated fails when the two objects share their mesh.
    "a" and "b" are both registered with mesh 0.  For the record of their
    collision (depth 2 along X) and strength 1, [resolveCollision] subtracts
    the correction from the position of mesh 0 and adds it again: the mesh
    of object1 stays where it was instead of moving by -0.5 d s n. *)
Lemma resolveCollision_shared_mesh_stays :
  lookup Scenario.sharedCube "a" =
    Some (mkCollisionObject "a" 0%nat (OBB.fromMesh Scenario.cubeAtOrigin) box) /\
  lookup Scenario.sharedCube "b" =
    Some (mkCollisionObject "b" 0%nat (OBB.fromMesh Scenario.cubeAtOrigin) box) /\
  store Scenario.sharedCube (object1 Scenario.sharedCubeRecord) =
    lookup Scenario.sharedCube "a" /\
  store Scenario.sharedCube (object2 Scenario.sharedCubeRecord) =
    lookup Scenario.sharedCube "b" /\
  exists s',
    resolveCollision Scenario.sharedCube Scenario.sharedCubeRecord 1
      = OBB.Returns s' /\
    position (meshes s' 0%nat) = position (meshes Scenario.sharedCube 0%nat) /\
    position (meshes s' 0%nat) <>
      sub (position (meshes Scenario.sharedCube 0%nat))
          (multiplyScalar (OBB.separatingAxis (obbResult Scenario.sharedCubeRecord))
             (1 / 2 * OBB.penetrationDepth (obbResult Scenario.sharedCubeRecord) * 1)).
Proof.
  split; [reflexivity |]. split; [reflexivity |].
  split; [reflexivity |]. split; [reflexivity |].
  eexists. split; [reflexivity |].
  cbn [meshes]. rewrite positionAdd_same, positionSub_same.
  assert (E : add (sub (position (meshes Scenario.sharedCube 0%nat))
                      (multiplyScalar
                         (multiplyScalar
                            (OBB.separatingAxis (obbResult Scenario.sharedCubeRecord))
                            (OBB.penetrationDepth (obbResult Scenario.sharedCubeRecord) * 1))
                         (1 / (1 + 1))))
                 (multiplyScalar
                    (multiplyScalar
                       (OBB.separatingAxis (obbResult Scenario.sharedCubeRecord))
                       (OBB.penetrationDepth (obbResult Scenario.sharedCubeRecord) * 1))
                    (1 / (1 + 1)))
              = position (meshes Scenario.sharedCube 0%nat)).
  { apply vector_ext; simpl; field. }
  split.
  - exact E.
  - rewrite E. intros C. apply (f_equal Three.x) in C. simpl in C. lra.
Qed.

End Resolution.

(** * Further properties of the code *)

(** ** Cross products *)

Lemma lagrange_identity (a b : Vector3) :
  lengthSq (cross a b) = lengthSq a * lengthSq b - dot a b * dot a b.
Proof. unfold lengthSq, cross, dot; simpl. ring. Qed.

(** ** The axis and the contact point that [intersects] reports *)

(** The axis behind the result of [intersects]: a tested axis, normalized;
    a colliding result carries the overlap on it as its depth, the contact
    point computed for it, and the axis itself or its opposite. *)
Lemma intersects_axis (a b : OBB.t) (r : OBB.OBBCollisionResult) :
  OBB.intersects a b = OBB.Returns r ->
  exists v, In v (SAT.testedAxes a b) /\
    if OBB.isColliding r
    then OBB.penetrationDepth r = OBB.overlapOn a b (normalize v) /\
         OBB.contactPoint r = OBB.calculateContactPoint a b (normalize v) /\
         ((OBB.separatingAxis r = normalize v /\
           0 <= dot (normalize v) (sub (OBB.center b) (OBB.center a))) \/
          (OBB.separatingAxis r = negate (normalize v) /\
           dot (normalize v) (sub (OBB.center b) (OBB.center a)) < 0))
    else OBB.separatingAxis r = normalize v /\
         OBB.overlapOn a b (normalize v) <= 0.
Proof.
  unfold OBB.intersects.
  destruct (OBB.satLoop a b (OBB.allAxes a b) None) as [ax | st] eqn:E.
  - intros H. inversion H; subst r; clear H. cbn [OBB.isColliding OBB.separatingAxis].
    apply satLoop_separated in E. rewrite tested_allAxes in E.
    destruct E as (v & Hin & Hax & Hle). exists v. auto.
  - apply satLoop_finished in E. destruct E as [_ Hpost].
    unfold SAT.loopPost in Hpost. rewrite tested_allAxes in Hpost.
    destruct st as [[m ax] |]; [| discriminate].
    intros H. inversion H; subst r; clear H.
    cbn [OBB.isColliding OBB.separatingAxis OBB.penetrationDepth OBB.contactPoint].
    destruct Hpost as (_ & _ & [(v & Hin & Hax & Hm) | Habs]); [| discriminate].
    exists v. split; [exact Hin |]. subst ax m.
    split; [reflexivity |]. split; [reflexivity |].
    destruct (Rlt_dec _ 0) as [L | N]; [right | left]; split;
      try reflexivity; lra.
Qed.

(** X4.  The normal of a reported collision: it is a tested axis,
    normalized, or the opposite of one; it does not point from the second
    box back to the first; and the reported depth is the overlap of the
    two projections along it. *)
Theorem colliding_normal_oriented (a b : OBB.t) (r : OBB.OBBCollisionResult) :
  OBB.intersects a b = OBB.Returns r ->
  OBB.isColliding r = true ->
  (exists v, In v (SAT.testedAxes a b) /\
             (OBB.separatingAxis r = normalize v \/
              OBB.separatingAxis r = negate (normalize v))) /\
  0 <= dot (OBB.separatingAxis r) (sub (OBB.center b) (OBB.center a)) /\
  OBB.penetrationDepth r = OBB.overlapOn a b (OBB.separatingAxis r).
Proof.
  intros Hr Hc. destruct (intersects_axis a b r Hr) as (v & Hv & H).
  rewrite Hc in H. destruct H as (Hd & _ & Hax).
  destruct Hax as [[E Hs] | [E Hs]].
  - split; [exists v; auto |]. rewrite E. auto.
  - split; [exists v; auto |]. rewrite E, overlapOn_negate.
    split; [| exact Hd].
    rewrite dot_comm, dot_negate_r, dot_comm. lra.
Qed.

(** The overlapping unit boxes at the origin and at (1.5, 0, 0). *)
Lemma colliding_normal_oriented_witness :
  exists r, OBB.intersects (Scenario.unitBoxAt 0 0 0) (Scenario.unitBoxAt (3/2) 0 0)
            = OBB.Returns r /\
    (exists v, In v (SAT.testedAxes (Scenario.unitBoxAt 0 0 0)
                                    (Scenario.unitBoxAt (3/2) 0 0)) /\
               (OBB.separatingAxis r = normalize v \/
                OBB.separatingAxis r = negate (normalize v))) /\
    0 <= dot (OBB.separatingAxis r)
             (sub (OBB.center (Scenario.unitBoxAt (3/2) 0 0))
                  (OBB.center (Scenario.unitBoxAt 0 0 0))) /\
    OBB.penetrationDepth r =
    OBB.overlapOn (Scenario.unitBoxAt 0 0 0) (Scenario.unitBoxAt (3/2) 0 0)
                  (OBB.separatingAxis r).
Proof.
  destruct scenario_overlapping_boxes as (r & Hr & Hc & _).
  exists r. split; [exact Hr |].
  exact (colliding_normal_oriented _ _ r Hr Hc).
Defined.

(** X6.  The axis returned with a negative verdict is a tested axis,
    normalized, on which the projections of the two boxes have no common
    part of positive length; the depth is then 0 and the contact point the
    zero vector. *)
Theorem reported_axis_separates (a b : OBB.t) (r : OBB.OBBCollisionResult) :
  OBB.intersects a b = OBB.Returns r ->
  OBB.isColliding r = false ->
  (exists v, In v (SAT.testedAxes a b) /\ OBB.separatingAxis r = normalize v) /\
  OBB.overlapOn a b (OBB.separatingAxis r) <= 0 /\
  OBB.penetrationDepth r = 0 /\
  OBB.contactPoint r = mkVector3 0 0 0.
Proof.
  intros Hr Hc. destruct (intersects_axis a b r Hr) as (v & Hv & H).
  rewrite Hc in H. destruct H as (E & Hle).
  split; [exists v; auto |]. split; [rewrite E; exact Hle |].
  revert Hr Hc. unfold OBB.intersects.
  destruct (OBB.satLoop a b (OBB.allAxes a b) None) as [ax | [[m ax] |]];
    intros Hr Hc; inversion Hr; subst r; [split; reflexivity | discriminate].
Qed.

(** The unit boxes at the origin and at (3, 0, 0). *)
Lemma reported_axis_separates_witness :
  exists r, OBB.intersects (Scenario.unitBoxAt 0 0 0) (Scenario.unitBoxAt 3 0 0)
            = OBB.Returns r /\
    (exists v, In v (SAT.testedAxes (Scenario.unitBoxAt 0 0 0)
                                    (Scenario.unitBoxAt 3 0 0)) /\
               OBB.separatingAxis r = normalize v) /\
    OBB.overlapOn (Scenario.unitBoxAt 0 0 0) (Scenario.unitBoxAt 3 0 0)
                  (OBB.separatingAxis r) <= 0 /\
    OBB.penetrationDepth r = 0 /\
    OBB.contactPoint r = mkVector3 0 0 0.
Proof.
  destruct scenario_separated_boxes as (r & Hr & Hc & _).
  exists r. split; [exact Hr |].
  exact (reported_axis_separates _ _ r Hr Hc).
Defined.

(** ** The slabs of [intersectsRay] *)

Lemma xle_xmax_l (u v : xreal) : xle u (xmax u v) = true.
Proof.
  destruct u, v; simpl; try reflexivity.
  - destruct (Rle_dec r r); [reflexivity | lra].
  - pose proof (Rmax_l r r0). destruct (Rle_dec r (Rmax r r0)); [reflexivity | lra].
Qed.

Lemma xle_xmax_r (u v : xreal) : xle v (xmax u v) = true.
Proof.
  destruct u, v; simpl; try reflexivity.
  - destruct (Rle_dec r r); [reflexivity | lra].
  - pose proof (Rmax_r r r0). destruct (Rle_dec r0 (Rmax r r0)); [reflexivity | lra].
Qed.

Lemma xle_xmin_l (u v : xreal) : xle (xmin u v) u = true.
Proof.
  destruct u, v; simpl; try reflexivity.
  - pose proof (Rmin_l r r0). destruct (Rle_dec (Rmin r r0) r); [reflexivity | lra].
  - destruct (Rle_dec r r); [reflexivity | lra].
Qed.

Lemma xle_xmin_r (u v : xreal) : xle (xmin u v) v = true.
Proof.
  destruct u, v; simpl; try reflexivity.
  - pose proof (Rmin_r r r0). destruct (Rle_dec (Rmin r r0) r0); [reflexivity | lra].
  - destruct (Rle_dec r r); [reflexivity | lra].
Qed.

Lemma xle_Finite (u v : R) : xle (Finite u) (Finite v) = true <-> u <= v.
Proof.
  simpl. destruct (Rle_dec u v); split; intros; try reflexivity;
    try assumption; try discriminate; contradiction.
Qed.

(** What the loop leaves when it runs to its end: bounds that enclose a
    parameter range inside every slab that it has cut. *)
Lemma rayLoop_bounds (b : OBB.t) (ray : Ray) (idx : list nat)
      (tMin tMax lo hi : xreal) :
  OBB.rayLoop b ray (sub (OBB.center b) (origin ray)) idx tMin tMax
  = Some (lo, hi) ->
  xle tMin tMax = true ->
  xle tMin lo = true /\ xle hi tMax = true /\ xle lo hi = true /\
  forall i, In i idx ->
    (Slab.parallelTo b ray i ->
     Rabs (dot (sub (OBB.center b) (origin ray))
               (nth i (OBB.getAxes b) (mkVector3 0 0 0)))
     <= getComponent (OBB.halfExtents b) i) /\
    (~ Slab.parallelTo b ray i ->
     xle (Finite (Slab.tNear b ray i)) lo = true /\
     xle hi (Finite (Slab.tFar b ray i)) = true).
Proof.
  revert tMin tMax. induction idx as [| i rest IH]; intros tMin tMax H Hle.
  - simpl in H. inversion H; subst.
    repeat split; try apply xle_refl; try assumption; destruct H0.
  - cbn [OBB.rayLoop] in H. cbv zeta in H.
    destruct (Rlt_dec _ OBB.epsilon) as [P | NP].
    + destruct (Rgt_dec _ _) as [_ | NG]; [discriminate |].
      destruct (IH _ _ H Hle) as (H1 & H2 & H3 & H4).
      split; [exact H1 |]. split; [exact H2 |]. split; [exact H3 |].
      intros j [<- | Hj]; [| auto]. split; [intros _; lra | intros Hnp; contradiction].
    + fold (Slab.tNear b ray i) (Slab.tFar b ray i) in H.
      destruct (xlt (xmin tMax (Finite (Slab.tFar b ray i)))
                    (xmax tMin (Finite (Slab.tNear b ray i)))) eqn:X; [discriminate |].
      apply xlt_false_xle in X.
      destruct (IH _ _ H X) as (H1 & H2 & H3 & H4).
      split; [eapply xle_trans; [apply xle_xmax_l | exact H1] |].
      split; [eapply xle_trans; [exact H2 | apply xle_xmin_l] |].
      split; [exact H3 |].
      intros j [<- | Hj]; [| auto]. split; [intros P; contradiction | intros _].
      split.
      * eapply xle_trans; [apply xle_xmax_r | exact H1].
      * eapply xle_trans; [exact H2 | apply xle_xmin_r].
Qed.

Lemma not_parallel_nonzero (u : R) : ~ Rabs u < OBB.epsilon -> u <> 0.
Proof.
  intros H E. apply H. rewrite E, Rabs_R0. unfold OBB.epsilon. lra.
Qed.

(** The distance that [intersectsRay] picks lies between the final
    bounds. *)
Lemma intersectsRay_distance (b : OBB.t) (ray : Ray) (hit : OBB.RayHit) :
  OBB.intersectsRay b ray = Some hit ->
  exists lo hi,
    OBB.rayLoop b ray (sub (OBB.center b) (origin ray)) [0%nat; 1%nat; 2%nat]
                NegInfinity Infinity = Some (lo, hi) /\
    xle lo (OBB.distance hit) = true /\ xle (OBB.distance hit) hi = true /\
    xle (Finite 0) (OBB.distance hit) = true /\
    OBB.point hit = pointAt (origin ray) (direction ray) (OBB.distance hit).
Proof.
  unfold OBB.intersectsRay.
  destruct (OBB.rayLoop _ _ _ _ _ _) as [[lo hi] |] eqn:L; [| discriminate].
  destruct (rayLoop_bounds _ _ _ _ _ _ _ L eq_refl) as (_ & _ & Hlh & _).
  destruct (xlt (Finite 0) lo) eqn:X.
  - destruct (xlt lo (Finite 0)) eqn:Y; [discriminate |].
    intros H. inversion H; subst hit; clear H. cbn [OBB.distance OBB.point].
    exists lo, hi. split; [reflexivity |]. split; [apply xle_refl |].
    split; [exact Hlh |]. split; [now apply xlt_xle | reflexivity].
  - destruct (xlt hi (Finite 0)) eqn:Y; [discriminate |].
    intros H. inversion H; subst hit; clear H. cbn [OBB.distance OBB.point].
    exists lo, hi. split; [reflexivity |]. split; [exact Hlh |].
    split; [apply xle_refl |]. split; [now apply xlt_false_xle | reflexivity].
Qed.

(** X7.  A hit of [intersectsRay] at a finite distance [t]: the distance is
    not negative, the point is the point of the ray at [t], and for every
    axis of the box that the ray is not parallel to, [t] lies between the
    parameters [tNear] and [tFar] at which the loop has the ray enter and
    leave the slab of that axis.  On an axis that the ray counts as
    parallel to, the offset of the origin of the ray from the center is
    within the half-extent. *)
Theorem intersectsRay_hit_within_slabs
        (b : OBB.t) (ray : Ray) (hit : OBB.RayHit) (t : R) :
  OBB.intersectsRay b ray = Some hit ->
  OBB.distance hit = Finite t ->
  0 <= t /\
  OBB.point hit = mkPoint3 (Num (Finite (x (Slab.at_ ray t))))
                           (Num (Finite (y (Slab.at_ ray t))))
                           (Num (Finite (z (Slab.at_ ray t)))) /\
  forall i, (i < 3)%nat ->
    (Slab.parallelTo b ray i ->
     Rabs (dot (sub (OBB.center b) (origin ray))
               (nth i (OBB.getAxes b) (mkVector3 0 0 0)))
     <= getComponent (OBB.halfExtents b) i) /\
    (~ Slab.parallelTo b ray i ->
     Slab.tNear b ray i <= t <= Slab.tFar b ray i).
Proof.
  intros H Ht.
  destruct (intersectsRay_distance b ray hit H) as (lo & hi & L & Hlo & Hhi & H0 & Hp).
  rewrite Ht in *.
  split; [now apply xle_Finite |]. split; [rewrite Hp; reflexivity |].
  destruct (rayLoop_bounds _ _ _ _ _ _ _ L eq_refl) as (_ & _ & _ & Hall).
  intros i Hi.
  assert (Hin : In i [0%nat; 1%nat; 2%nat]) by (simpl; lia).
  destruct (Hall i Hin) as [Hpar Hcut]. split; [exact Hpar |].
  intros NP. destruct (Hcut NP) as [Hn Hf]. split.
  - apply xle_Finite. eapply xle_trans; eassumption.
  - apply xle_Finite. eapply xle_trans; eassumption.
Qed.

(** The ray of the scenario against the unit box at the origin. *)
Lemma intersectsRay_hit_within_slabs_witness :
  0 <= 4 /\
  OBB.point (OBB.mkRayHit (Finite 4)
               (mkPoint3 (Num (Finite (-1))) (Num (Finite 0)) (Num (Finite 0))))
  = mkPoint3 (Num (Finite (x (Slab.at_ Scenario.rayAlongX 4))))
             (Num (Finite (y (Slab.at_ Scenario.rayAlongX 4))))
             (Num (Finite (z (Slab.at_ Scenario.rayAlongX 4)))) /\
  forall i, (i < 3)%nat ->
    (Slab.parallelTo (Scenario.unitBoxAt 0 0 0) Scenario.rayAlongX i ->
     Rabs (dot (sub (OBB.center (Scenario.unitBoxAt 0 0 0))
                    (origin Scenario.rayAlongX))
               (nth i (OBB.getAxes (Scenario.unitBoxAt 0 0 0)) (mkVector3 0 0 0)))
     <= getComponent (OBB.halfExtents (Scenario.unitBoxAt 0 0 0)) i) /\
    (~ Slab.parallelTo (Scenario.unitBoxAt 0 0 0) Scenario.rayAlongX i ->
     Slab.tNear (Scenario.unitBoxAt 0 0 0) Scenario.rayAlongX i <= 4
     <= Slab.tFar (Scenario.unitBoxAt 0 0 0) Scenario.rayAlongX i).
Proof.
  apply (intersectsRay_hit_within_slabs (Scenario.unitBoxAt 0 0 0)
           Scenario.rayAlongX _ 4 intersectsRay_scenario eq_refl).
Defined.

Lemma containsPoint_true (o : OBB.t) (p : Vector3) :
  OBB.containsPoint o p = true ->
  Rabs (dot (sub p (OBB.center o)) (OBB.axis0 o)) <= x (OBB.halfExtents o) /\
  Rabs (dot (sub p (OBB.center o)) (OBB.axis1 o)) <= y (OBB.halfExtents o) /\
  Rabs (dot (sub p (OBB.center o)) (OBB.axis2 o)) <= z (OBB.halfExtents o).
Proof.
  unfold OBB.containsPoint, OBB.containsLoop, OBB.getAxes.
  cbn [nth getComponent].
  fold (OBB.axis0 o) (OBB.axis1 o) (OBB.axis2 o).
  destruct (Rgt_dec _ _) as [G0 | G0]; [discriminate |].
  destruct (Rgt_dec _ _) as [G1 | G1]; [discriminate |].
  destruct (Rgt_dec _ _) as [G2 | G2]; [discriminate |].
  intros _. lra.
Qed.

(** The loop started between bounds that enclose 0, on a box that contains
    the origin of the ray, runs to its end and keeps 0 enclosed. *)
Lemma rayLoop_inside (b : OBB.t) (ray : Ray) (idx : list nat) (tMin tMax : xreal) :
  (forall i, In i idx ->
     Rabs (dot (sub (OBB.center b) (origin ray))
               (nth i (OBB.getAxes b) (mkVector3 0 0 0)))
     <= getComponent (OBB.halfExtents b) i) ->
  xle tMin (Finite 0) = true -> xle (Finite 0) tMax = true ->
  exists lo hi,
    OBB.rayLoop b ray (sub (OBB.center b) (origin ray)) idx tMin tMax
    = Some (lo, hi) /\
    xle lo (Finite 0) = true /\ xle (Finite 0) hi = true.
Proof.
  revert tMin tMax. induction idx as [| i rest IH]; intros tMin tMax Hin Hlo Hhi.
  - simpl. eauto.
  - cbn [OBB.rayLoop]. cbv zeta.
    assert (Hi := Hin i (or_introl eq_refl)).
    assert (Hrest : forall j, In j rest ->
              Rabs (dot (sub (OBB.center b) (origin ray))
                        (nth j (OBB.getAxes b) (mkVector3 0 0 0)))
              <= getComponent (OBB.halfExtents b) j)
      by (intros j Hj; apply Hin; now right).
    destruct (Rlt_dec _ OBB.epsilon) as [P | NP].
    + destruct (Rgt_dec _ _) as [G | _]; [lra |]. now apply IH.
    + set (rd := dot (direction ray) (nth i (OBB.getAxes b) (mkVector3 0 0 0))) in *.
      set (cd := dot (sub (OBB.center b) (origin ray))
                     (nth i (OBB.getAxes b) (mkVector3 0 0 0))) in *.
      set (he := getComponent (OBB.halfExtents b) i) in *.
      assert (Hrd : rd <> 0) by (now apply not_parallel_nonzero).
      assert (E1 : (cd - he) / rd * rd = cd - he) by (field; exact Hrd).
      assert (E2 : (cd + he) / rd * rd = cd + he) by (field; exact Hrd).
      assert (B : Rmin ((cd - he) / rd) ((cd + he) / rd) <= 0
                  /\ 0 <= Rmax ((cd - he) / rd) ((cd + he) / rd)).
      { set (q1 := (cd - he) / rd) in *. set (q2 := (cd + he) / rd) in *.
        assert (A1 : cd - he <= 0) by (revert Hi; minmax_cases; lra).
        assert (A2 : 0 <= cd + he) by (revert Hi; minmax_cases; lra).
        clearbody q1 q2. clear Hi.
        destruct (Rlt_dec 0 rd) as [Pos | Neg].
        - assert (q1 <= 0) by nra. assert (0 <= q2) by nra.
          minmax_cases; lra.
        - assert (rd < 0) by lra.
          assert (0 <= q1) by nra. assert (q2 <= 0) by nra.
          minmax_cases; lra. }
      destruct B as [B1 B2].
      assert (Lo' : xle (xmax tMin (Finite (Rmin ((cd - he) / rd) ((cd + he) / rd))))
                        (Finite 0) = true).
      { destruct tMin as [| m |]; simpl in *; try discriminate.
        - destruct (Rle_dec _ 0); [reflexivity | lra].
        - destruct (Rle_dec m 0); [| discriminate].
          destruct (Rle_dec _ 0) as [_ | N]; [reflexivity |].
          exfalso; apply N. apply Rmax_lub; lra. }
      assert (Hi' : xle (Finite 0)
                        (xmin tMax (Finite (Rmax ((cd - he) / rd) ((cd + he) / rd))))
                    = true).
      { destruct tMax as [| m |]; simpl in *; try discriminate.
        - destruct (Rle_dec 0 m); [| discriminate].
          destruct (Rle_dec 0 _) as [_ | N]; [reflexivity |].
          exfalso; apply N. apply Rmin_glb; lra.
        - destruct (Rle_dec 0 _); [reflexivity | lra]. }
      destruct (xlt _ _) eqn:X.
      * exfalso.
        pose proof (xle_trans _ _ _ Lo' Hi') as T.
        revert X T. generalize (xmin tMax (Finite (Rmax ((cd - he) / rd) ((cd + he) / rd)))).
        generalize (xmax tMin (Finite (Rmin ((cd - he) / rd) ((cd + he) / rd)))).
        intros u v. destruct u, v; simpl; try discriminate.
        destruct (Rlt_dec r0 r), (Rle_dec r r0); try discriminate; lra.
      * now apply IH.
Qed.

(** X8.  A ray that starts inside a box always hits it: when
    [containsPoint] accepts the origin of the ray, [intersectsRay] returns
    a hit, whatever the direction is, and the distance of the hit is not
    negative. *)
Theorem ray_from_inside_hits (b : OBB.t) (ray : Ray) :
  OBB.containsPoint b (origin ray) = true ->
  exists hit, OBB.intersectsRay b ray = Some hit /\
              xle (Finite 0) (OBB.distance hit) = true.
Proof.
  intros C. apply containsPoint_true in C. destruct C as (C0 & C1 & C2).
  assert (Hin : forall i, In i [0%nat; 1%nat; 2%nat] ->
     Rabs (dot (sub (OBB.center b) (origin ray))
               (nth i (OBB.getAxes b) (mkVector3 0 0 0)))
     <= getComponent (OBB.halfExtents b) i).
  { assert (F : forall u, dot (sub (OBB.center b) (origin ray)) u
                          = - dot (sub (origin ray) (OBB.center b)) u)
      by (intros u; unfold dot, sub; simpl; ring).
    intros i [<- | [<- | [<- | []]]]; rewrite F, Rabs_Ropp; assumption. }
  destruct (rayLoop_inside b ray _ NegInfinity Infinity Hin eq_refl eq_refl)
    as (lo & hi & L & Hlo & Hhi).
  unfold OBB.intersectsRay. rewrite L.
  destruct (xlt (Finite 0) lo) eqn:X.
  - exfalso. destruct lo; simpl in *; try discriminate.
    destruct (Rlt_dec 0 r), (Rle_dec r 0); try discriminate; lra.
  - destruct (xlt hi (Finite 0)) eqn:Y.
    + exfalso. destruct hi; simpl in *; try discriminate.
      destruct (Rlt_dec r 0), (Rle_dec 0 r); try discriminate; lra.
    + eexists. split; [reflexivity | exact Hhi].
Qed.

(** A ray from the center of the unit box, along X. *)
Lemma ray_from_inside_hits_witness :
  exists hit,
    OBB.intersectsRay (Scenario.unitBoxAt 0 0 0)
                      (mkRay (mkVector3 0 0 0) (mkVector3 1 0 0)) = Some hit /\
    xle (Finite 0) (OBB.distance hit) = true.
Proof.
  apply (ray_from_inside_hits (Scenario.unitBoxAt 0 0 0)
           (mkRay (mkVector3 0 0 0) (mkVector3 1 0 0))).
  apply containsPoint_within;
    unfold dot, OBB.axis0, OBB.axis1, OBB.axis2, applyMatrix3; simpl;
    minmax_cases; lra.
Defined.

(** ** The box that [fromMesh] builds *)

Lemma getSize_nonneg (bb : Box3) :
  0 <= x (getSize bb) /\ 0 <= y (getSize bb) /\ 0 <= z (getSize bb).
Proof.
  unfold getSize, isEmpty.
  destruct (Rlt_dec (x (bmax bb)) (x (bmin bb))); [simpl; lra |].
  destruct (Rlt_dec (y (bmax bb)) (y (bmin bb))); [simpl; lra |].
  destruct (Rlt_dec (z (bmax bb)) (z (bmin bb))); simpl; lra.
Qed.

Lemma fromMesh_nonNegative (mesh : Mesh) :
  SAT.nonNegativeExtents (OBB.fromMesh mesh).
Proof.
  destruct (getSize_nonneg (boundingBox mesh)) as (Sx & Sy & Sz).
  unfold SAT.nonNegativeExtents, OBB.fromMesh, setFromMatrixScale, length.
  cbn [OBB.halfExtents multiply multiplyScalar x y z].
  repeat split; apply Rmult_le_pos; try apply sqrt_pos; lra.
Qed.

Lemma fromMesh_orthonormal (mesh : Mesh) :
  SAT.rigid (matrixWorld mesh) -> SAT.orthonormal (OBB.fromMesh mesh).
Proof.
  intros (A3 & A7 & A11 & A15 & C0 & C1 & C2 & C01 & C02 & C12).
  unfold SAT.orthonormal, OBB.axis0, OBB.axis1, OBB.axis2, OBB.fromMesh.
  cbn [OBB.orientation]. unfold dot, applyMatrix3, setFromMatrix4; simpl.
  repeat split; nra.
Qed.

(** X9.  Whatever the mesh is, the half-extents of the box that
    [fromMesh] builds are not negative; for an empty bounding box they are
    zero. *)
Theorem fromMesh_extents_nonnegative (mesh : Mesh) :
  SAT.nonNegativeExtents (OBB.fromMesh mesh) /\
  (isEmpty (boundingBox mesh) = true ->
   OBB.halfExtents (OBB.fromMesh mesh) = mkVector3 0 0 0).
Proof.
  split.
  - apply fromMesh_nonNegative.
  - intros E. unfold OBB.fromMesh, getSize. rewrite E.
    cbn [OBB.halfExtents]. apply vector_ext; simpl; ring.
Qed.



(** ** When [intersects] raises *)

Lemma In_getAxes (o : OBB.t) (v : Vector3) :
  In v (OBB.getAxes o) -> v = OBB.axis0 o \/ v = OBB.axis1 o \/ v = OBB.axis2 o.
Proof. intros [<- | [<- | [<- | []]]]; auto. Qed.

Lemma filter_nil {A : Type} (f : A -> bool) (l : list A) :
  (forall v, In v l -> f v = false) -> filter f l = [].
Proof.
  induction l as [| u l IH]; simpl; intros H; [reflexivity |].
  rewrite (H u (or_introl eq_refl)). apply IH. intros v Hv. apply H. now right.
Qed.

(** X11.  [intersects] raises when its loop tests no axis; this is the
    case whenever each of the six box axes has a squared length below the
    threshold 1e-6 (a mesh scaled down to nothing, say). *)
Theorem intersects_raises_without_axes (a b : OBB.t) :
  (SAT.testedAxes a b = [] -> OBB.intersects a b = OBB.TypeError) /\
  ((forall v, In v (OBB.getAxes a ++ OBB.getAxes b) -> lengthSq v < OBB.epsilon) ->
   OBB.intersects a b = OBB.TypeError).
Proof.
  assert (Raises : SAT.testedAxes a b = [] -> OBB.intersects a b = OBB.TypeError).
  { pose proof (intersects_cases a b) as C.
    intros E. rewrite E in C.
    destruct (OBB.intersects a b) as [r |]; [| reflexivity].
    destruct (OBB.isColliding r).
    - destruct C as [_ [[] _]].
    - destruct C as [(v & [] & _) _]. }
  split; [exact Raises |].
  intros Hs. apply Raises. unfold SAT.testedAxes.
  rewrite (filter_nil SAT.notBelow).
  - apply (filter_nil SAT.above). intros v Hv.
    apply In_crossProducts in Hv. destruct Hv as (u & w & Hu & Hw & ->).
    assert (Lu : lengthSq u < OBB.epsilon) by (apply Hs, in_or_app; now left).
    assert (Lw : lengthSq w < OBB.epsilon) by (apply Hs, in_or_app; now right).
    pose proof (lengthSq_nonneg u). pose proof (lengthSq_nonneg w).
    pose proof (lagrange_identity u w) as L.
    unfold SAT.above, OBB.epsilon in *.
    destruct (Rgt_dec _ _) as [G | _]; [| reflexivity].
    exfalso. nra.
  - intros v Hv. specialize (Hs v Hv). unfold SAT.notBelow.
    destruct (Rlt_dec _ _); [reflexivity | contradiction].
Qed.

(** Two boxes whose orientation is the zero matrix. *)
Lemma intersects_raises_without_axes_witness :
  OBB.intersects Inputs.collapsedBox Inputs.collapsedBox = OBB.TypeError.
Proof.
  apply (proj2 (intersects_raises_without_axes Inputs.collapsedBox
                                               Inputs.collapsedBox)).
  intros v Hv. apply in_app_or in Hv.
  assert (E : v = mkVector3 0 0 0).
  { destruct Hv as [Hv | Hv]; apply In_getAxes in Hv;
      destruct Hv as [-> | [-> | ->]]; apply vector_ext; simpl; ring. }
  rewrite E. unfold lengthSq, OBB.epsilon; simpl. lra.
Defined.

(** ** The registry of rectangles *)

Section MapMore.

Context {V : Type}.

Lemma get_notin_keys (m : JSMap.t V) (k : string) :
  ~ In k (JSMap.keys m) -> JSMap.get m k = None.
Proof.
  intros H. destruct (JSMap.get m k) as [v |] eqn:E; [| reflexivity].
  apply get_in_keys in E. contradiction.
Qed.

Lemma get_delete_same (m : JSMap.t V) (k : string) :
  NoDup (JSMap.keys m) -> JSMap.get (JSMap.delete m k) k = None.
Proof.
  unfold JSMap.keys. induction m as [| [k0 v0] rest IH]; simpl; intros N.
  - reflexivity.
  - inversion N as [| ? ? Hnin Hrest]; subst.
    destruct (String.eqb k0 k) eqn:E; simpl.
    + apply String.eqb_eq in E. subst k0. now apply get_notin_keys.
    + rewrite E. now apply IH.
Qed.

Lemma get_delete_other (m : JSMap.t V) (k k' : string) :
  k' <> k -> JSMap.get (JSMap.delete m k) k' = JSMap.get m k'.
Proof.
  intros N. induction m as [| [k0 v0] rest IH]; simpl; [reflexivity |].
  destruct (String.eqb k0 k) eqn:E; simpl.
  - apply String.eqb_eq in E. subst k0.
    destruct (String.eqb k k') eqn:E'; [| reflexivity].
    apply String.eqb_eq in E'. congruence.
  - destruct (String.eqb k0 k'); [reflexivity | exact IH].
Qed.

Lemma delete_absent (m : JSMap.t V) (k : string) :
  JSMap.get m k = None -> JSMap.delete m k = m.
Proof.
  induction m as [| [k0 v0] rest IH]; simpl; [reflexivity |].
  destruct (String.eqb k0 k); [discriminate |].
  intros H. now rewrite IH.
Qed.

Lemma In_get (m : JSMap.t V) (k : string) (v : V) :
  NoDup (JSMap.keys m) -> In (k, v) m -> JSMap.get m k = Some v.
Proof.
  unfold JSMap.keys. induction m as [| [k0 v0] rest IH]; simpl; intros N H.
  - destruct H.
  - inversion N as [| ? ? Hnin Hrest]; subst.
    destruct H as [H | H].
    + inversion H; subst. now rewrite String.eqb_refl.
    + destruct (String.eqb k0 k) eqn:E; [| now apply IH].
      apply String.eqb_eq in E. subst k0. exfalso. apply Hnin.
      apply in_map_iff. exists (k, v). auto.
Qed.

Lemma length_set_in (m : JSMap.t V) (k : string) (v : V) :
  In k (JSMap.keys m) -> List.length (JSMap.set m k v) = List.length m.
Proof.
  intros H. rewrite <- (length_map fst (JSMap.set m k v)), <- (length_map fst m).
  fold (JSMap.keys (JSMap.set m k v)) (JSMap.keys m). now rewrite keys_set_in.
Qed.

End MapMore.

Section Registry.

Import AkashicCollisionSystem.

(** X12.  The registry of rectangles behaves as a map from identifiers to
    rectangles: in every state that the methods can produce, [getBody]
    after [createAABB] gives the new rectangle and after [removeBody]
    nothing, both leave every other identifier as it was, and removing an
    identifier that is not registered changes nothing. *)
Theorem bodies_registry (s : AkashicCollisionSystem.t) :
  reachable s ->
  (forall id x0 y0 w h,
     getBody (createAABB s id x0 y0 w h) id = Some (mkAABB x0 y0 w h) /\
     forall id', id' <> id ->
                 getBody (createAABB s id x0 y0 w h) id' = getBody s id') /\
  (forall id,
     getBody (removeBody s id) id = None /\
     (forall id', id' <> id -> getBody (removeBody s id) id' = getBody s id') /\
     (getBody s id = None -> removeBody s id = s)).
Proof.
  intros H. apply reachable_NoDup in H. split.
  - intros id x0 y0 w h. unfold getBody, createAABB; simpl. split.
    + apply get_set_same.
    + intros id' N. now apply get_set_other.
  - intros id. unfold getBody, removeBody; simpl. split; [| split].
    + now apply get_delete_same.
    + intros id' N. now apply get_delete_other.
    + intros E. rewrite (delete_absent _ _ E). now destruct s.
Qed.

Lemma bodies_registry_witness :
  getBody (removeBody Scenario.twoBodies "a") "a" = None /\
  getBody (removeBody Scenario.twoBodies "a") "b" = getBody Scenario.twoBodies "b".
Proof.
  destruct (bodies_registry Scenario.twoBodies) as [_ R].
  - unfold Scenario.twoBodies. repeat constructor.
  - destruct (R "a"%string) as (R1 & R2 & _). split; [exact R1 |].
    apply R2. discriminate.
Defined.

(** X13.  [updateBody] and [updateBodySize] never register a body: for an
    identifier that is not registered they leave the state as it is; for a
    registered one they change the position only, respectively the size
    only; in both cases the identifiers and their order stay the same and
    every other rectangle is untouched. *)
Theorem update_keeps_registry (s : AkashicCollisionSystem.t) (id : string)
        (u v : R) :
  (getBody s id = None ->
   updateBody s id u v = s /\ updateBodySize s id u v = s) /\
  (forall body, getBody s id = Some body ->
     getBody (updateBody s id u v) id
       = Some (mkAABB u v (width body) (height body)) /\
     getBody (updateBodySize s id u v) id
       = Some (mkAABB (x body) (y body) u v)) /\
  JSMap.keys (bodies (updateBody s id u v)) = JSMap.keys (bodies s) /\
  JSMap.keys (bodies (updateBodySize s id u v)) = JSMap.keys (bodies s) /\
  (forall id', id' <> id ->
     getBody (updateBody s id u v) id' = getBody s id' /\
     getBody (updateBodySize s id u v) id' = getBody s id').
Proof.
  unfold getBody, updateBody, updateBodySize.
  destruct (JSMap.get (bodies s) id) as [body |] eqn:E; simpl.
  - split; [discriminate |]. split; [| split; [| split]].
    + intros body' E'. inversion E'; subst body'.
      split; apply get_set_same.
    + apply keys_set_in. now apply get_in_keys in E.
    + apply keys_set_in. now apply get_in_keys in E.
    + intros id' N. split; now apply get_set_other.
  - split; [auto |]. split; [discriminate |]. auto.
Qed.

(** ** The overlap of two rectangles *)

(** X14.  [checkAABBCollision] does not depend on the order of its two
    arguments; the rectangle it returns has its corner at the larger of
    the two left edges and the larger of the two top edges, and that
    corner lies in both rectangles, strictly before their right and
    bottom edges [x + width] and [y + height]. *)
Theorem checkAABBCollision_corner_in_both (a b : AABB) :
  checkAABBCollision a b = checkAABBCollision b a /\
  (forall o, checkAABBCollision a b = Some o ->
     x o = Rmax (x a) (x b) /\ y o = Rmax (y a) (y b) /\
     x a <= x o < x a + width a /\ x b <= x o < x b + width b /\
     y a <= y o < y a + height a /\ y b <= y o < y b + height b).
Proof.
  split.
  - unfold checkAABBCollision.
    rewrite (Rmin_comm (x a + width a)), (Rmax_comm (x a)),
      (Rmin_comm (y a + height a)), (Rmax_comm (y a)).
    reflexivity.
  - intros o. unfold checkAABBCollision.
    destruct (Rgt_dec _ 0) as [Gx | _]; [| discriminate].
    destruct (Rgt_dec _ 0) as [Gy | _]; [| discriminate].
    intros E. inversion E; subst o; clear E. simpl.
    split; [reflexivity |]. split; [reflexivity |].
    revert Gx Gy. minmax_cases; intros; lra.
Qed.

(** ** What the broad phase reports *)

Lemma checkAgainst_sound (k : string) (b : AABB) (rest : JSMap.t AABB)
      (r : CollisionResult) :
  In r (checkAgainst k b rest) ->
  id1 r = k /\ body1 r = b /\ In (id2 r, body2 r) rest /\
  checkAABBCollision (body1 r) (body2 r) = Some (overlap r).
Proof.
  induction rest as [| [k2 b2] rest IH]; simpl; [intros [] |].
  destruct (checkAABBCollision b b2) as [o |] eqn:E.
  - intros [<- | H]; simpl; [auto |].
    destruct (IH H) as (H1 & H2 & H3 & H4). auto.
  - intros H. destruct (IH H) as (H1 & H2 & H3 & H4). auto.
Qed.

Lemma checkAgainst_complete (k : string) (b : AABB) (rest : JSMap.t AABB)
      (k2 : string) (b2 o : AABB) :
  In (k2, b2) rest -> checkAABBCollision b b2 = Some o ->
  In (mkCollisionResult k k2 b b2 o) (checkAgainst k b rest).
Proof.
  induction rest as [| [k3 b3] rest IH]; simpl; [intros [] |].
  intros [H | H] E.
  - inversion H; subst. rewrite E. now left.
  - destruct (checkAABBCollision b b3); [right |]; auto.
Qed.

Lemma checkAll_sound (entries : JSMap.t AABB) (r : CollisionResult) :
  In r (checkAll entries) ->
  In (id1 r, body1 r) entries /\ In (id2 r, body2 r) entries /\
  checkAABBCollision (body1 r) (body2 r) = Some (overlap r).
Proof.
  induction entries as [| [k b] rest IH]; simpl; [intros [] |].
  intros H. apply in_app_or in H. destruct H as [H | H].
  - apply checkAgainst_sound in H. destruct H as (<- & <- & H3 & H4). auto.
  - destruct (IH H) as (H1 & H2 & H3). auto.
Qed.

Lemma checkAABBCollision_comm (a b : AABB) :
  checkAABBCollision a b = checkAABBCollision b a.
Proof.
  unfold checkAABBCollision.
  rewrite (Rmin_comm (x a + width a)), (Rmax_comm (x a)),
    (Rmin_comm (y a + height a)), (Rmax_comm (y a)).
  reflexivity.
Qed.

Lemma checkAll_complete (entries : JSMap.t AABB) (ka kb : string)
      (ba bb o : AABB) :
  In (ka, ba) entries -> In (kb, bb) entries -> ka <> kb ->
  checkAABBCollision ba bb = Some o ->
  In (mkCollisionResult ka kb ba bb o) (checkAll entries) \/
  In (mkCollisionResult kb ka bb ba o) (checkAll entries).
Proof.
  intros Ha Hb N E.
  induction entries as [| [k b] rest IH]; simpl; [destruct Ha |].
  destruct Ha as [Ha | Ha], Hb as [Hb | Hb].
  - congruence.
  - inversion Ha; subst. left. apply in_or_app. left.
    now apply checkAgainst_complete.
  - inversion Hb; subst. right. apply in_or_app. left.
    apply checkAgainst_complete; [exact Ha |].
    now rewrite checkAABBCollision_comm.
  - destruct (IH Ha Hb) as [H | H]; [left | right]; apply in_or_app; now right.
Qed.

(** X15.  The broad phase reports exactly the overlapping pairs: in every
    state that the methods can produce, each result of [checkCollisions]
    names two registered identifiers with their current rectangles and
    the overlap that [checkAABBCollision] computes for them, and every two
    different registered identifiers whose rectangles overlap are reported,
    in one order or the other. *)
Theorem checkCollisions_exact (s : AkashicCollisionSystem.t) :
  reachable s ->
  (forall r, In r (snd (checkCollisions s)) ->
     getBody s (id1 r) = Some (body1 r) /\
     getBody s (id2 r) = Some (body2 r) /\
     checkAABBCollision (body1 r) (body2 r) = Some (overlap r)) /\
  (forall ida idb ba bb o,
     ida <> idb ->
     getBody s ida = Some ba -> getBody s idb = Some bb ->
     checkAABBCollision ba bb = Some o ->
     In (mkCollisionResult ida idb ba bb o) (snd (checkCollisions s)) \/
     In (mkCollisionResult idb ida bb ba o) (snd (checkCollisions s))).
Proof.
  intros H. apply reachable_NoDup in H. unfold getBody; simpl. split.
  - intros r Hr. apply checkAll_sound in Hr. destruct Hr as (H1 & H2 & H3).
    split; [now apply In_get |]. split; [now apply In_get | exact H3].
  - intros ida idb ba bb o N Ga Gb E.
    apply checkAll_complete; auto using get_In.
Qed.

Lemma checkCollisions_exact_witness :
  (forall r, In r (snd (checkCollisions Scenario.twoBodies)) ->
     getBody Scenario.twoBodies (id1 r) = Some (body1 r) /\
     getBody Scenario.twoBodies (id2 r) = Some (body2 r) /\
     checkAABBCollision (body1 r) (body2 r) = Some (overlap r)) /\
  (forall ida idb ba bb o,
     ida <> idb ->
     getBody Scenario.twoBodies ida = Some ba ->
     getBody Scenario.twoBodies idb = Some bb ->
     checkAABBCollision ba bb = Some o ->
     In (mkCollisionResult ida idb ba bb o) (snd (checkCollisions Scenario.twoBodies)) \/
     In (mkCollisionResult idb ida bb ba o) (snd (checkCollisions Scenario.twoBodies))).
Proof.
  apply (checkCollisions_exact Scenario.twoBodies).
  unfold Scenario.twoBodies. repeat constructor.
Defined.

Lemma length_checkAgainst (k : string) (b : AABB) (rest : JSMap.t AABB) :
  (List.length (checkAgainst k b rest) <= List.length rest)%nat.
Proof.
  induction rest as [| [k2 b2] rest IH]; simpl; [lia |].
  destruct (checkAABBCollision b b2); simpl; lia.
Qed.

Lemma length_checkAll (entries : JSMap.t AABB) :
  (2 * List.length (checkAll entries)
   <= List.length entries * (List.length entries - 1))%nat.
Proof.
  induction entries as [| [k b] rest IH]; simpl; [lia |].
  rewrite length_app. pose proof (length_checkAgainst k b rest) as L.
  rewrite Nat.sub_0_r.
  destruct (List.length rest) as [| p]; simpl in *; nia.
Qed.

(** X16.  With [n] registered rectangles [checkCollisions] returns at most
    [n (n - 1) / 2] results; it stores them, so that [getStats] afterwards
    gives [n] bodies and the number of results, and it leaves the
    rectangles as they are. *)
Theorem checkCollisions_count (s : AkashicCollisionSystem.t) :
  (2 * List.length (snd (checkCollisions s))
   <= List.length (bodies s) * (List.length (bodies s) - 1))%nat /\
  getStats (fst (checkCollisions s))
  = (List.length (bodies s), List.length (snd (checkCollisions s))) /\
  bodies (fst (checkCollisions s)) = bodies s.
Proof.
  simpl. split; [apply length_checkAll |]. split; reflexivity.
Qed.

End Registry.

(** ** The simplified tests of [ThreeDAkashicCollision] *)

Section Simplified.

Import ThreeDAkashicCollision.

Lemma projectBoxOnAxis_x (b : CollisionBox3D) :
  projectBoxOnAxis b (mkVector3 1 0 0)
  = (x (center b) - Rabs (x (size b) * (1 / 2)),
     x (center b) + Rabs (x (size b) * (1 / 2))).
Proof.
  unfold projectBoxOnAxis, dot; simpl.
  rewrite !Rmult_0_r, !Rmult_1_r, Rabs_R0. f_equal; ring.
Qed.

Lemma projectBoxOnAxis_y (b : CollisionBox3D) :
  projectBoxOnAxis b (mkVector3 0 1 0)
  = (y (center b) - Rabs (y (size b) * (1 / 2)),
     y (center b) + Rabs (y (size b) * (1 / 2))).
Proof.
  unfold projectBoxOnAxis, dot; simpl.
  rewrite !Rmult_0_r, !Rmult_1_r, Rabs_R0. f_equal; ring.
Qed.

Lemma projectBoxOnAxis_z (b : CollisionBox3D) :
  projectBoxOnAxis b (mkVector3 0 0 1)
  = (z (center b) - Rabs (z (size b) * (1 / 2)),
     z (center b) + Rabs (z (size b) * (1 / 2))).
Proof.
  unfold projectBoxOnAxis, dot; simpl.
  rewrite !Rmult_0_r, !Rmult_1_r, Rabs_R0. f_equal; ring.
Qed.

(** The loop of the simplified test, in terms of the three overlaps. *)
Lemma axisLoop_aligned (box1 box2 : CollisionBox3D) :
  let ox := SAT.alignedOverlapX (toOBB box1) (toOBB box2) in
  let oy := SAT.alignedOverlapY (toOBB box1) (toOBB box2) in
  let oz := SAT.alignedOverlapZ (toOBB box1) (toOBB box2) in
  match axisLoop box1 box2
          [mkVector3 1 0 0; mkVector3 0 1 0; mkVector3 0 0 1] Infinity None with
  | Some (m, ax) =>
      0 < ox /\ 0 < oy /\ 0 < oz /\ m = Finite (Rmin ox (Rmin oy oz)) /\
      (ax = Some (mkVector3 1 0 0) \/ ax = Some (mkVector3 0 1 0) \/
       ax = Some (mkVector3 0 0 1))
  | None => ~ (0 < ox /\ 0 < oy /\ 0 < oz)
  end.
Proof.
  intros ox oy oz. cbn [axisLoop].
  rewrite !projectBoxOnAxis_x, !projectBoxOnAxis_y, !projectBoxOnAxis_z.
  cbn [fst snd].
  change (Rmin (x (center box1) + Rabs (x (size box1) * (1 / 2)))
               (x (center box2) + Rabs (x (size box2) * (1 / 2)))
          - Rmax (x (center box1) - Rabs (x (size box1) * (1 / 2)))
                 (x (center box2) - Rabs (x (size box2) * (1 / 2)))) with ox.
  change (Rmin (y (center box1) + Rabs (y (size box1) * (1 / 2)))
               (y (center box2) + Rabs (y (size box2) * (1 / 2)))
          - Rmax (y (center box1) - Rabs (y (size box1) * (1 / 2)))
                 (y (center box2) - Rabs (y (size box2) * (1 / 2)))) with oy.
  change (Rmin (z (center box1) + Rabs (z (size box1) * (1 / 2)))
               (z (center box2) + Rabs (z (size box2) * (1 / 2)))
          - Rmax (z (center box1) - Rabs (z (size box1) * (1 / 2)))
                 (z (center box2) - Rabs (z (size box2) * (1 / 2)))) with oz.
  clearbody ox oy oz.
  destruct (Rle_dec ox 0) as [Lx | Gx]; [lra |].
  cbn [xlt].
  destruct (Rle_dec oy 0) as [Ly | Gy]; [lra |].
  destruct (Rlt_dec oy ox) as [Lyx | Gyx].
  - destruct (Rle_dec oz 0) as [Lz | Gz]; [lra |].
    destruct (Rlt_dec oz oy) as [Lzy | Gzy];
      (repeat split; [lra | lra | lra | f_equal; minmax_cases; lra | auto]).
  - destruct (Rle_dec oz 0) as [Lz | Gz]; [lra |].
    destruct (Rlt_dec oz ox) as [Lzx | Gzx];
      (repeat split; [lra | lra | lra | f_equal; minmax_cases; lra | auto]).
Qed.

(** X17.  On boxes without rotation the simplified test of
    [ThreeDAkashicCollision] and the separating-axis test of [OBB] agree:
    for the boxes with the same centers, half the sizes and the identity
    orientation, [intersects] returns, it reports a collision exactly when
    [checkOBBCollision] returns a result, and then with the same depth. *)
Theorem simplified_test_agrees (box1 box2 : CollisionBox3D) :
  exists r, OBB.intersects (toOBB box1) (toOBB box2) = OBB.Returns r /\
    match checkOBBCollision box1 box2 with
    | Some c =>
        OBB.isColliding r = true /\
        penetration c = Finite (OBB.penetrationDepth r) /\
        object1 c = box1 /\ object2 c = box2
    | None => OBB.isColliding r = false
    end.
Proof.
  destruct (aligned_intersects (toOBB box1) (toOBB box2) eq_refl eq_refl)
    as (r & Hr & Hiff & Hdepth & _).
  exists r. split; [exact Hr |].
  pose proof (axisLoop_aligned box1 box2) as L. cbv zeta in L.
  unfold checkOBBCollision.
  destruct (axisLoop box1 box2 _ Infinity None) as [[m ax] |].
  - destruct L as (Px & Py & Pz & -> & _).
    assert (Hc : OBB.isColliding r = true) by (apply Hiff; auto).
    cbn [penetration object1 object2].
    rewrite (Hdepth Hc). auto.
  - destruct (OBB.isColliding r); [| reflexivity].
    exfalso. apply L. now apply Hiff.
Qed.

(** X18.  [isPointInBox] of the simplified system is [containsPoint] of
    the box with the same center, half the size and the identity
    orientation. *)
Theorem isPointInBox_containsPoint (point : Vector3) (b : CollisionBox3D) :
  isPointInBox point b = OBB.containsPoint (toOBB b) point.
Proof.
  unfold isPointInBox, OBB.containsPoint, OBB.containsLoop, OBB.getAxes.
  cbn [nth getComponent].
  assert (D0 : dot (sub point (OBB.center (toOBB b)))
                   (applyMatrix3 (mkVector3 1 0 0) (OBB.orientation (toOBB b)))
               = x (sub point (center b)))
    by (unfold dot, applyMatrix3; simpl; ring).
  assert (D1 : dot (sub point (OBB.center (toOBB b)))
                   (applyMatrix3 (mkVector3 0 1 0) (OBB.orientation (toOBB b)))
               = y (sub point (center b)))
    by (unfold dot, applyMatrix3; simpl; ring).
  assert (D2 : dot (sub point (OBB.center (toOBB b)))
                   (applyMatrix3 (mkVector3 0 0 1) (OBB.orientation (toOBB b)))
               = z (sub point (center b)))
    by (unfold dot, applyMatrix3; simpl; ring).
  rewrite D0, D1, D2. cbn [toOBB OBB.halfExtents].
  destruct (Rle_dec _ _) as [L0 | L0], (Rgt_dec _ _) as [G0 | G0];
    try lra; try reflexivity.
  destruct (Rle_dec _ _) as [L1 | L1], (Rgt_dec _ _) as [G1 | G1];
    try lra; try reflexivity.
  destruct (Rle_dec _ _) as [L2 | L2], (Rgt_dec _ _) as [G2 | G2];
    try lra; reflexivity.
Qed.

Lemma distanceTo_comm (a b : Vector3) : distanceTo a b = distanceTo b a.
Proof.
  unfold distanceTo, distanceToSquared. f_equal. cbv zeta. ring.
Qed.

(** X19.  The sphere test: a contact has a positive penetration of at most
    the sum of the radii; exchanging the two spheres keeps the verdict and
    the penetration and turns the normal round; without a contact the
    centers are at least the sum of the radii apart. *)
Theorem sphere_test_symmetric (sphere1 sphere2 : Sphere) :
  match checkSphereCollision sphere1 sphere2,
        checkSphereCollision sphere2 sphere1 with
  | Some c, Some c' =>
      0 < spherePenetration c <= radius sphere1 + radius sphere2 /\
      spherePenetration c' = spherePenetration c /\
      sphereNormal c' = negate (sphereNormal c)
  | None, None =>
      radius sphere1 + radius sphere2
      <= distanceTo (sphereCenter sphere1) (sphereCenter sphere2)
  | _, _ => False
  end.
Proof.
  unfold checkSphereCollision.
  rewrite (distanceTo_comm (sphereCenter sphere2) (sphereCenter sphere1)),
    (Rplus_comm (radius sphere2) (radius sphere1)).
  destruct (Rlt_dec _ _) as [L | N]; [| lra].
  cbn [spherePenetration sphereNormal sphereContactPoint].
  assert (D : 0 <= distanceTo (sphereCenter sphere1) (sphereCenter sphere2))
    by (unfold distanceTo; apply sqrt_pos).
  split; [lra |]. split; [reflexivity |].
  rewrite <- normalize_negate. f_equal. apply vector_ext; simpl; ring.
Qed.

End Simplified.

(** ** The registry of the hybrid system *)

Section MapPairs.

Context {V W : Type}.

Lemma keys_set_eq (m1 : JSMap.t V) (m2 : JSMap.t W) (k : string) (v : V) (w : W) :
  JSMap.keys m1 = JSMap.keys m2 ->
  JSMap.keys (JSMap.set m1 k v) = JSMap.keys (JSMap.set m2 k w).
Proof.
  intros E. destruct (in_dec string_dec k (JSMap.keys m1)) as [Hin | Hnin].
  - rewrite !keys_set_in; [exact E | now rewrite <- E | exact Hin].
  - rewrite !keys_set_notin; [now rewrite E | now rewrite <- E | exact Hnin].
Qed.

Lemma keys_delete_eq (m1 : JSMap.t V) (m2 : JSMap.t W) (k : string) :
  JSMap.keys m1 = JSMap.keys m2 ->
  JSMap.keys (JSMap.delete m1 k) = JSMap.keys (JSMap.delete m2 k).
Proof.
  unfold JSMap.keys. revert m2.
  induction m1 as [| [k1 v1] m1 IH]; intros [| [k2 v2] m2]; simpl;
    try discriminate; [reflexivity |].
  intros E. inversion E; subst.
  destruct (String.eqb k2 k); simpl; [assumption |].
  f_equal. now apply IH.
Qed.

Lemma In_values_set (m : JSMap.t V) (k : string) (v u : V) :
  In u (map snd (JSMap.set m k v)) -> u = v \/ In u (map snd m).
Proof.
  induction m as [| [k0 v0] rest IH]; simpl.
  - intros [H | []]. now left.
  - destruct (String.eqb k0 k); simpl.
    + intros [H | H]; [now left | right; now right].
    + intros [H | H]; [right; now left |].
      destruct (IH H) as [H' | H']; [now left | right; now right].
Qed.

Lemma values_set_NoDup (m : JSMap.t V) (k : string) (v : V) :
  NoDup (map snd m) -> ~ In v (map snd m) -> NoDup (map snd (JSMap.set m k v)).
Proof.
  induction m as [| [k0 v0] rest IH]; simpl; intros N Hv.
  - constructor; [intros [] | constructor].
  - inversion N as [| ? ? Hnin Hrest]; subst.
    destruct (String.eqb k0 k); simpl.
    + constructor; [tauto | exact Hrest].
    + constructor; [| apply IH; tauto].
      intros H. apply In_values_set in H. destruct H as [H | H]; [| contradiction].
      apply Hv. now left.
Qed.

Lemma In_values_delete (m : JSMap.t V) (k : string) (u : V) :
  In u (map snd (JSMap.delete m k)) -> In u (map snd m).
Proof.
  induction m as [| [k0 v0] rest IH]; simpl; [tauto |].
  destruct (String.eqb k0 k); simpl; tauto.
Qed.

Lemma values_delete_NoDup (m : JSMap.t V) (k : string) :
  NoDup (map snd m) -> NoDup (map snd (JSMap.delete m k)).
Proof.
  induction m as [| [k0 v0] rest IH]; simpl; intros N; [constructor |].
  inversion N as [| ? ? Hnin Hrest]; subst.
  destruct (String.eqb k0 k); simpl; [exact Hrest |].
  constructor; [| now apply IH].
  intros H. apply Hnin. now apply In_values_delete in H.
Qed.

(** Two keys with the same value, when no value occurs twice. *)
Lemma get_injective (m : JSMap.t V) (k k' : string) (v : V) :
  NoDup (map snd m) ->
  JSMap.get m k = Some v -> JSMap.get m k' = Some v -> k = k'.
Proof.
  induction m as [| [k0 v0] rest IH]; simpl; intros N; [discriminate |].
  inversion N as [| ? ? Hnin Hrest]; subst.
  destruct (String.eqb k0 k) eqn:E, (String.eqb k0 k') eqn:E'.
  - apply String.eqb_eq in E, E'. congruence.
  - intros H H'. inversion H; subst. exfalso. apply Hnin.
    apply get_In in H'. apply in_map_iff. exists (k', v). auto.
  - intros H H'. inversion H'; subst. exfalso. apply Hnin.
    apply get_In in H. apply in_map_iff. exists (k, v). auto.
  - now apply IH.
Qed.

Lemma in_keys_get (m : JSMap.t V) (k : string) :
  In k (JSMap.keys m) -> exists v, JSMap.get m k = Some v.
Proof.
  unfold JSMap.keys. induction m as [| [k0 v0] rest IH]; simpl; [tauto |].
  destruct (String.eqb k0 k) eqn:E; [eauto |].
  apply String.eqb_neq in E. intros [F | F]; [congruence | now apply IH].
Qed.

End MapPairs.

Section Consistency.

Import HybridCollisionSystem.

Lemma keys_updateBody (a : AkashicCollisionSystem.t) (k : string) (u v : R) :
  JSMap.keys (AkashicCollisionSystem.bodies (AkashicCollisionSystem.updateBody a k u v))
  = JSMap.keys (AkashicCollisionSystem.bodies a).
Proof.
  unfold AkashicCollisionSystem.updateBody.
  destruct (JSMap.get (AkashicCollisionSystem.bodies a) k) eqn:E; [| reflexivity].
  simpl. apply keys_set_in. now apply get_in_keys in E.
Qed.

Lemma keys_updateBodySize (a : AkashicCollisionSystem.t) (k : string) (u v : R) :
  JSMap.keys (AkashicCollisionSystem.bodies (AkashicCollisionSystem.updateBodySize a k u v))
  = JSMap.keys (AkashicCollisionSystem.bodies a).
Proof.
  unfold AkashicCollisionSystem.updateBodySize.
  destruct (JSMap.get (AkashicCollisionSystem.bodies a) k) eqn:E; [| reflexivity].
  simpl. apply keys_set_in. now apply get_in_keys in E.
Qed.

(** [refreshOBB] keeps every object in place, with its identifier and its
    mesh. *)
Lemma refreshOBB_keeps (ms : MeshRef -> Mesh)
      (st : ObjectRef -> option CollisionObject) (r ref : ObjectRef)
      (obj : CollisionObject) :
  st ref = Some obj ->
  exists obj', refreshOBB ms st r ref = Some obj' /\
               id obj' = id obj /\ mesh obj' = mesh obj.
Proof.
  intros H. destruct (Nat.eq_dec ref r) as [-> | N].
  - rewrite (refreshOBB_same ms st r obj H). eexists. split; [reflexivity |]. auto.
  - rewrite refreshOBB_other by assumption. eauto.
Qed.

(** The part of the invariant that concerns the store only. *)
Lemma consistent_store (s : HybridCollisionSystem.t) ms st ak rs :
  Pipeline.consistent s ->
  JSMap.keys (AkashicCollisionSystem.bodies ak)
  = JSMap.keys (AkashicCollisionSystem.bodies (akashicSystem s)) ->
  (forall ref obj, store s ref = Some obj ->
     exists obj', st ref = Some obj' /\ id obj' = id obj) ->
  Pipeline.consistent (mk ms st (fresh s) (objects s) ak rs).
Proof.
  intros (K & N1 & N2 & Hall) Hk Hst. unfold Pipeline.consistent; simpl.
  split; [congruence |]. split; [exact N1 |]. split; [exact N2 |].
  intros id0 ref Hin. destruct (Hall _ _ Hin) as (Hlt & obj & Hs & Hid).
  split; [exact Hlt |]. destruct (Hst _ _ Hs) as (obj' & Hs' & Hid').
  exists obj'. split; [exact Hs' | congruence].
Qed.

Lemma create_consistent (ms : MeshRef -> Mesh) : Pipeline.consistent (create ms).
Proof.
  unfold Pipeline.consistent, create; simpl.
  repeat split; try constructor; destruct H.
Qed.

Lemma addObject_consistent (setFromObject : SetFromObject)
      (s s' : HybridCollisionSystem.t) (id0 : string) (m : MeshRef)
      (shape : ShapeType) :
  Pipeline.consistent s ->
  addObject setFromObject s id0 m shape = OBB.Returns s' ->
  Pipeline.consistent s'.
Proof.
  intros (K & N1 & N2 & Hall) E. unfold addObject in E.
  inversion E; subst s'; clear E. unfold Pipeline.consistent; simpl.
  assert (Hfresh : ~ In (fresh s) (map snd (objects s))).
  { intros H. apply in_map_iff in H. destruct H as ([k r] & Er & Hin).
    simpl in Er. subst r. apply Hall in Hin. lia. }
  split; [now apply keys_set_eq |]. split; [now apply keys_set_NoDup |].
  split; [now apply values_set_NoDup |].
  intros id1 ref H. apply In_set in H. destruct H as [H | H].
  - inversion H; subst. split; [lia |]. rewrite update_same.
    eexists. split; [reflexivity | reflexivity].
  - destruct (Hall _ _ H) as (Hlt & obj & Hs & Hid). split; [lia |].
    exists obj. split; [| exact Hid].
    rewrite update_other by lia. exact Hs.
Qed.

Lemma removeObject_consistent (s : HybridCollisionSystem.t) (id0 : string) :
  Pipeline.consistent s -> Pipeline.consistent (removeObject s id0).
Proof.
  intros (K & N1 & N2 & Hall). unfold Pipeline.consistent, removeObject; simpl.
  split; [now apply keys_delete_eq |]. split; [now apply keys_delete_NoDup |].
  split; [now apply values_delete_NoDup |].
  intros id1 ref H. apply In_delete in H. now apply Hall.
Qed.

Lemma updateObject_consistent (setFromObject : SetFromObject)
      (s : HybridCollisionSystem.t) (entry : string * ObjectRef) :
  Pipeline.consistent s ->
  Pipeline.consistent (updateObject setFromObject s entry) /\
  objects (updateObject setFromObject s entry) = objects s.
Proof.
  intros C. unfold updateObject.
  destruct (store s (snd entry)) as [obj |] eqn:E; [| auto].
  split; [| reflexivity]. apply consistent_store; [exact C | |].
  - now rewrite keys_updateBodySize, keys_updateBody.
  - intros ref o Ho.
    destruct (refreshOBB_keeps (meshes s) (store s) (snd entry) ref o Ho)
      as (o' & H1 & H2 & _). eauto.
Qed.

Lemma fold_updateObject_consistent (setFromObject : SetFromObject)
      (l : list (string * ObjectRef)) (s : HybridCollisionSystem.t) :
  Pipeline.consistent s ->
  Pipeline.consistent (fold_left (updateObject setFromObject) l s) /\
  objects (fold_left (updateObject setFromObject) l s) = objects s.
Proof.
  revert s. induction l as [| e l IH]; intros s C; simpl; [auto |].
  destruct (updateObject_consistent setFromObject s e C) as [C' E'].
  destruct (IH _ C') as [C'' E'']. split; [exact C'' | congruence].
Qed.

Lemma updateAllObjects_consistent (setFromObject : SetFromObject)
      (s : HybridCollisionSystem.t) :
  Pipeline.consistent s ->
  Pipeline.consistent (updateAllObjects setFromObject s) /\
  objects (updateAllObjects setFromObject s) = objects s.
Proof. apply fold_updateObject_consistent. Qed.

Lemma checkCollisions_consistent (setFromObject : SetFromObject)
      (s s' : HybridCollisionSystem.t) (results : list HybridCollisionResult) :
  Pipeline.consistent s ->
  checkCollisions setFromObject s = OBB.Returns (s', results) ->
  Pipeline.consistent s'.
Proof.
  intros C E. unfold checkCollisions in E.
  destruct (preciseLoop _ _ _) as [rs |]; [| discriminate].
  inversion E; subst s' results; clear E.
  destruct (updateAllObjects_consistent setFromObject s C) as [C1 _].
  pose proof (consistent_store (updateAllObjects setFromObject s)
                (meshes (updateAllObjects setFromObject s))
                (store (updateAllObjects setFromObject s))
                (fst (AkashicCollisionSystem.checkCollisions
                        (akashicSystem (updateAllObjects setFromObject s))))
                rs C1 eq_refl) as H.
  apply H. eauto.
Qed.

Lemma resolveCollision_consistent (s s' : HybridCollisionSystem.t)
      (collision : HybridCollisionResult) (strength : R) :
  Pipeline.consistent s ->
  resolveCollision s collision strength = OBB.Returns s' ->
  Pipeline.consistent s'.
Proof.
  intros C E. unfold resolveCollision in E.
  destruct (store s (object1 collision)); [| discriminate].
  destruct (store s (object2 collision)); [| discriminate].
  inversion E; subst s'; clear E.
  apply consistent_store; [exact C | reflexivity |].
  intros ref o Ho.
  match goal with
  | |- context [refreshOBB ?ms (refreshOBB ?ms ?st ?r1) ?r2 ref] =>
      destruct (refreshOBB_keeps ms st r1 ref o Ho) as (o1 & H1 & I1 & _);
      destruct (refreshOBB_keeps ms _ r2 ref o1 H1) as (o2 & H2 & I2 & _)
  end.
  exists o2. split; [exact H2 | congruence].
Qed.

Lemma reachable_consistent (setFromObject : SetFromObject)
      (s : HybridCollisionSystem.t) :
  reachable setFromObject s -> Pipeline.consistent s.
Proof.
  induction 1.
  - apply create_consistent.
  - eapply addObject_consistent; eassumption.
  - now apply removeObject_consistent.
  - eapply checkCollisions_consistent; eassumption.
  - eapply resolveCollision_consistent; eassumption.
  - unfold getStats; simpl.
    apply (consistent_store s); [assumption | reflexivity | eauto].
  - unfold reset, Pipeline.consistent; simpl.
    repeat split; try constructor; destruct H0.
  - apply (consistent_store s); [assumption | reflexivity | eauto].
Qed.

(** X20.  The registry of the hybrid system stays consistent: in every
    state that the methods produce from a new system, whatever the meshes
    do in between, the objects and the rectangles of the broad phase are
    registered under the same identifiers in the same order, no identifier
    and no object is registered twice, and every registered object carries
    the identifier it is registered under. *)
Theorem registry_consistent (setFromObject : SetFromObject)
        (s : HybridCollisionSystem.t) :
  reachable setFromObject s ->
  Pipeline.consistent s /\
  forall id0, (exists obj, lookup s id0 = Some obj /\ id obj = id0) <->
              AkashicCollisionSystem.getBody (akashicSystem s) id0 <> None.
Proof.
  intros H. apply reachable_consistent in H. split; [exact H |].
  destruct H as (K & N1 & N2 & Hall). intros id0.
  unfold lookup, AkashicCollisionSystem.getBody. split.
  - intros (obj & L & _).
    destruct (JSMap.get (objects s) id0) as [ref |] eqn:G; [| discriminate].
    apply get_in_keys in G. rewrite K in G.
    apply in_keys_get in G. destruct G as [b G]. congruence.
  - intros Hb.
    destruct (JSMap.get (AkashicCollisionSystem.bodies (akashicSystem s)) id0)
      as [b |] eqn:G; [| contradiction].
    apply get_in_keys in G. rewrite <- K in G.
    apply in_keys_get in G. destruct G as [ref G]. rewrite G.
    apply get_In in G. destruct (Hall _ _ G) as (_ & obj & Hs & Hid). eauto.
Qed.

End Consistency.

(** ** The two phases of [checkCollisions] *)

Section Selected.

Context {A B : Type}.
Variable link : A -> B -> Prop.

Lemma selected_length (l : list A) (l' : list B) :
  Pipeline.selected link l l' -> (List.length l' <= List.length l)%nat.
Proof. induction 1; simpl; lia. Qed.

Lemma selected_In (l : list A) (l' : list B) (b : B) :
  Pipeline.selected link l l' -> In b l' -> exists a, In a l /\ link a b.
Proof.
  induction 1 as [| a l l' _ IH | a b0 l l' Hl _ IH]; simpl.
  - intros [].
  - intros Hb. destruct (IH Hb) as (a' & Ha' & L). eauto.
  - intros [<- | Hb]; [eauto |]. destruct (IH Hb) as (a' & Ha' & L). eauto.
Qed.

Lemma selected_pairs (Q : A -> A -> Prop) (Q' : B -> B -> Prop)
      (l : list A) (l' : list B) :
  (forall a a' b b', link a b -> link a' b' -> Q a a' -> Q' b b') ->
  Pipeline.selected link l l' -> ForallOrdPairs Q l -> ForallOrdPairs Q' l'.
Proof.
  intros HQ. induction 1 as [| a l l' _ IH | a b l l' Hl Hs IH]; intros F.
  - constructor.
  - inversion F; subst. auto.
  - inversion F as [| ? ? Fa Fl]; subst. constructor; [| auto].
    apply Forall_forall. intros b' Hb'.
    destruct (selected_In _ _ _ Hs Hb') as (a' & Ha' & L').
    rewrite Forall_forall in Fa. eauto.
Qed.

End Selected.

Section Phases.

Import HybridCollisionSystem.

Lemma preciseLoop_selected (s : HybridCollisionSystem.t)
      (rough : list AkashicCollisionSystem.CollisionResult)
      (acc results : list HybridCollisionResult) :
  preciseLoop s rough acc = OBB.Returns results ->
  exists new, results = acc ++ new /\
              Pipeline.selected (Pipeline.fromRough s) rough new.
Proof.
  revert acc. induction rough as [| rc rough IH]; intros acc; simpl.
  - intros E. inversion E; subst. exists []. split; [now rewrite app_nil_r | constructor].
  - assert (Skip : preciseLoop s rough acc = OBB.Returns results ->
              exists new, results = acc ++ new /\
                Pipeline.selected (Pipeline.fromRough s) (rc :: rough) new).
    { intros E. destruct (IH _ E) as (new & -> & S).
      exists new. split; [reflexivity | now constructor]. }
    destruct (JSMap.get (objects s) (AkashicCollisionSystem.id1 rc)) as [r1 |] eqn:G1;
      [| destruct (JSMap.get (objects s) (AkashicCollisionSystem.id2 rc)); exact Skip].
    destruct (JSMap.get (objects s) (AkashicCollisionSystem.id2 rc)) as [r2 |] eqn:G2;
      [| exact Skip].
    destruct (store s r1) as [o1 |] eqn:S1;
      [| destruct (store s r2); exact Skip].
    destruct (store s r2) as [o2 |] eqn:S2; [| exact Skip].
    destruct (OBB.intersects (obb o1) (obb o2)) as [r |] eqn:I; [| discriminate].
    destruct (OBB.isColliding r) eqn:C; [| exact Skip].
    intros E. destruct (IH _ E) as (new & -> & S).
    exists (record r1 r2 r :: new). split; [now rewrite <- app_assoc |].
    apply Pipeline.selected_take; [| exact S].
    exists o1, o2. simpl. auto 10.
Qed.

(** What [checkCollisions] returns, phase by phase. *)
Lemma checkCollisions_phases (setFromObject : SetFromObject)
      (s s' : HybridCollisionSystem.t) (results : list HybridCollisionResult) :
  checkCollisions setFromObject s = OBB.Returns (s', results) ->
  let s1 := updateAllObjects setFromObject s in
  let rough := AkashicCollisionSystem.checkAll
                 (AkashicCollisionSystem.bodies (akashicSystem s1)) in
  s' = mk (meshes s1) (store s1) (fresh s1) (objects s1)
          (AkashicCollisionSystem.mk
             (AkashicCollisionSystem.bodies (akashicSystem s1)) rough)
          results /\
  Pipeline.selected (Pipeline.fromRough s') rough results.
Proof.
  intros E s1 rough. unfold checkCollisions in E. fold s1 in E.
  destruct (preciseLoop s1 _ []) as [rs |] eqn:P; [| discriminate].
  inversion E; subst s' results; clear E. split; [reflexivity |].
  apply preciseLoop_selected in P. destruct P as (new & -> & S). exact S.
Qed.

Lemma sameObjects_samePair (s : HybridCollisionSystem.t)
      (rc rc' : AkashicCollisionSystem.CollisionResult)
      (c c' : HybridCollisionResult) :
  NoDup (map snd (objects s)) ->
  Pipeline.fromRough s rc c -> Pipeline.fromRough s rc' c' ->
  ~ AkashicCollisionSystem.samePair rc rc' -> ~ Pipeline.sameObjects c c'.
Proof.
  intros N (o1 & o2 & G1 & G2 & _) (o1' & o2' & G1' & G2' & _) Hn Hs.
  apply Hn. destruct Hs as [[E1 E2] | [E1 E2]]; [left | right].
  - rewrite <- E1 in G1'. rewrite <- E2 in G2'.
    split; eapply get_injective; eassumption.
  - rewrite <- E1 in G2'. rewrite <- E2 in G1'.
    split; eapply get_injective; eassumption.
Qed.

(** The records of [checkCollisions], one by one. *)
Lemma checkCollisions_records (setFromObject : SetFromObject)
      (s s' : HybridCollisionSystem.t) (results : list HybridCollisionResult)
      (c : HybridCollisionResult) :
  Pipeline.consistent s ->
  checkCollisions setFromObject s = OBB.Returns (s', results) ->
  In c results ->
  exists ida idb ba bb,
    ida <> idb /\
    AkashicCollisionSystem.getBody (akashicSystem s') ida = Some ba /\
    AkashicCollisionSystem.getBody (akashicSystem s') idb = Some bb /\
    AkashicCollisionSystem.checkAABBCollision ba bb <> None /\
    Pipeline.reportedFor s' ida idb c.
Proof.
  intros C E Hc.
  destruct (updateAllObjects_consistent setFromObject s C) as [C1 O1].
  destruct (checkCollisions_phases _ _ _ _ E) as [Es S]. cbv zeta in Es, S.
  destruct C1 as (K & N1 & N2 & Hall).
  assert (Nb : NoDup (JSMap.keys (AkashicCollisionSystem.bodies
                 (akashicSystem (updateAllObjects setFromObject s)))))
    by (now rewrite <- K).
  destruct (checkAll_pairs _ Nb) as [Hne Hpairs].
  destruct (selected_In _ _ _ _ S Hc) as (rc & Hrc & L).
  exists (AkashicCollisionSystem.id1 rc), (AkashicCollisionSystem.id2 rc),
    (AkashicCollisionSystem.body1 rc), (AkashicCollisionSystem.body2 rc).
  pose proof (checkAll_sound _ _ Hrc) as (B1 & B2 & B3).
  split; [now apply Hne |].
  rewrite Es. unfold AkashicCollisionSystem.getBody.
  cbn [akashicSystem AkashicCollisionSystem.bodies].
  split; [now apply In_get |]. split; [now apply In_get |].
  split; [congruence |]. rewrite <- Es. exact L.
Qed.

(** X21.  What the pipeline reports: in every state that the methods
    produce, when [checkCollisions] returns, it stores the list it
    returns; each record is about two different registered identifiers
    whose rectangles overlap in the broad phase and whose OBBs
    [intersects] finds colliding, and repeats the result of that call; no
    two records are about the same unordered pair of objects; and there
    are at most as many records as the broad phase has pairs. *)
Theorem checkCollisions_reports_registered_pairs
        (setFromObject : SetFromObject)
        (s s' : HybridCollisionSystem.t) (results : list HybridCollisionResult) :
  reachable setFromObject s ->
  checkCollisions setFromObject s = OBB.Returns (s', results) ->
  collisionResults s' = results /\
  objects s' = objects s /\
  (forall c, In c results ->
     exists ida idb ba bb,
       ida <> idb /\
       AkashicCollisionSystem.getBody (akashicSystem s') ida = Some ba /\
       AkashicCollisionSystem.getBody (akashicSystem s') idb = Some bb /\
       AkashicCollisionSystem.checkAABBCollision ba bb <> None /\
       Pipeline.reportedFor s' ida idb c) /\
  ForallOrdPairs (fun c c' => ~ Pipeline.sameObjects c c') results /\
  (List.length results
   <= List.length (AkashicCollisionSystem.collisionResults (akashicSystem s')))%nat.
Proof.
  intros Hreach E.
  pose proof (reachable_consistent _ _ Hreach) as C.
  destruct (updateAllObjects_consistent setFromObject s C) as [C1 O1].
  destruct (checkCollisions_phases _ _ _ _ E) as [Es S]. cbv zeta in Es, S.
  destruct C1 as (K & N1 & N2 & Hall).
  assert (Nb : NoDup (JSMap.keys (AkashicCollisionSystem.bodies
                 (akashicSystem (updateAllObjects setFromObject s)))))
    by (now rewrite <- K).
  destruct (checkAll_pairs _ Nb) as [Hne Hpairs].
  split; [rewrite Es; reflexivity |].
  split; [rewrite Es; exact O1 |].
  split; [| split].
  - intros c Hc. eapply checkCollisions_records; eassumption.
  - eapply selected_pairs; [| exact S | exact Hpairs].
    intros rc rc' c c' L L'. apply (sameObjects_samePair s'); try assumption.
    rewrite Es. exact N2.
  - rewrite Es. cbn [akashicSystem AkashicCollisionSystem.collisionResults].
    eapply selected_length. exact S.
Qed.

End Phases.

(** ** Removing, counting, and meshes placed rigidly *)

Section PipelineMore.

Import HybridCollisionSystem.

Lemma singleCube_reachable : reachable Scenario.translated Scenario.singleCube.
Proof.
  apply (reach_addObject _ (create Scenario.twoCubes) _ "cube"%string 0%nat box).
  - constructor.
  - reflexivity.
Qed.

Lemma overlappingCubes_reachable :
  reachable Scenario.translated Scenario.overlappingCubes.
Proof.
  eapply (reach_addObject _ _ _ "b"%string 1%nat box);
    [eapply (reach_addObject _ (create Scenario.nearCubes) _ "a"%string 0%nat box);
     [constructor | reflexivity] | reflexivity].
Qed.

(** X22.  [removeObject] takes an identifier out of both registries: in
    every state that the methods produce, the identifier has neither an
    object nor a rectangle afterwards, every other identifier keeps both,
    and removing an identifier that is not registered changes nothing. *)
Theorem removeObject_unregisters (setFromObject : SetFromObject)
        (s : HybridCollisionSystem.t) (id0 : string) :
  reachable setFromObject s ->
  lookup (removeObject s id0) id0 = None /\
  AkashicCollisionSystem.getBody (akashicSystem (removeObject s id0)) id0 = None /\
  (forall id', id' <> id0 ->
     lookup (removeObject s id0) id' = lookup s id' /\
     AkashicCollisionSystem.getBody (akashicSystem (removeObject s id0)) id'
     = AkashicCollisionSystem.getBody (akashicSystem s) id') /\
  (lookup s id0 = None -> removeObject s id0 = s).
Proof.
  intros H. apply reachable_consistent in H.
  destruct H as (K & N1 & N2 & Hall).
  unfold lookup, removeObject, AkashicCollisionSystem.getBody,
    AkashicCollisionSystem.removeBody.
  cbn [objects akashicSystem store AkashicCollisionSystem.bodies].
  split; [now rewrite get_delete_same |].
  split; [apply get_delete_same; now rewrite <- K |].
  split.
  - intros id' N. now rewrite !get_delete_other.
  - intros L.
    assert (G : JSMap.get (objects s) id0 = None).
    { destruct (JSMap.get (objects s) id0) as [ref |] eqn:G; [| reflexivity].
      apply get_In in G. destruct (Hall _ _ G) as (_ & obj & Hs & _).
      congruence. }
    assert (G' : JSMap.get (AkashicCollisionSystem.bodies (akashicSystem s)) id0 = None).
    { apply get_notin_keys. rewrite <- K. intros Hin.
      apply in_keys_get in Hin. destruct Hin as [v Hv]. congruence. }
    rewrite (delete_absent _ _ G), (delete_absent _ _ G').
    destruct s as [ms st fr ob [bd rs] cr]. reflexivity.
Qed.

Lemma removeObject_unregisters_witness :
  lookup (removeObject Scenario.singleCube "cube") "cube" = None /\
  AkashicCollisionSystem.getBody
    (akashicSystem (removeObject Scenario.singleCube "cube")) "cube" = None.
Proof.
  destruct (removeObject_unregisters Scenario.translated Scenario.singleCube
              "cube"%string singleCube_reachable) as (H1 & H2 & _).
  split; [exact H1 | exact H2].
Defined.

Lemma INR_ratio (p r : nat) :
  (p <= r)%nat ->
  0 <= (if Nat.ltb 0 r then INR p / INR r else 0) <= 1.
Proof.
  intros H. destruct (Nat.ltb 0 r) eqn:E; [| lra].
  apply Nat.ltb_lt in E.
  assert (0 < INR r) by (now apply lt_0_INR).
  assert (0 <= INR p) by apply pos_INR.
  assert (INR p <= INR r) by (now apply le_INR).
  split.
  - apply Rmult_le_pos; [assumption |]. left. now apply Rinv_0_lt_compat.
  - apply (Rmult_le_reg_r (INR r)); [assumption |].
    unfold Rdiv. rewrite Rmult_assoc, Rinv_l by lra. lra.
Qed.

Lemma objects_fold_updateObject (setFromObject : SetFromObject)
      (l : list (string * ObjectRef)) (s : HybridCollisionSystem.t) :
  objects (fold_left (updateObject setFromObject) l s) = objects s.
Proof.
  revert s. induction l as [| e l IH]; intros s; simpl; [reflexivity |].
  rewrite IH. unfold updateObject. destruct (store s (snd e)); reflexivity.
Qed.

(** X23.  The statistics right after a check: when [checkCollisions] has
    returned, [getStats] counts the registered objects, the pairs of the
    broad phase and the records that were returned; the precise count is
    at most the rough count, so [performanceRatio] lies between 0 and 1. *)
Theorem getStats_after_check (setFromObject : SetFromObject)
        (s s' : HybridCollisionSystem.t) (results : list HybridCollisionResult) :
  checkCollisions setFromObject s = OBB.Returns (s', results) ->
  objectCount (snd (getStats s')) = List.length (objects s) /\
  preciseCollisionCount (snd (getStats s')) = List.length results /\
  roughCollisionCount (snd (getStats s'))
  = List.length (AkashicCollisionSystem.collisionResults (akashicSystem s')) /\
  (preciseCollisionCount (snd (getStats s'))
   <= roughCollisionCount (snd (getStats s')))%nat /\
  0 <= performanceRatio (snd (getStats s')) <= 1.
Proof.
  intros E. destruct (checkCollisions_phases _ _ _ _ E) as [Es S].
  cbv zeta in Es, S.
  pose proof (selected_length _ _ _ S) as L.
  assert (O : objects (updateAllObjects setFromObject s) = objects s)
    by apply objects_fold_updateObject.
  rewrite Es in *. unfold getStats.
  cbn [snd fst objectCount preciseCollisionCount roughCollisionCount
       performanceRatio objects akashicSystem collisionResults
       AkashicCollisionSystem.checkCollisions AkashicCollisionSystem.bodies
       AkashicCollisionSystem.collisionResults].
  split; [now rewrite O |]. split; [reflexivity |]. split; [reflexivity |].
  split; [exact L |]. now apply INR_ratio.
Qed.

(** ** Meshes placed by rotations and translations *)

Lemma updateObject_rigid (setFromObject : SetFromObject)
      (s : HybridCollisionSystem.t) (e : string * ObjectRef) :
  Pipeline.rigidMeshes setFromObject s ->
  Pipeline.rigidMeshes setFromObject (updateObject setFromObject s e) /\
  Pipeline.soundAt (updateObject setFromObject s e) (snd e) /\
  (forall ref, Pipeline.soundAt s ref ->
               Pipeline.soundAt (updateObject setFromObject s e) ref) /\
  objects (updateObject setFromObject s e) = objects s.
Proof.
  intros [Hm Hf]. unfold updateObject.
  destruct (store s (snd e)) as [obj |] eqn:E.
  - split; [| split; [| split]].
    + split; [| exact Hf]. intros m. cbn [meshes]. unfold update.
      destruct (Nat.eqb m (mesh obj)); [apply Hf |]; apply Hm.
    + intros o. cbn [store]. rewrite (refreshOBB_same _ _ _ _ E).
      intros H. inversion H; subst o. cbn [obb].
      split; [apply fromMesh_orthonormal, Hm | apply fromMesh_nonNegative].
    + intros ref Hs o. cbn [store].
      destruct (Nat.eq_dec ref (snd e)) as [-> | N].
      * rewrite (refreshOBB_same _ _ _ _ E).
        intros H. inversion H; subst o. cbn [obb].
        split; [apply fromMesh_orthonormal, Hm | apply fromMesh_nonNegative].
      * rewrite refreshOBB_other by assumption. apply Hs.
    + reflexivity.
  - split; [split; assumption |]. split; [| split; [auto | reflexivity]].
    intros o H. congruence.
Qed.

Lemma fold_updateObject_rigid (setFromObject : SetFromObject)
      (l : list (string * ObjectRef)) (s : HybridCollisionSystem.t) :
  Pipeline.rigidMeshes setFromObject s ->
  Pipeline.rigidMeshes setFromObject (fold_left (updateObject setFromObject) l s) /\
  (forall ref, In ref (map snd l) \/ Pipeline.soundAt s ref ->
     Pipeline.soundAt (fold_left (updateObject setFromObject) l s) ref) /\
  objects (fold_left (updateObject setFromObject) l s) = objects s.
Proof.
  revert s. induction l as [| e l IH]; intros s Hr; simpl.
  - split; [exact Hr |]. split; [| reflexivity]. intros ref [[] | H]; exact H.
  - destruct (updateObject_rigid setFromObject s e Hr) as (R1 & S1 & K1 & O1).
    destruct (IH _ R1) as (R2 & S2 & O2).
    split; [exact R2 |]. split; [| congruence].
    intros ref [[<- | Hin] | Hs]; apply S2; auto.
Qed.

Lemma preciseLoop_returns (s : HybridCollisionSystem.t)
      (rough : list AkashicCollisionSystem.CollisionResult)
      (acc : list HybridCollisionResult) :
  (forall id0 ref, JSMap.get (objects s) id0 = Some ref -> Pipeline.soundAt s ref) ->
  exists results, preciseLoop s rough acc = OBB.Returns results.
Proof.
  intros Hs. revert acc. induction rough as [| rc rough IH]; intros acc; simpl.
  - eauto.
  - destruct (JSMap.get (objects s) (AkashicCollisionSystem.id1 rc)) as [r1 |] eqn:G1;
      [| destruct (JSMap.get (objects s) (AkashicCollisionSystem.id2 rc)); apply IH].
    destruct (JSMap.get (objects s) (AkashicCollisionSystem.id2 rc)) as [r2 |] eqn:G2;
      [| apply IH].
    destruct (store s r1) as [o1 |] eqn:S1; [| destruct (store s r2); apply IH].
    destruct (store s r2) as [o2 |] eqn:S2; [| apply IH].
    destruct (Hs _ _ G1 _ S1) as [Ho _].
    destruct (intersects_returns (obb o1) (obb o2) Ho) as [r ->].
    destruct (OBB.isColliding r); apply IH.
Qed.

(** [checkCollisions] on meshes that are placed rigidly. *)
Lemma checkCollisions_rigid (setFromObject : SetFromObject)
      (s : HybridCollisionSystem.t) :
  Pipeline.rigidMeshes setFromObject s ->
  exists s' results,
    checkCollisions setFromObject s = OBB.Returns (s', results) /\
    Pipeline.rigidMeshes setFromObject s' /\
    forall id0 ref, JSMap.get (objects s') id0 = Some ref ->
                    Pipeline.soundAt s' ref.
Proof.
  intros Hr.
  destruct (fold_updateObject_rigid setFromObject (objects s) s Hr)
    as (R1 & S1 & O1).
  fold (updateAllObjects setFromObject s) in R1, S1, O1.
  assert (Hs : forall id0 ref,
             JSMap.get (objects (updateAllObjects setFromObject s)) id0 = Some ref ->
             Pipeline.soundAt (updateAllObjects setFromObject s) ref).
  { intros id0 ref G. apply S1. left. rewrite O1 in G. apply get_In in G.
    apply in_map_iff. exists (id0, ref). auto. }
  unfold checkCollisions.
  destruct (preciseLoop_returns (updateAllObjects setFromObject s)
              (snd (AkashicCollisionSystem.checkCollisions
                      (akashicSystem (updateAllObjects setFromObject s)))) [] Hs)
    as [results ->].
  eexists. eexists. split; [reflexivity |]. split; [exact R1 | exact Hs].
Qed.

(** X24.  [checkCollisions] does not raise when every mesh is placed by a
    rotation and a translation (and the library call keeps it so): the
    call returns, and afterwards the OBB of every registered object has an
    orthonormal orientation and half-extents that are not negative. *)
Theorem checkCollisions_returns_for_rigid_meshes
        (setFromObject : SetFromObject) (s : HybridCollisionSystem.t) :
  Pipeline.rigidMeshes setFromObject s ->
  exists s' results,
    checkCollisions setFromObject s = OBB.Returns (s', results) /\
    forall id0 obj, lookup s' id0 = Some obj ->
      SAT.orthonormal (obb obj) /\ SAT.nonNegativeExtents (obb obj).
Proof.
  intros Hr. destruct (checkCollisions_rigid setFromObject s Hr)
    as (s' & results & E & _ & Hs).
  exists s', results. split; [exact E |].
  intros id0 obj. unfold lookup.
  destruct (JSMap.get (objects s') id0) as [ref |] eqn:G; [| discriminate].
  intros L. exact (Hs _ _ G _ L).
Qed.

Lemma translated_rigid (mesh : Mesh) :
  SAT.rigid (matrixWorld (snd (Scenario.translated mesh))).
Proof. unfold SAT.rigid, Scenario.translated; simpl. repeat split; lra. Qed.

Lemma overlappingCubes_rigid :
  Pipeline.rigidMeshes Scenario.translated Scenario.overlappingCubes.
Proof.
  split; [| intros mesh _; apply translated_rigid].
  intros m. unfold Scenario.overlappingCubes, Scenario.afterAddObject, addObject.
  cbn [meshes create]. unfold update.
  destruct (Nat.eqb m 1); [apply translated_rigid |].
  destruct (Nat.eqb m 0); [apply translated_rigid |].
  destruct m; unfold SAT.rigid; simpl; repeat split; lra.
Qed.

Lemma checkCollisions_returns_for_rigid_meshes_witness :
  exists s' results,
    checkCollisions Scenario.translated Scenario.overlappingCubes
    = OBB.Returns (s', results) /\
    forall id0 obj, lookup s' id0 = Some obj ->
      SAT.orthonormal (obb obj) /\ SAT.nonNegativeExtents (obb obj).
Proof.
  apply (checkCollisions_returns_for_rigid_meshes Scenario.translated
           Scenario.overlappingCubes overlappingCubes_rigid).
Defined.

Lemma overlappingCubes_checked :
  exists s' results,
    checkCollisions Scenario.translated Scenario.overlappingCubes
    = OBB.Returns (s', results).
Proof.
  destruct (checkCollisions_rigid _ _ overlappingCubes_rigid)
    as (s' & results & E & _). eauto.
Qed.

Lemma getStats_after_check_witness :
  exists s' results,
    checkCollisions Scenario.translated Scenario.overlappingCubes
    = OBB.Returns (s', results) /\
    (preciseCollisionCount (snd (getStats s'))
     <= roughCollisionCount (snd (getStats s')))%nat /\
    0 <= performanceRatio (snd (getStats s')) <= 1.
Proof.
  destruct overlappingCubes_checked as (s' & results & E).
  exists s', results. split; [exact E |].
  destruct (getStats_after_check _ _ _ _ E) as (_ & _ & _ & H1 & H2).
  split; [exact H1 | exact H2].
Defined.

(** X25.  Each record that [checkCollisions] returns is the record that
    [checkCollisionBetween] returns for its two identifiers on the state
    afterwards. *)
Theorem checkCollisionBetween_agrees (setFromObject : SetFromObject)
        (s s' : HybridCollisionSystem.t) (results : list HybridCollisionResult) :
  reachable setFromObject s ->
  checkCollisions setFromObject s = OBB.Returns (s', results) ->
  Forall (fun c =>
            exists ida idb,
              ida <> idb /\
              JSMap.get (objects s') ida = Some (object1 c) /\
              JSMap.get (objects s') idb = Some (object2 c) /\
              checkCollisionBetween s' ida idb = OBB.Returns (Some c))
         results.
Proof.
  intros Hreach E. apply Forall_forall. intros c Hc.
  destruct (checkCollisions_records _ _ _ _ c (reachable_consistent _ _ Hreach) E Hc)
    as (ida & idb & ba & bb & N & Ba & Bb & Hov & L).
  exists ida, idb. split; [exact N |].
  destruct L as (o1 & o2 & G1 & G2 & S1 & S2 & I & Col & Ec).
  split; [exact G1 |]. split; [exact G2 |].
  unfold checkCollisionBetween. rewrite G1, G2, S1, S2, Ba, Bb. cbv zeta.
  unfold AkashicCollisionSystem.checkAABBCollision in Hov.
  destruct (Rle_dec _ 0) as [Lx | Gx].
  - exfalso. destruct (Rgt_dec _ 0) as [G | _]; [lra | now apply Hov].
  - destruct (Rle_dec _ 0) as [Ly | Gy].
    + exfalso. destruct (Rgt_dec _ 0) as [G | _]; [| now apply Hov].
      destruct (Rgt_dec _ 0) as [G' | _]; [lra | now apply Hov].
    + rewrite I, Col. now rewrite <- Ec.
Qed.

Lemma checkCollisionBetween_agrees_witness :
  exists s' results,
    checkCollisions Scenario.translated Scenario.overlappingCubes
    = OBB.Returns (s', results) /\
    Forall (fun c =>
              exists ida idb,
                ida <> idb /\
                JSMap.get (objects s') ida = Some (object1 c) /\
                JSMap.get (objects s') idb = Some (object2 c) /\
                checkCollisionBetween s' ida idb = OBB.Returns (Some c))
           results.
Proof.
  destruct overlappingCubes_checked as (s' & results & E).
  exists s', results. split; [exact E |].
  exact (checkCollisionBetween_agrees _ _ _ _ overlappingCubes_reachable E).
Defined.

Lemma preciseLoop_complete (s : HybridCollisionSystem.t)
      (rough : list AkashicCollisionSystem.CollisionResult)
      (acc results : list HybridCollisionResult) :
  preciseLoop s rough acc = OBB.Returns results ->
  Forall (fun rc =>
            forall r1 r2 o1 o2,
              JSMap.get (objects s) (AkashicCollisionSystem.id1 rc) = Some r1 ->
              JSMap.get (objects s) (AkashicCollisionSystem.id2 rc) = Some r2 ->
              store s r1 = Some o1 -> store s r2 = Some o2 ->
              exists r, OBB.intersects (obb o1) (obb o2) = OBB.Returns r /\
                        (OBB.isColliding r = true -> In (record r1 r2 r) results))
         rough.
Proof.
  revert acc. induction rough as [| rc rough IH]; intros acc; simpl.
  - constructor.
  - assert (Skip : preciseLoop s rough acc = OBB.Returns results ->
              Forall (fun rc =>
                forall r1 r2 o1 o2,
                  JSMap.get (objects s) (AkashicCollisionSystem.id1 rc) = Some r1 ->
                  JSMap.get (objects s) (AkashicCollisionSystem.id2 rc) = Some r2 ->
                  store s r1 = Some o1 -> store s r2 = Some o2 ->
                  exists r, OBB.intersects (obb o1) (obb o2) = OBB.Returns r /\
                    (OBB.isColliding r = true -> In (record r1 r2 r) results))
                rough) by apply IH.
    destruct (JSMap.get (objects s) (AkashicCollisionSystem.id1 rc)) as [r1 |] eqn:G1;
      [| destruct (JSMap.get (objects s) (AkashicCollisionSystem.id2 rc));
         intros E; constructor; auto;
         intros ? ? ? ? A1 A2 A3 A4; congruence].
    destruct (JSMap.get (objects s) (AkashicCollisionSystem.id2 rc)) as [r2 |] eqn:G2;
      [| intros E; constructor; auto;
         intros ? ? ? ? A1 A2 A3 A4; congruence].
    destruct (store s r1) as [o1 |] eqn:S1;
      [| destruct (store s r2); intros E; constructor; auto;
         intros ? ? ? ? A1 A2 A3 A4; congruence].
    destruct (store s r2) as [o2 |] eqn:S2;
      [| intros E; constructor; auto; intros ? ? ? ? A1 A2 A3 A4; congruence].
    destruct (OBB.intersects (obb o1) (obb o2)) as [r |] eqn:I; [| discriminate].
    destruct (OBB.isColliding r) eqn:C.
    + intros E. constructor; [| eapply IH; eassumption].
      intros r1' r2' o1' o2' A1 A2 A3 A4.
      assert (r1' = r1) by congruence. assert (r2' = r2) by congruence.
      subst. assert (o1' = o1) by congruence. assert (o2' = o2) by congruence.
      subst. exists r. split; [exact I |]. intros _.
      apply preciseLoop_selected in E. destruct E as (new & -> & _).
      apply in_or_app. left. apply in_or_app. right. now left.
    + intros E. constructor; [| auto].
      intros r1' r2' o1' o2' A1 A2 A3 A4.
      assert (r1' = r1) by congruence. assert (r2' = r2) by congruence.
      subst. assert (o1' = o1) by congruence. assert (o2' = o2) by congruence.
      subst. exists r. split; [exact I |]. congruence.
Qed.

(** X26.  The precise phase drops no pair of the broad phase: in every
    state that the methods produce, when [checkCollisions] returns, each
    pair that the broad phase has stored names two registered objects,
    [intersects] has returned for their OBBs, and if it found a collision,
    the record of that collision is in the list. *)
Theorem checkCollisions_tests_every_rough_pair
        (setFromObject : SetFromObject)
        (s s' : HybridCollisionSystem.t) (results : list HybridCollisionResult) :
  reachable setFromObject s ->
  checkCollisions setFromObject s = OBB.Returns (s', results) ->
  Forall (fun rc =>
            exists r1 r2 o1 o2 r,
              JSMap.get (objects s') (AkashicCollisionSystem.id1 rc) = Some r1 /\
              JSMap.get (objects s') (AkashicCollisionSystem.id2 rc) = Some r2 /\
              store s' r1 = Some o1 /\ store s' r2 = Some o2 /\
              OBB.intersects (obb o1) (obb o2) = OBB.Returns r /\
              (OBB.isColliding r = true -> In (record r1 r2 r) results))
         (AkashicCollisionSystem.collisionResults (akashicSystem s')).
Proof.
  intros Hreach E.
  pose proof (reachable_consistent _ _ Hreach) as C.
  destruct (updateAllObjects_consistent setFromObject s C) as [C1 O1].
  destruct C1 as (K & N1 & N2 & Hall).
  unfold checkCollisions in E.
  destruct (preciseLoop _ _ []) as [rs |] eqn:P; [| discriminate].
  inversion E; subst s' results; clear E.
  cbn [akashicSystem fst snd AkashicCollisionSystem.checkCollisions
       AkashicCollisionSystem.collisionResults objects store].
  apply preciseLoop_complete in P.
  cbn [snd AkashicCollisionSystem.checkCollisions] in P.
  rewrite Forall_forall in *. intros rc Hrc. specialize (P rc Hrc).
  apply In_checkAll in Hrc. destruct Hrc as (K1 & K2 & _).
  rewrite <- K in K1, K2.
  apply in_keys_get in K1, K2. destruct K1 as [r1 G1]. destruct K2 as [r2 G2].
  destruct (Hall _ _ (get_In _ _ _ G1)) as (_ & o1 & S1 & _).
  destruct (Hall _ _ (get_In _ _ _ G2)) as (_ & o2 & S2 & _).
  destruct (P r1 r2 o1 o2 G1 G2 S1 S2) as (r & I & Hin).
  exists r1, r2, o1, o2, r. auto 10.
Qed.

Lemma checkCollisions_tests_every_rough_pair_witness :
  exists s' results,
    checkCollisions Scenario.translated Scenario.overlappingCubes
    = OBB.Returns (s', results) /\
    Forall (fun rc =>
              exists r1 r2 o1 o2 r,
                JSMap.get (objects s') (AkashicCollisionSystem.id1 rc) = Some r1 /\
                JSMap.get (objects s') (AkashicCollisionSystem.id2 rc) = Some r2 /\
                store s' r1 = Some o1 /\ store s' r2 = Some o2 /\
                OBB.intersects (obb o1) (obb o2) = OBB.Returns r /\
                (OBB.isColliding r = true -> In (record r1 r2 r) results))
           (AkashicCollisionSystem.collisionResults (akashicSystem s')).
Proof.
  destruct overlappingCubes_checked as (s' & results & E).
  exists s', results. split; [exact E |].
  exact (checkCollisions_tests_every_rough_pair _ _ _ _
           overlappingCubes_reachable E).
Defined.

End PipelineMore.

(** ** The scenarios of the pipeline *)

Section PipelineScenarios.

Import HybridCollisionSystem.

Lemma registry_consistent_witness :
  Pipeline.consistent Scenario.singleCube /\
  forall id0,
    (exists obj, lookup Scenario.singleCube id0 = Some obj /\ id obj = id0) <->
    AkashicCollisionSystem.getBody (akashicSystem Scenario.singleCube) id0 <> None.
Proof.
  apply (registry_consistent Scenario.translated Scenario.singleCube
           singleCube_reachable).
Defined.

Lemma checkCollisions_reports_registered_pairs_witness :
  exists s' results,
    checkCollisions Scenario.translated Scenario.overlappingCubes
    = OBB.Returns (s', results) /\
    collisionResults s' = results /\
    objects s' = objects Scenario.overlappingCubes /\
    ForallOrdPairs (fun c c' => ~ Pipeline.sameObjects c c') results /\
    (List.length results
     <= List.length (AkashicCollisionSystem.collisionResults (akashicSystem s')))%nat.
Proof.
  destruct overlappingCubes_checked as (s' & results & E).
  exists s', results. split; [exact E |].
  destruct (checkCollisions_reports_registered_pairs _ _ _ _
              overlappingCubes_reachable E) as (H1 & H2 & _ & H4 & H5).
  auto.
Defined.

End PipelineScenarios.
